(** * MessagesPage: conversation derivation, search and composer

    A shallow embedding of [src/pages/MessagesPage.tsx].  The page derives one
    chat thread per patient from the booking records kept in [localStorage],
    filters the threads by a search term and owns a message composer.

    Conventions of the embedding
    - A JavaScript string is the [string] of its UTF-8 bytes; comparison,
      concatenation and [includes] act on the bytes, [trim] strips the
      encodings of all white space and line terminators of ECMAScript, and
      [toLowerCase], which depends on the Unicode tables of the engine, is a
      parameter of the search.
    - A [Date] is its time value in milliseconds ([Z]); an invalid date
      ([NaN]) is [None].
    - Every call of [Date.now()] / [new Date()] is a separate read of the
      system clock: the clock is a function from the number of reads made so
      far to the value returned.
    - A field that may be missing from a parsed JSON record is an [option]
      ([None] is [undefined]). *)

From Stdlib Require Import List String Ascii Bool ZArith QArith Lia Permutation.
From Stdlib Require Import DecimalString Sorted.
Import ListNotations.

Local Open Scope Z_scope.
Local Open Scope list_scope.

(* ------------------------------------------------------------------ *)
(** ** JavaScript values used by the page *)

(** [a || b] on a possibly missing string, followed by a string default:
    the empty string and [undefined] are falsy. *)
Definition or_else (a : option string) (b : string) : string :=
  match a with
  | Some s => if String.eqb s "" then b else s
  | None => b
  end.

(** Template-literal interpolation of a possibly missing string. *)
Definition interpolate (a : option string) : string :=
  match a with
  | Some s => s
  | None => "undefined"
  end.

(** [a === b] on possibly missing strings. *)
Definition strict_eq (a b : option string) : bool :=
  match a, b with
  | Some x, Some y => String.eqb x y
  | None, None => true
  | _, _ => false
  end.

(** A date-valued field of a stored record: missing ([undefined], or the
    empty string: both falsy and both an invalid date), present but not a
    date, or a date string with its time value. *)
Inductive DateField :=
| NoDate
| BadDate
| DateAt (ms : Z).

(** [a || b] on date fields. *)
Definition or_date (a b : DateField) : DateField :=
  match a with
  | NoDate => b
  | _ => a
  end.

(** [new Date(x).getTime()]; [None] is [NaN]. *)
Definition getTime (x : DateField) : option Z :=
  match x with
  | DateAt ms => Some ms
  | _ => None
  end.

(** What [String.prototype.toLowerCase] does to text of ASCII characters:
    the letters A-Z are replaced by a-z and nothing else changes. *)
Definition lower_ascii (c : ascii) : ascii :=
  let n := nat_of_ascii c in
  if (Nat.leb 65 n && Nat.leb n 90)%bool then ascii_of_nat (n + 32) else c.

Fixpoint asciiLowerCase (s : string) : string :=
  match s with
  | EmptyString => EmptyString
  | String c s' => String (lower_ascii c) (asciiLowerCase s')
  end.

(** [s.startsWith(t)]. *)
Fixpoint startsWith (s t : string) {struct t} : bool :=
  match t, s with
  | EmptyString, _ => true
  | String _ _, EmptyString => false
  | String b t', String a s' => (Ascii.eqb a b && startsWith s' t')%bool
  end.

(** [s.includes(t)]: [t] occurs in [s] at some position. *)
Fixpoint includes (s t : string) : bool :=
  if startsWith s t then true
  else match s with
       | EmptyString => false
       | String _ s' => includes s' t
       end.

(** White space and line terminators that [trim] strips, by the length of
    their UTF-8 encoding.  One byte: tab, line feed, vertical tab, form
    feed, carriage return, space. *)
Definition isWhiteSpace (c : ascii) : bool :=
  let n := nat_of_ascii c in
  ((Nat.leb 9 n && Nat.leb n 13) || Nat.eqb n 32)%bool.

Definition isByte (c : ascii) (n : nat) : bool := Nat.eqb (nat_of_ascii c) n.

(** Two bytes: U+00A0 (C2 A0). *)
Definition isWhiteSpace2 (a b : ascii) : bool :=
  (isByte a 194 && isByte b 160)%bool.

(** Three bytes: U+1680 (E1 9A 80), U+2000 to U+200A (E2 80 80 to 8A),
    U+2028 and U+2029 (E2 80 A8, A9), U+202F (E2 80 AF), U+205F (E2 81 9F),
    U+3000 (E3 80 80) and U+FEFF (EF BB BF). *)
Definition isWhiteSpace3 (a b c : ascii) : bool :=
  let n := nat_of_ascii c in
  ((isByte a 225 && isByte b 154 && isByte c 128)
   || (isByte a 226 && isByte b 128
       && ((Nat.leb 128 n && Nat.leb n 138)
           || Nat.eqb n 168 || Nat.eqb n 169 || Nat.eqb n 175))
   || (isByte a 226 && isByte b 129 && isByte c 159)
   || (isByte a 227 && isByte b 128 && isByte c 128)
   || (isByte a 239 && isByte b 187 && isByte c 191))%bool.

Fixpoint trimStart (s : string) : string :=
  match s with
  | EmptyString => EmptyString
  | String a s1 =>
      if isWhiteSpace a then trimStart s1
      else
        match s1 with
        | EmptyString => s
        | String b s2 =>
            if isWhiteSpace2 a b then trimStart s2
            else
              match s2 with
              | EmptyString => s
              | String c s3 => if isWhiteSpace3 a b c then trimStart s3 else s
              end
        end
  end.

Definition reverse (s : string) : string :=
  string_of_list_ascii (rev (list_ascii_of_string s)).

(** [trimStart] on the bytes read from the end. *)
Fixpoint trimReversed (s : string) : string :=
  match s with
  | EmptyString => EmptyString
  | String c s1 =>
      if isWhiteSpace c then trimReversed s1
      else
        match s1 with
        | EmptyString => s
        | String b s2 =>
            if isWhiteSpace2 b c then trimReversed s2
            else
              match s2 with
              | EmptyString => s
              | String a s3 => if isWhiteSpace3 a b c then trimReversed s3 else s
              end
        end
  end.

Definition trimEnd (s : string) : string := reverse (trimReversed (reverse s)).

Definition trim (s : string) : string := trimEnd (trimStart s).

(** Truthiness of a string. *)
Definition truthy (s : string) : bool := negb (String.eqb s "").

(* ------------------------------------------------------------------ *)
(** ** Data model *)

(** The signed-in therapist, [useAuth().user]. *)
Module User.
Record t := mk { id : string; name : string }.
End User.

(** An entry of [mindcare_registered_users]: an object with an [id]. *)
Module RegisteredUser.
Record t := mk { id : string; email : option string }.
End RegisteredUser.

(** An entry of [mindcare_bookings]: an object as the booking flow writes
    it, with [patientId], [patientName] and [status]; the other fields may
    be missing. *)
Module Booking.
Record t := mk {
  patientId : string;
  patientName : string;
  patientEmail : option string;
  therapistName : option string;
  therapistId : option string;
  status : string;
  createdAt : DateField;
  date : DateField
}.
End Booking.

Inductive MessageType := text | image | file.

Module Message.
Record t := mk {
  id : string;
  senderId : string;
  senderName : string;
  content : string;
  timestamp : Z;
  type : MessageType;
  read : bool
}.
End Message.

Inductive Presence := online | offline | away.

Module Conversation.
Record t := mk {
  id : string;
  patientId : string;
  patientName : string;
  patientEmail : string;
  lastMessage : string;
  lastMessageTime : Z;
  unreadCount : Z;
  status : Presence;
  messages : list Message.t
}.
End Conversation.

(* ------------------------------------------------------------------ *)
(** ** The system clock *)

(** [now c k] is what the [k]-th read of the clock returns. *)
Definition Clock := nat -> Z.

Definition monotone (c : Clock) : Prop :=
  forall i j, (i <= j)%nat -> c i <= c j.

(* ------------------------------------------------------------------ *)
(** ** Derivation of the conversations ([loadConversations], lines 47-134) *)

(** The filter of line 48. *)
Definition isTherapistBooking (user : option User.t) (booking : Booking.t) : bool :=
  (strict_eq (Booking.therapistName booking) (option_map User.name user)
   || strict_eq (Booking.therapistId booking) (option_map User.id user))%bool.

(** [new Date(b.createdAt || b.date).getTime()]. *)
Definition referenceTime (b : Booking.t) : option Z :=
  getTime (or_date (Booking.createdAt b) (Booking.date b)).

(** The comparator of lines 62-63; [None] is [NaN]. *)
Definition compareFn (a b : Booking.t) : option Z :=
  match referenceTime b, referenceTime a with
  | Some tb, Some ta => Some (tb - ta)
  | _, _ => None
  end.

(** [Array.prototype.sort]: a stable sort; [a] is moved behind [b] exactly
    when the comparator is positive on [(a, b)], and a [NaN] result counts
    as zero.  Written as the insertion sort that keeps an element in front
    of the later elements it does not have to follow.  This is the order of
    every engine where the comparator is consistent, as it is on bookings
    that all have a time value; with a [NaN] among the results the
    comparator is not consistent, the order is implementation-defined, and
    the insertion sort is one of the orders an engine may give. *)
Definition comesAfter {A} (cmp : A -> A -> option Z) (a b : A) : bool :=
  match cmp a b with
  | Some v => 0 <? v
  | None => false
  end.

Fixpoint sort_insert {A} (cmp : A -> A -> option Z) (x : A) (l : list A) : list A :=
  match l with
  | [] => [x]
  | y :: l' => if comesAfter cmp x y then y :: sort_insert cmp x l' else x :: l
  end.

Fixpoint Array_sort {A} (cmp : A -> A -> option Z) (l : list A) : list A :=
  match l with
  | [] => []
  | x :: l' => sort_insert cmp x (Array_sort cmp l')
  end.

(** Lines 61-64.  The group always holds [booking] itself, so the element
    [0] exists; [booking] stands in for the index out of range. *)
Definition latestBookingOf (therapistBookings : list Booking.t) (booking : Booking.t)
  : Booking.t :=
  let patientBookings :=
    filter (fun b => String.eqb (Booking.patientId b) (Booking.patientId booking))
           therapistBookings in
  hd booking (Array_sort compareFn patientBookings).

(** Lines 67-77. *)
Definition lastMessageFor (status : string) : string :=
  if String.eqb status "completed" then
    "Thank you for the session today. I feel much better."
  else if String.eqb status "pending_confirmation" then
    "I just booked an appointment. Can you confirm the time?"
  else if String.eqb status "confirmed" then
    "See you at our scheduled appointment."
  else "Looking forward to our session.".

Definition unreadCountFor (status : string) : Z :=
  if String.eqb status "completed" then 0
  else if String.eqb status "pending_confirmation" then 1
  else 0.

(** Lines 80-85.  [hoursAgo] is the exact quotient; the comparisons with 2
    and 24 are far from any rounding of the division. *)
Definition hoursAgo (timeSinceBooking : Z) : Q :=
  (inject_Z timeSinceBooking / inject_Z (1000 * 60 * 60))%Q.

Definition Qltb (x y : Q) : bool := negb (Qle_bool y x).

Definition presence (referenceTime : option Z) (now : Z) : Presence :=
  match referenceTime with
  | None => offline
  | Some t =>
      let timeSinceBooking := now - t in
      if Qltb (hoursAgo timeSinceBooking) (inject_Z 2) then online
      else if Qltb (hoursAgo timeSinceBooking) (inject_Z 24) then away
      else offline
  end.

(** Lines 60-128: the conversation built for the first booking met of a
    patient, given the user record line 57 has found.  [k] is the number of
    clock reads made before; five more are made, in the order of the source
    text. *)
Definition conversationFor (now : Clock) (k : nat) (user : option User.t)
    (patientUser : option RegisteredUser.t) (therapistBookings : list Booking.t)
    (booking : Booking.t) : Conversation.t :=
  let patientId := Booking.patientId booking in
  let latestBooking := latestBookingOf therapistBookings booking in
  let lastMessage := lastMessageFor (Booking.status latestBooking) in
  let unreadCount := unreadCountFor (Booking.status latestBooking) in
  let status := presence (referenceTime latestBooking) (now k) in
  let messages :=
    [ Message.mk ("m_" ++ patientId ++ "_1") patientId (Booking.patientName booking)
        ("Hi " ++ interpolate (option_map User.name user)
               ++ ", I wanted to follow up on our session.")
        (now (k + 1)%nat - 4 * 60 * 60 * 1000) text true;
      Message.mk ("m_" ++ patientId ++ "_2")
        (or_else (option_map User.id user) "therapist")
        (or_else (option_map User.name user) "Therapist")
        ("Hello " ++ Booking.patientName booking
                  ++ "! I'm glad you reached out. How are you feeling today?")
        (now (k + 2)%nat - 3 * 60 * 60 * 1000) text true;
      Message.mk ("m_" ++ patientId ++ "_3") patientId (Booking.patientName booking)
        lastMessage
        (now (k + 3)%nat - 2 * 60 * 60 * 1000) text (unreadCount =? 0) ] in
  Conversation.mk patientId patientId (Booking.patientName booking)
    (or_else (Booking.patientEmail booking)
       (or_else (match patientUser with
                 | Some u => RegisteredUser.email u
                 | None => None
                 end) "patient@example.com"))
    lastMessage
    (now (k + 4)%nat - 2 * 60 * 60 * 1000)
    unreadCount status messages.

(** Lines 57-128 over an array of user records. *)
Definition newConversation (now : Clock) (k : nat) (user : option User.t)
    (registeredUsers : list RegisteredUser.t) (therapistBookings : list Booking.t)
    (booking : Booking.t) : Conversation.t :=
  conversationFor now k user
    (find (fun u => String.eqb (RegisteredUser.id u) (Booking.patientId booking))
          registeredUsers)
    therapistBookings booking.

(** [Map]: keys in insertion order. *)
Definition JsMap (V : Type) := list (string * V).

Definition Map_has {V} (m : JsMap V) (key : string) : bool :=
  existsb (fun kv => String.eqb (fst kv) key) m.

Fixpoint Map_set {V} (m : JsMap V) (key : string) (v : V) : JsMap V :=
  match m with
  | [] => [(key, v)]
  | (k', v') :: m' =>
      if String.eqb k' key then (k', v) :: m' else (k', v') :: Map_set m' key v
  end.

Definition Map_values {V} (m : JsMap V) : list V := map snd m.

(** The [forEach] of lines 55-132, threading the map and the number of
    clock reads. *)
Fixpoint forEachBooking (now : Clock) (user : option User.t)
    (registeredUsers : list RegisteredUser.t) (therapistBookings : list Booking.t)
    (todo : list Booking.t) (patientMap : JsMap Conversation.t) (k : nat)
  : JsMap Conversation.t * nat :=
  match todo with
  | [] => (patientMap, k)
  | booking :: rest =>
      if Map_has patientMap (Booking.patientId booking) then
        forEachBooking now user registeredUsers therapistBookings rest patientMap k
      else
        forEachBooking now user registeredUsers therapistBookings rest
          (Map_set patientMap (Booking.patientId booking)
             (newConversation now k user registeredUsers therapistBookings booking))
          (k + 5)%nat
  end.

(** Lines 47-134 over arrays of records: the new value of [conversations]
    and the number of clock reads afterwards. *)
Definition deriveConversations (now : Clock) (k : nat) (user : option User.t)
    (allBookings : list Booking.t) (registeredUsers : list RegisteredUser.t)
  : list Conversation.t * nat :=
  let therapistBookings := filter (isTherapistBooking user) allBookings in
  let (patientMap, k') :=
    forEachBooking now user registeredUsers therapistBookings therapistBookings [] k in
  (Map_values patientMap, k').

(* ------------------------------------------------------------------ *)
(** ** Component state and the handlers of the render body *)

(** The four [useState] cells. *)
Record PageState := mkPage {
  selectedConversation : option string;
  messageText : string;
  searchTerm : string;
  conversations : list Conversation.t
}.

Definition initialPage : PageState := mkPage None "" "" [].

(** How a call ends: it returns a value or throws. *)
Inductive JsError :=
| SyntaxError
| TypeError
| ReferenceError (name : string).

Inductive Completion (A : Type) :=
| Returned (a : A)
| Thrown (e : JsError).
Arguments Returned {A} a.
Arguments Thrown {A} e.

(** Line 177. *)
Definition selectedConv (s : PageState) : option Conversation.t :=
  find (fun c => strict_eq (Some (Conversation.id c)) (selectedConversation s))
       (conversations s).

(** Lines 179-184.  The handler has no [throw] and returns nothing:
    both paths complete with [undefined]. *)
Definition handleSendMessage (s : PageState) : PageState * Completion unit :=
  if (negb (truthy (trim (messageText s)))
      || negb (match selectedConversation s with
               | Some id => truthy id
               | None => false
               end))%bool
  then (s, Returned tt)
  else (mkPage (selectedConversation s) "" (searchTerm s) (conversations s),
        Returned tt).

(** Lines 186-189.  [toLowerCase] is [String.prototype.toLowerCase] of the
    engine. *)
Definition matchesSearch (toLowerCase : string -> string)
    (term : string) (conv : Conversation.t) : bool :=
  (includes (toLowerCase (Conversation.patientName conv)) (toLowerCase term)
   || includes (toLowerCase (Conversation.lastMessage conv)) (toLowerCase term))%bool.

Definition filteredConversations (toLowerCase : string -> string) (s : PageState)
  : list Conversation.t :=
  filter (matchesSearch toLowerCase (searchTerm s)) (conversations s).

(* ------------------------------------------------------------------ *)
(** ** The rest of the render body *)

(** [String(n)] of an integer, as a template literal prints it. *)
Definition Number_toString (n : Z) : string :=
  NilZero.string_of_int (Z.to_int n).

(** The run-time value of a status. *)
Definition Presence_toString (p : Presence) : string :=
  match p with
  | online => "online"
  | offline => "offline"
  | away => "away"
  end.

(** Lines 157-164. *)
Definition getStatusColor (status : string) : string :=
  if String.eqb status "online" then "bg-green-500"
  else if String.eqb status "away" then "bg-yellow-500"
  else if String.eqb status "offline" then "bg-gray-400"
  else "bg-gray-400".

(** Lines 166-175; [now] is the value of the clock read of line 167.  The
    subtraction is exact where the two time values are no more than 2^53
    apart, and there [Math.floor] of the rounded quotient is the floor
    division of the integers (the quotient is below 2^32 and a fraction of
    it is at least 1/3600000 away from the next integer, more than the
    rounding error); only this range is covered. *)
Definition formatTime (now : Z) (date : Z) : string :=
  let diff := now - date in
  let hours := diff / (1000 * 60 * 60) in
  let days := hours / 24 in
  if 0 <? days then (Number_toString days ++ "d ago")%string
  else if 0 <? hours then (Number_toString hours ++ "h ago")%string
  else "Just now".

(** The setters of lines 36-38 as the handlers of the view call them. *)
Definition setSelectedConversation (id : option string) (s : PageState) : PageState :=
  mkPage id (messageText s) (searchTerm s) (conversations s).

Definition setMessageText (value : string) (s : PageState) : PageState :=
  mkPage (selectedConversation s) value (searchTerm s) (conversations s).

Definition setSearchTerm (value : string) (s : PageState) : PageState :=
  mkPage (selectedConversation s) (messageText s) value (conversations s).

(** Line 230: the click on an entry of the list. *)
Definition onConversationClick (conversation : Conversation.t) (s : PageState)
  : PageState :=
  setSelectedConversation (Some (Conversation.id conversation)) s.

(** Line 264: the unread badge is rendered. *)
Definition showsUnreadBadge (conversation : Conversation.t) : bool :=
  0 <? Conversation.unreadCount conversation.

(** Lines 338-355: the message is laid out as one of the user's own. *)
Definition isOwnMessage (user : option User.t) (message : Message.t) : bool :=
  strict_eq (Some (Message.senderId message)) (option_map User.id user).

(* ------------------------------------------------------------------ *)
(** ** The effect: store reads, timer and listeners *)

(** What [JSON.parse(localStorage.getItem(key) || '[]')] meets under a key:
    nothing (or the empty string), text that is not JSON, an array of
    records, JSON that is not an array (an object, a number, a string, a
    boolean, null), or an array in which [null] stands for some records. *)
Inductive StoreItem (A : Type) :=
| Missing
| Unparsable
| Stored (records : list A)
| NotArray
| WithNulls (elements : list (option A)).
Arguments Missing {A}.
Arguments Unparsable {A}.
Arguments Stored {A} records.
Arguments NotArray {A}.
Arguments WithNulls {A} elements.

(** What [JSON.parse] returns: a value that is no array, or an array whose
    elements are records or [null]. *)
Inductive Parsed (A : Type) :=
| NoArray
| ArrayOf (elements : list (option A)).
Arguments NoArray {A}.
Arguments ArrayOf {A} elements.

Record World := mkWorld {
  page : PageState;
  mindcare_bookings : StoreItem Booking.t;
  mindcare_registered_users : StoreItem RegisteredUser.t;
  reads : nat;                 (* clock reads made so far *)
  interval : bool;             (* the 10 s interval is registered *)
  listeners : list string;     (* event types [handleStorageChange] listens to *)
  hasCleanup : bool;           (* React holds the teardown returned by the effect *)
  uncaught : list JsError      (* exceptions that left a callback, as the host saw them *)
}.

Definition with_page (p : PageState) (w : World) : World :=
  mkWorld p (mindcare_bookings w) (mindcare_registered_users w) (reads w)
          (interval w) (listeners w) (hasCleanup w) (uncaught w).
Definition with_reads (k : nat) (w : World) : World :=
  mkWorld (page w) (mindcare_bookings w) (mindcare_registered_users w) k
          (interval w) (listeners w) (hasCleanup w) (uncaught w).
Definition with_interval (b : bool) (w : World) : World :=
  mkWorld (page w) (mindcare_bookings w) (mindcare_registered_users w) (reads w)
          b (listeners w) (hasCleanup w) (uncaught w).
Definition with_listeners (l : list string) (w : World) : World :=
  mkWorld (page w) (mindcare_bookings w) (mindcare_registered_users w) (reads w)
          (interval w) l (hasCleanup w) (uncaught w).
Definition with_hasCleanup (b : bool) (w : World) : World :=
  mkWorld (page w) (mindcare_bookings w) (mindcare_registered_users w) (reads w)
          (interval w) (listeners w) b (uncaught w).
Definition with_uncaught (l : list JsError) (w : World) : World :=
  mkWorld (page w) (mindcare_bookings w) (mindcare_registered_users w) (reads w)
          (interval w) (listeners w) (hasCleanup w) l.

(** Computations that read and write the world and may throw; what was
    written before a throw stays written. *)
Definition M (A : Type) : Type := World -> Completion A * World.

Definition ret {A} (a : A) : M A := fun w => (Returned a, w).

Definition throw {A} (e : JsError) : M A := fun w => (Thrown e, w).

Definition bind {A B} (m : M A) (f : A -> M B) : M B :=
  fun w =>
    match m w with
    | (Returned a, w') => f a w'
    | (Thrown e, w') => (Thrown e, w')
    end.

Declare Scope js_scope.
Delimit Scope js_scope with js.
Notation "x <- m ;; k" := (bind m (fun x => k))
  (at level 61, m at next level, right associativity) : js_scope.
Notation "m ;; k" := (bind m (fun _ => k))
  (at level 61, right associativity) : js_scope.

Definition JSON_parse {A} (item : StoreItem A) : M (Parsed A) :=
  match item with
  | Missing => ret (ArrayOf [])
  | Unparsable => throw SyntaxError
  | Stored records => ret (ArrayOf (map Some records))
  | NotArray => ret NoArray
  | WithNulls elements => ret (ArrayOf elements)
  end.

(** Line 48: [allBookings.filter(...)].  A value without [filter] cannot be
    called, and the test reads a property of every element: both are a
    [TypeError], on a value that is no array and on a [null] element. *)
Fixpoint filterElements (user : option User.t) (elements : list (option Booking.t))
  : Completion (list Booking.t) :=
  match elements with
  | [] => Returned []
  | None :: _ => Thrown TypeError
  | Some booking :: rest =>
      match filterElements user rest with
      | Returned kept =>
          Returned (if isTherapistBooking user booking then booking :: kept else kept)
      | Thrown e => Thrown e
      end
  end.

Definition Array_filter (user : option User.t) (allBookings : Parsed Booking.t)
  : M (list Booking.t) :=
  match allBookings with
  | NoArray => throw TypeError
  | ArrayOf elements => fun w => (filterElements user elements, w)
  end.

(** Line 57: [registeredUsers.find(...)] stops at the first user with the
    identifier; a [null] element met before is a [TypeError], and so is a
    value that is no array. *)
Fixpoint findElement (patientId : string) (elements : list (option RegisteredUser.t))
  : Completion (option RegisteredUser.t) :=
  match elements with
  | [] => Returned None
  | None :: _ => Thrown TypeError
  | Some u :: rest =>
      if String.eqb (RegisteredUser.id u) patientId then Returned (Some u)
      else findElement patientId rest
  end.

Definition Array_find (registeredUsers : Parsed RegisteredUser.t) (patientId : string)
  : M (option RegisteredUser.t) :=
  match registeredUsers with
  | NoArray => throw TypeError
  | ArrayOf elements => fun w => (findElement patientId elements, w)
  end.

Definition setConversations (convs : list Conversation.t) : M unit :=
  fun w =>
    (Returned tt,
     with_page (mkPage (selectedConversation (page w)) (messageText (page w))
                       (searchTerm (page w)) convs) w).

Section Effect.

(** The clock and the identity the effect closes over. *)
Variable now : Clock.
Variable user : option User.t.

(** Lines 55-132 in the world: line 57 looks the user up for every booking,
    and each new conversation reads the clock five times. *)
Fixpoint forEachStored (registeredUsers : Parsed RegisteredUser.t)
    (therapistBookings todo : list Booking.t) (patientMap : JsMap Conversation.t)
  : M (JsMap Conversation.t) :=
  match todo with
  | [] => ret patientMap
  | booking :: rest =>
      (patientUser <- Array_find registeredUsers (Booking.patientId booking) ;;
       if Map_has patientMap (Booking.patientId booking) then
         forEachStored registeredUsers therapistBookings rest patientMap
       else
         conversation <-
           (fun w =>
              (Returned (conversationFor now (reads w) user patientUser
                           therapistBookings booking),
               with_reads (reads w + 5) w)) ;;
         forEachStored registeredUsers therapistBookings rest
           (Map_set patientMap (Booking.patientId booking) conversation))%js
  end.

(** Lines 43-135. *)
Definition loadConversations : M unit :=
  (allBookings <- (fun w => JSON_parse (mindcare_bookings w) w) ;;
   registeredUsers <- (fun w => JSON_parse (mindcare_registered_users w) w) ;;
   therapistBookings <- Array_filter user allBookings ;;
   patientMap <-
     forEachStored registeredUsers therapistBookings therapistBookings [] ;;
   setConversations (Map_values patientMap))%js.

Definition setInterval : M unit :=
  fun w => (Returned tt, with_interval true w).
Definition clearInterval : M unit :=
  fun w => (Returned tt, with_interval false w).
Definition addEventListener (type : string) : M unit :=
  fun w => (Returned tt, with_listeners (type :: listeners w) w).
Definition removeEventListener (type : string) : M unit :=
  fun w =>
    (Returned tt,
     with_listeners (filter (fun t => negb (String.eqb t type)) (listeners w)) w).

(** Lines 137-154: the body of the effect, then the teardown it returns. *)
Definition effect : M unit :=
  (loadConversations ;;
   setInterval ;;
   addEventListener "storage" ;;
   addEventListener "mindcare-data-updated" ;;
   (fun w => (Returned tt, with_hasCleanup true w)))%js.

Definition cleanup : M unit :=
  (clearInterval ;;
   removeEventListener "storage" ;;
   removeEventListener "mindcare-data-updated" ;;
   (fun w => (Returned tt, with_hasCleanup false w)))%js.

(** The host calls a timer or event callback; an exception that leaves
    it is reported by the host and the registrations stay. *)
Definition runCallback (callback : M unit) (w : World) : World :=
  match callback w with
  | (Returned _, w') => w'
  | (Thrown e, w') => with_uncaught (e :: uncaught w') w'
  end.

(** React runs the teardown of the previous run, when there is one, and
    then the effect (on mount and when [user] has changed). *)
Definition runEffect : M unit :=
  fun w =>
    if hasCleanup w then (cleanup ;; effect)%js w else effect w.

Definition unmount (w : World) : World :=
  if hasCleanup w then snd (cleanup w) else w.

(** *** Rendering: the identifiers the body resolves before the effect *)

(** Bindings of the module: the imports of lines 1-9 and the component. *)
Definition moduleScope : list string :=
  ["React"; "useState"; "motion";
   "MessageSquare"; "Send"; "Search"; "User"; "Phone"; "Video";
   "Paperclip"; "Smile"; "MoreVertical"; "Archive"; "Star";
   "Clock"; "CheckCircle"; "AlertCircle";
   "useAuth"; "useTheme"; "MessagesPage"]%string.

(** Bindings declared in the body of [MessagesPage]. *)
Definition functionScope : list string :=
  ["user"; "theme"; "selectedConversation"; "setSelectedConversation";
   "messageText"; "setMessageText"; "searchTerm"; "setSearchTerm";
   "conversations"; "setConversations"; "getStatusColor"; "formatTime";
   "selectedConv"; "handleSendMessage"; "filteredConversations"]%string.

(** Evaluating an identifier: a name bound nowhere is a [ReferenceError]. *)
Definition resolve (globals : list string) (x : string) : M unit :=
  if existsb (String.eqb x) (functionScope ++ moduleScope ++ globals)
  then ret tt else throw (ReferenceError x).

(** [useState(init)] on the first render: the hook is looked up and the
    cell takes its initial value. *)
Definition useState (globals : list string) (init : PageState -> PageState) : M unit :=
  (resolve globals "useState" ;;
   (fun w => (Returned tt, with_page (init (page w)) w)))%js.

(** Lines 34-41 on the first render: the hooks are looked up and called
    in the order of the source text. *)
Definition render (globals : list string) : M unit :=
  (resolve globals "useAuth" ;;
   resolve globals "useTheme" ;;
   useState globals (fun p => mkPage None (messageText p) (searchTerm p) (conversations p)) ;;
   useState globals (fun p => mkPage (selectedConversation p) "" (searchTerm p) (conversations p)) ;;
   useState globals (fun p => mkPage (selectedConversation p) (messageText p) "" (conversations p)) ;;
   useState globals (fun p => mkPage (selectedConversation p) (messageText p) (searchTerm p) []) ;;
   resolve globals "useEffect")%js.

(** Mounting: the effect runs once the render has returned. *)
Definition mount (globals : list string) : M unit :=
  (render globals ;; runEffect)%js.

(** Lines 226-256: one entry per listed conversation; [formatTime] reads
    the clock for each and gives the label of the entry. *)
Fixpoint renderEntries (listed : list Conversation.t) : M (list string) :=
  match listed with
  | [] => ret []
  | conversation :: rest =>
      (label <-
         (fun w =>
            (Returned (formatTime (now (reads w))
                         (Conversation.lastMessageTime conversation)),
             with_reads (S (reads w)) w)) ;;
       labels <- renderEntries rest ;;
       ret (label :: labels))%js
  end.

(** A later render: the hooks are looked up again, the cells keep their
    values, and the list is laid out. *)
Definition rerender (toLowerCase : string -> string) (globals : list string)
  : M (list string) :=
  (resolve globals "useAuth" ;;
   resolve globals "useTheme" ;;
   resolve globals "useState" ;;
   resolve globals "useState" ;;
   resolve globals "useState" ;;
   resolve globals "useState" ;;
   resolve globals "useEffect" ;;
   (fun w => renderEntries (filteredConversations toLowerCase (page w)) w))%js.

(** What starts a refresh. *)
Inductive Trigger :=
| TimerElapsed
| Notified (type : string)
| IdentityChanged.

(** From the trigger to the return of the callback or of the effect.  A
    new identity reaches the component through a render, after which React
    runs the teardown and the effect. *)
Definition refresh (toLowerCase : string -> string) (globals : list string)
    (t : Trigger) (w : World) : World :=
  match t with
  | TimerElapsed =>
      if interval w then runCallback loadConversations w else w
  | Notified type =>
      if existsb (String.eqb type) (listeners w)
      then runCallback loadConversations w else w
  | IdentityChanged =>
      runCallback (rerender toLowerCase globals ;; runEffect)%js w
  end.

End Effect.

(* ================================================================== *)
(** * Vocabulary of the properties *)

Definition hour : Z := 1000 * 60 * 60.

(** *** Text *)

(** The text is made of ASCII characters only. *)
Definition isAscii (s : string) : Prop :=
  forall c, In c (list_ascii_of_string s) -> (nat_of_ascii c < 128)%nat.

(** What the properties of the search assume of the engine's
    [toLowerCase]: on ASCII text it replaces A-Z by a-z and changes nothing
    else. *)
Definition lowersAscii (toLowerCase : string -> string) : Prop :=
  forall s, isAscii s -> toLowerCase s = asciiLowerCase s.

(** Two bytes are the same character up to case: they are equal, or one is
    a capital letter A-Z and the other the small letter 32 places on. *)
Definition sameLetter (a b : ascii) : Prop :=
  let m := nat_of_ascii a in
  let n := nat_of_ascii b in
  m = n \/
  ((65 <= m)%nat /\ (m <= 90)%nat /\ n = (m + 32)%nat) \/
  ((65 <= n)%nat /\ (n <= 90)%nat /\ m = (n + 32)%nat).

Fixpoint equalIgnoringCase (s t : string) : Prop :=
  match s, t with
  | EmptyString, EmptyString => True
  | String a s', String b t' => sameLetter a b /\ equalIgnoringCase s' t'
  | _, _ => False
  end.




(** UTF-8 of a code point and of a sequence of code points. *)
Definition utf8 (c : N) : string :=
  if (c <? 128)%N then String (ascii_of_N c) ""
  else if (c <? 2048)%N then
    String (ascii_of_N (192 + c / 64)) (String (ascii_of_N (128 + c mod 64)) "")
  else if (c <? 65536)%N then
    String (ascii_of_N (224 + c / 4096))
      (String (ascii_of_N (128 + (c / 64) mod 64))
         (String (ascii_of_N (128 + c mod 64)) ""))
  else
    String (ascii_of_N (240 + c / 262144))
      (String (ascii_of_N (128 + (c / 4096) mod 64))
         (String (ascii_of_N (128 + (c / 64) mod 64))
            (String (ascii_of_N (128 + c mod 64)) ""))).

Fixpoint utf8String (codePoints : list N) : string :=
  match codePoints with
  | [] => ""
  | c :: rest => (utf8 c ++ utf8String rest)%string
  end.

(** The white space and the line terminators of ECMAScript: TAB, LF, VT,
    FF, CR, SP, NBSP, U+1680, U+2000 to U+200A, LS, PS, U+202F, U+205F,
    U+3000 and the byte order mark. *)
Definition whiteSpaceCodePoints : list N :=
  [9; 10; 11; 12; 13; 32; 160; 5760;
   8192; 8193; 8194; 8195; 8196; 8197; 8198; 8199; 8200; 8201; 8202;
   8232; 8233; 8239; 8287; 12288; 65279]%N.

(** The text is empty or made of white space only. *)
Definition whiteSpaceOnly (s : string) : Prop :=
  exists codePoints,
    (forall c, In c codePoints -> In c whiteSpaceCodePoints) /\
    s = utf8String codePoints.

(** White space as [trim] meets it: a run of the byte sequences it strips. *)
Inductive whiteSpaceRun : string -> Prop :=
| run_end : whiteSpaceRun ""
| run_1 (a : ascii) (s : string) :
    isWhiteSpace a = true -> whiteSpaceRun s -> whiteSpaceRun (String a s)
| run_2 (a b : ascii) (s : string) :
    isWhiteSpace2 a b = true -> whiteSpaceRun s ->
    whiteSpaceRun (String a (String b s))
| run_3 (a b c : ascii) (s : string) :
    isWhiteSpace3 a b c = true -> whiteSpaceRun s ->
    whiteSpaceRun (String a (String b (String c s))).

(** *** Bookings *)

(** The reference time of a booking: its creation time when it has one,
    else its appointment date. *)
Inductive ReferenceTime (b : Booking.t) : Z -> Prop :=
| created (t : Z) :
    Booking.createdAt b = DateAt t -> ReferenceTime b t
| appointed (t : Z) :
    Booking.createdAt b = NoDate -> Booking.date b = DateAt t -> ReferenceTime b t.

(** Order of two bookings by reference time. *)
Definition earlier (a b : Booking.t) : Prop :=
  exists ta tb, ReferenceTime a ta /\ ReferenceTime b tb /\ ta < tb.

Definition notLater (a b : Booking.t) : Prop :=
  exists ta tb, ReferenceTime a ta /\ ReferenceTime b tb /\ ta <= tb.

(** [b] is the latest booking of [group]: every booking in front of it in
    the collection is strictly earlier and none behind it is later, so among
    bookings of equal reference time the first of the collection wins. *)
Definition isLatestOf (group : list Booking.t) (b : Booking.t) : Prop :=
  exists l1 l2,
    group = l1 ++ b :: l2 /\
    Forall (fun x => earlier x b) l1 /\
    Forall (fun x => notLater x b) l2.

(** The canned last message and the unread count that go with the status of
    a booking. *)
Inductive Canned : string -> string -> Z -> Prop :=
| canned_completed :
    Canned "completed" "Thank you for the session today. I feel much better." 0
| canned_pending :
    Canned "pending_confirmation"
           "I just booked an appointment. Can you confirm the time?" 1
| canned_confirmed :
    Canned "confirmed" "See you at our scheduled appointment." 0
| canned_other (status : string) :
    status <> "completed"%string -> status <> "pending_confirmation"%string ->
    status <> "confirmed"%string ->
    Canned status "Looking forward to our session." 0.

(** [b] is the first booking of [todo] made by patient [p]. *)
Definition firstOf (todo : list Booking.t) (p : string) (b : Booking.t) : Prop :=
  exists l1 l2,
    todo = l1 ++ b :: l2 /\ Booking.patientId b = p /\
    forall x, In x l1 -> Booking.patientId x <> p.

(** The bookings of the current therapist made by patient [p], in the order
    of the collection. *)
Definition patientGroup (user : option User.t) (allBookings : list Booking.t)
    (p : string) : list Booking.t :=
  filter (fun b => String.eqb (Booking.patientId b) p)
         (filter (isTherapistBooking user) allBookings).

(** [m] is a message of [ms] that no message of [ms] is later than. *)
Definition chronologicallyLast (ms : list Message.t) (m : Message.t) : Prop :=
  In m ms /\ forall m', In m' ms -> Message.timestamp m' <= Message.timestamp m.

(** The invariant of the specification: the last-message fields are the
    content and the time stamp of the chronologically last message. *)
Definition mirrorsLastMessage (conv : Conversation.t) : Prop :=
  exists m,
    chronologicallyLast (Conversation.messages conv) m /\
    Conversation.lastMessage conv = Message.content m /\
    Conversation.lastMessageTime conv = Message.timestamp m.

(** The claim of the specification for a send with text: the selected
    conversation gains one message from the identity, stamped [nowv] and
    read, and its last-message fields follow. *)
Definition sendAppendsMessage (user : option User.t) (nowv : Z) (s : PageState) : Prop :=
  forall conv,
    selectedConv s = Some conv ->
    ~ whiteSpaceOnly (messageText s) ->
    exists conv' m,
      selectedConv (fst (handleSendMessage s)) = Some conv' /\
      Conversation.messages conv' = Conversation.messages conv ++ [m] /\
      Message.senderId m = or_else (option_map User.id user) "therapist" /\
      Message.timestamp m = nowv /\
      Message.read m = true /\
      Conversation.lastMessage conv' = Message.content m /\
      Conversation.lastMessageTime conv' = Message.timestamp m.

(** The claim of the specification for a blank send: the call fails with an
    error and the conversations stay as they were. *)
Definition sendRejectsBlank (s : PageState) : Prop :=
  whiteSpaceOnly (messageText s) ->
  (exists e, snd (handleSendMessage s) = Thrown e) /\
  conversations (fst (handleSendMessage s)) = conversations s.

(** *** The store *)

(** The item parses to a value the derivation cannot use: it is no array,
    or [null] stands for one of its records. *)
Definition malformed {A} (item : StoreItem A) : Prop :=
  item = NotArray \/ exists elements, item = WithNulls elements /\ In None elements.

(** The item is an array of [records] (a missing item counts as the empty
    array). *)
Definition holds {A} (item : StoreItem A) (records : list A) : Prop :=
  (item = Missing /\ records = []) \/ item = Stored records \/
  item = WithNulls (map Some records).

(** The look-up of patient [p] in the users item throws: the item is no
    array, or [null] comes before any user with that identifier. *)
Definition lookupThrows (item : StoreItem RegisteredUser.t) (p : string) : Prop :=
  item = NotArray \/
  exists front rest,
    item = WithNulls (map Some front ++ None :: rest) /\
    forall u, In u front -> RegisteredUser.id u <> p.

(** The read of the store fails with [e]: an item is not JSON (lines 44 and
    45, in this order), or the parsed bookings cannot be filtered (line 48),
    or the look-up of a matching booking's patient throws (line 57). *)
Inductive ReadFails (user : option User.t) (w : World) : JsError -> Prop :=
| bookings_unparsable :
    mindcare_bookings w = Unparsable -> ReadFails user w SyntaxError
| users_unparsable :
    mindcare_bookings w <> Unparsable ->
    mindcare_registered_users w = Unparsable -> ReadFails user w SyntaxError
| bookings_malformed :
    mindcare_registered_users w <> Unparsable ->
    malformed (mindcare_bookings w) -> ReadFails user w TypeError
| users_malformed (records : list Booking.t) (b : Booking.t) :
    holds (mindcare_bookings w) records ->
    In b records -> isTherapistBooking user b = true ->
    lookupThrows (mindcare_registered_users w) (Booking.patientId b) ->
    ReadFails user w TypeError.

(** The claim of the specification for a refresh whose read fails or yields
    malformed data, clause by clause: the conversations are kept, an
    interval that was registered is still registered, and the failure is a
    warning only, so that no exception leaves the callback. *)
Definition yieldsMalformedData (w : World) : Prop :=
  mindcare_bookings w = Unparsable \/ mindcare_registered_users w = Unparsable \/
  malformed (mindcare_bookings w) \/ malformed (mindcare_registered_users w).

Definition collectionRetained (w w' : World) : Prop :=
  conversations (page w') = conversations (page w).

Definition timerContinues (w w' : World) : Prop :=
  interval w = true -> interval w' = true.

Definition reportedAsWarningOnly (w w' : World) : Prop :=
  uncaught w' = uncaught w.

Definition failureContained (now : Clock) (user : option User.t)
    (toLowerCase : string -> string) (globals : list string)
    (t : Trigger) (w : World) : Prop :=
  yieldsMalformedData w ->
  collectionRetained w (refresh now user toLowerCase globals t w) /\
  timerContinues w (refresh now user toLowerCase globals t w) /\
  reportedAsWarningOnly w (refresh now user toLowerCase globals t w).

(** The world before the component is mounted: no state, nothing read,
    nothing registered. *)
Definition unmounted (bookings : StoreItem Booking.t)
    (registered : StoreItem RegisteredUser.t) : World :=
  mkWorld initialPage bookings registered 0 false [] false [].

(* ------------------------------------------------------------------ *)
(** ** Sample data *)

Module Sample.

Definition therapist : option User.t := Some (User.mk "t1" "Dr. A").

(** Two bookings of patient [p1] (the later one under another name and
    matched by identifier only), one booking of another therapist and one
    booking of patient [p3]. *)
Definition ann_first : Booking.t :=
  Booking.mk "p1" "Ann" (Some "ann@example.org"%string) (Some "Dr. A"%string) None
             "confirmed" (DateAt 1000) NoDate.
Definition ann_later : Booking.t :=
  Booking.mk "p1" "Ann B." (Some "ann.b@example.org"%string) None (Some "t1"%string)
             "pending_confirmation" NoDate (DateAt 5000).
Definition bob_elsewhere : Booking.t :=
  Booking.mk "p2" "Bob" None (Some "Dr. Z"%string) (Some "t9"%string)
             "completed" (DateAt 2000) NoDate.
Definition cy : Booking.t :=
  Booking.mk "p3" "Cy" None (Some "Dr. A"%string) (Some "t1"%string)
             "completed" (DateAt 3000) (DateAt 9000).

Definition bookings : list Booking.t := [ann_first; bob_elsewhere; ann_later; cy].

Definition users : list RegisteredUser.t :=
  [RegisteredUser.mk "p3" (Some "cy@example.org"%string)].

(** A clock that advances by one millisecond at every read. *)
Definition ticking : Clock := fun n => 100000000 + Z.of_nat n.

(** A clock that stands still. *)
Definition frozen : Clock := fun _ => 100000000.

Definition derived : list Conversation.t :=
  fst (deriveConversations ticking 0 therapist bookings users).

(** The thread of patient [p1], built from the first booking of [p1] at the
    first clock read. *)
Definition ann_thread : Conversation.t :=
  newConversation ticking 0 therapist users
    (filter (isTherapistBooking therapist) bookings) ann_first.

(** A page with the thread of [p1] open and a draft typed. *)
Definition draft_page : PageState := mkPage (Some "p1"%string) " hello " "" derived.

(** The same page with a draft of spaces only. *)
Definition blank_page : PageState := mkPage (Some "p1"%string) "   " "" derived.

(** A mounted page whose bookings item has been overwritten with text
    that is not JSON. *)
Definition running_unparsable : World :=
  mkWorld (mkPage None "" "" derived) Unparsable (Stored users) 10 true
          ["mindcare-data-updated"; "storage"]%string true [].

Definition browser_globals : list string :=
  ["window"; "localStorage"; "JSON"; "Date"; "Map"; "Array";
   "setInterval"; "clearInterval"]%string.

(** Globals among which [useEffect] is bound, as the effect presupposes. *)
Definition globals_with_hook : list string := "useEffect"%string :: browser_globals.

(** The text is made of Greek capital letters (U+0391 to U+03A9, two bytes
    each). *)
Fixpoint greekCapitals (s : string) : bool :=
  match s with
  | EmptyString => true
  | String a (String b rest) =>
      (isByte a 206 && Nat.leb 145 (nat_of_ascii b) && Nat.leb (nat_of_ascii b) 169
       && negb (isByte b 162) && greekCapitals rest)%bool
  | _ => false
  end.

(** [toLowerCase] on Greek capital letters: each letter 32 code points on,
    and a sigma that ends the word and does not begin it becomes the final
    sigma (U+03C2). *)
Fixpoint lowerGreek (first : bool) (s : string) : string :=
  match s with
  | String a (String b rest) =>
      let n := nat_of_ascii b in
      let small :=
        if Nat.eqb n 163 then
          match rest with
          | EmptyString =>
              if first then String (ascii_of_nat 207) (String (ascii_of_nat 131) "")
              else String (ascii_of_nat 207) (String (ascii_of_nat 130) "")
          | _ => String (ascii_of_nat 207) (String (ascii_of_nat 131) "")
          end
        else if Nat.ltb n 160 then
          String (ascii_of_nat 206) (String (ascii_of_nat (n + 32)) "")
        else String (ascii_of_nat 207) (String (ascii_of_nat (n - 32)) "") in
      (small ++ lowerGreek false rest)%string
  | _ => s
  end.

(** The values of the engine's [toLowerCase] on ASCII text and on text of
    Greek capital letters; other text, which no sample uses, is treated
    like ASCII text. *)
Definition lowerCase (s : string) : string :=
  if greekCapitals s then lowerGreek true s else asciiLowerCase s.


(** A mounted page whose users item holds an object and whose bookings item
    is missing. *)
Definition running_malformed : World :=
  mkWorld (mkPage None "" "" derived) Missing NotArray 10 true
          ["mindcare-data-updated"; "storage"]%string true [].

(** A draft of a space, a no-break space and an ideographic space. *)
Definition wide_blank_page : PageState :=
  mkPage (Some "p1"%string) (utf8String [32; 160; 12288]%N) "" derived.

(** Scenario data: one confirmed booking made an hour before the clock
    value, one pending booking made thirty hours before it, and two
    bookings of one patient with the same creation time. *)
Definition confirmed_hour_ago : Booking.t :=
  Booking.mk "P1" "Pat" None (Some "Dr. A"%string) None
             "confirmed" (DateAt (100000000 - 1 * 3600000)) NoDate.
Definition pending_long_ago : Booking.t :=
  Booking.mk "P2" "Quinn" None (Some "Dr. A"%string) None
             "pending_confirmation" (DateAt (100000000 - 30 * 3600000)) NoDate.
Definition tie_first : Booking.t :=
  Booking.mk "P4" "Ray" None None (Some "t1"%string)
             "completed" (DateAt 7000) NoDate.
Definition tie_second : Booking.t :=
  Booking.mk "P4" "Ray" None None (Some "t1"%string)
             "pending_confirmation" NoDate (DateAt 7000).

End Sample.

(* ------------------------------------------------------------------ *)
(** ** Further vocabulary *)

(** The records a store item parses to when it parses. *)
Definition recordsOf {A} (item : StoreItem A) : list A :=
  match item with
  | Stored records => records
  | _ => []
  end.

(** The item is missing or an array of records. *)
Definition arrayOfRecords {A} (item : StoreItem A) : Prop :=
  item = Missing \/ exists records, item = Stored records.

(** Both store items are missing or arrays of records. *)
Definition storeReadable (w : World) : Prop :=
  arrayOfRecords (mindcare_bookings w) /\ arrayOfRecords (mindcare_registered_users w).

(** A binding for [useEffect] is in scope. *)
Definition hookResolves (globals : list string) : Prop :=
  In "useEffect"%string globals.

(** The second world is the first but for the number of clock reads. *)
Definition sameButReads (w w' : World) : Prop :=
  page w' = page w /\
  mindcare_bookings w' = mindcare_bookings w /\
  mindcare_registered_users w' = mindcare_registered_users w /\
  interval w' = interval w /\ listeners w' = listeners w /\
  hasCleanup w' = hasCleanup w /\ uncaught w' = uncaught w.

(** The look-up of patient [p] in the parsed users throws. *)
Definition findThrows (registeredUsers : Parsed RegisteredUser.t) (p : string) : Prop :=
  match registeredUsers with
  | NoArray => True
  | ArrayOf elements => findElement p elements = Thrown TypeError
  end.

(** The effect is set up: the interval runs, React holds the teardown and
    each of the two events has one listener. *)
Definition registered (w : World) : Prop :=
  interval w = true /\ hasCleanup w = true /\
  listeners w = ["mindcare-data-updated"; "storage"]%string.

(** Nothing of the effect is set up. *)
Definition released (w : World) : Prop :=
  interval w = false /\ hasCleanup w = false /\ listeners w = [].

(** What happens to the mounted page: a trigger fires, or React renders
    the component again after a change of state. *)
Inductive Activity :=
| Triggered (t : Trigger)
| Rendered.

Definition perform (now : Clock) (user : option User.t)
    (toLowerCase : string -> string) (globals : list string)
    (a : Activity) (w : World) : World :=
  match a with
  | Triggered t => refresh now user toLowerCase globals t w
  | Rendered => runCallback (bind (rerender now toLowerCase globals) (fun _ => ret tt)) w
  end.

Definition performAll (now : Clock) (user : option User.t)
    (toLowerCase : string -> string) (globals : list string)
    (activities : list Activity) (w : World) : World :=
  fold_left (fun w' a => perform now user toLowerCase globals a w') activities w.

(** Position of the first booking of patient [p] in [l]. *)
Fixpoint firstIndex (p : string) (l : list Booking.t) : nat :=
  match l with
  | [] => 0%nat
  | b :: l' => if String.eqb (Booking.patientId b) p then 0%nat else S (firstIndex p l')
  end.

(** A message and a conversation without the fields that come from the
    clock (time stamps and presence). *)
Definition messageWithoutTime (m : Message.t)
  : string * string * string * string * MessageType * bool :=
  (Message.id m, Message.senderId m, Message.senderName m, Message.content m,
   Message.type m, Message.read m).

Definition withoutClock (c : Conversation.t) :=
  (Conversation.id c, Conversation.patientId c, Conversation.patientName c,
   Conversation.patientEmail c, Conversation.lastMessage c,
   Conversation.unreadCount c, map messageWithoutTime (Conversation.messages c)).

(** More sample data. *)
Module Scenes.

(** A booking of patient [p5] that carries no date at all. *)
Definition undated : Booking.t :=
  Booking.mk "p5" "Dee" (Some ""%string) (Some "Dr. A"%string) None
             "confirmed" NoDate BadDate.

(** A mounted page with the sample store. *)
Definition running : World :=
  mkWorld (mkPage (Some "p3"%string) "draft" "an" []) (Stored Sample.bookings)
          (Stored Sample.users) 0 true
          ["mindcare-data-updated"; "storage"]%string true [].

(** The sample page with the thread list loaded and nothing selected. *)
Definition list_page : PageState := mkPage None "" "" Sample.derived.

(** The thread of patient [p3]. *)
Definition cy_thread : Conversation.t :=
  newConversation Sample.ticking 5 Sample.therapist Sample.users
    (filter (isTherapistBooking Sample.therapist) Sample.bookings) Sample.cy.

End Scenes.

(** Membership of a code point in a list given in full. *)
Ltac pick_code_point :=
  repeat (first [left; reflexivity | right]).

(* ================================================================== *)
(** * Properties *)

(* ------------------------------------------------------------------ *)
(** ** Strings *)

Lemma startsWith_spec (s t : string) :
  startsWith s t = true <-> exists post, s = (t ++ post)%string.
Proof.
  revert s; induction t as [|b t IH]; intros s; simpl.
  - split; [intros _; now exists s | reflexivity].
  - destruct s as [|a s]; simpl.
    + split; [discriminate | intros [post H]; discriminate].
    + rewrite andb_true_iff, IH. split.
      * intros [Hab [post ->]]. apply Ascii.eqb_eq in Hab. subst. now exists post.
      * intros [post H]. injection H as -> ->. split.
        -- apply Ascii.eqb_refl.
        -- now exists post.
Qed.

Lemma includes_spec (s t : string) :
  includes s t = true <-> exists pre post, s = (pre ++ t ++ post)%string.
Proof.
  induction s as [|a s IH].
  - simpl. destruct (startsWith "" t) eqn:E.
    + apply startsWith_spec in E as [post E]. split; [|reflexivity].
      intros _. exists ""%string, post. exact E.
    + split; [discriminate|]. intros [pre [post H]].
      destruct pre; [|discriminate]. simpl in H.
      assert (startsWith "" t = true) by (apply startsWith_spec; now exists post).
      congruence.
  - cbn [includes]. destruct (startsWith (String a s) t) eqn:E.
    + apply startsWith_spec in E as [post E]. split; [|reflexivity].
      intros _. exists ""%string, post. exact E.
    + rewrite IH. split.
      * intros [pre [post ->]]. now exists (String a pre), post.
      * intros [pre [post H]]. destruct pre as [|c pre].
        -- simpl in H.
           assert (startsWith (String a s) t = true)
             by (apply startsWith_spec; now exists post).
           congruence.
        -- simpl in H. injection H as _ ->. now exists pre, post.
Qed.


(** *** White space *)

Lemma isWhiteSpace_code_point (a : ascii) :
  isWhiteSpace a = true ->
  exists c, In c whiteSpaceCodePoints /\ utf8 c = String a "".
Proof.
  intros H. exists (N_of_ascii a).
  destruct a as [[] [] [] [] [] [] [] []]; vm_compute in H; try discriminate H;
    (split; [vm_compute; pick_code_point | reflexivity]).
Qed.

Lemma byte_is (a : ascii) (n : nat) : nat_of_ascii a = n -> a = ascii_of_nat n.
Proof. intros <-. symmetry. apply ascii_nat_embedding. Qed.

Lemma isByte_is (a : ascii) (n : nat) : isByte a n = true -> a = ascii_of_nat n.
Proof. intros H. apply Nat.eqb_eq in H. now apply byte_is. Qed.

Lemma isWhiteSpace2_code_point (a b : ascii) :
  isWhiteSpace2 a b = true ->
  exists c, In c whiteSpaceCodePoints /\ utf8 c = String a (String b "").
Proof.
  unfold isWhiteSpace2. intros H. apply andb_true_iff in H as [Ha Hb].
  apply isByte_is in Ha, Hb. subst. exists 160%N.
  split; [vm_compute; pick_code_point | reflexivity].
Qed.

Lemma isWhiteSpace3_code_point (a b c : ascii) :
  isWhiteSpace3 a b c = true ->
  exists p, In p whiteSpaceCodePoints /\ utf8 p = String a (String b (String c "")).
Proof.
  unfold isWhiteSpace3. cbv zeta.
  repeat (rewrite orb_true_iff || rewrite andb_true_iff).
  rewrite !Nat.leb_le, !Nat.eqb_eq.
  intros H.
  assert (Hc : forall n, nat_of_ascii c = n -> c = ascii_of_nat n) by apply byte_is.
  destruct H as [[[[[[Ha Hb] H]|[[Ha Hb] H]]|[[Ha Hb] H]]|[[Ha Hb] H]]|[[Ha Hb] H]];
    apply isByte_is in Ha, Hb; subst a b.
  - apply isByte_is in H. subst c. exists 5760%N.
    split; [vm_compute; pick_code_point | reflexivity].
  - remember (nat_of_ascii c) as n eqn:En.
    assert (E : (n = 128 \/ n = 129 \/ n = 130 \/ n = 131 \/ n = 132 \/ n = 133 \/
                 n = 134 \/ n = 135 \/ n = 136 \/ n = 137 \/ n = 138 \/
                 n = 168 \/ n = 169 \/ n = 175)%nat) by lia.
    clear H En.
    repeat (destruct E as [E|E];
      [apply Hc in E; subst c;
       match goal with
       | |- context [String _ (String _ (String (ascii_of_nat ?k) _))] =>
           exists (8064 + N.of_nat k)%N
       end;
       split; [vm_compute; pick_code_point | reflexivity] |]).
    apply Hc in E. subst c. exists 8239%N.
    split; [vm_compute; pick_code_point | reflexivity].
  - apply isByte_is in H. subst c. exists 8287%N.
    split; [vm_compute; pick_code_point | reflexivity].
  - apply isByte_is in H. subst c. exists 12288%N.
    split; [vm_compute; pick_code_point | reflexivity].
  - apply isByte_is in H. subst c. exists 65279%N.
    split; [vm_compute; pick_code_point | reflexivity].
Qed.

Lemma isWhiteSpace2_first (a b : ascii) :
  isWhiteSpace2 a b = true -> isWhiteSpace a = false.
Proof.
  unfold isWhiteSpace2. intros H. apply andb_true_iff in H as [Ha _].
  apply isByte_is in Ha. now subst.
Qed.

Lemma isWhiteSpace3_first (a b c : ascii) :
  isWhiteSpace3 a b c = true -> isWhiteSpace a = false /\ isWhiteSpace2 a b = false.
Proof.
  unfold isWhiteSpace3. cbv zeta.
  repeat (rewrite orb_true_iff || rewrite andb_true_iff).
  intros H.
  assert (Ha : a = ascii_of_nat 225 \/ a = ascii_of_nat 226 \/ a = ascii_of_nat 227 \/
               a = ascii_of_nat 239).
  { destruct H as [[[[[[Ha _] _]|[[Ha _] _]]|[[Ha _] _]]|[[Ha _] _]]|[[Ha _] _]];
      apply isByte_is in Ha; auto. }
  unfold isWhiteSpace2.
  destruct Ha as [-> | [-> | [-> | ->]]]; split; reflexivity.
Qed.

Lemma whiteSpaceRun_app (s t : string) :
  whiteSpaceRun s -> whiteSpaceRun t -> whiteSpaceRun (s ++ t).
Proof.
  intros Hs Ht. induction Hs; simpl; [exact Ht | | |].
  - now apply run_1.
  - now apply run_2.
  - now apply run_3.
Qed.

Lemma whiteSpaceRun_utf8 (c : N) (s : string) :
  In c whiteSpaceCodePoints -> whiteSpaceRun s -> whiteSpaceRun (utf8 c ++ s).
Proof.
  intros Hc Hs. unfold whiteSpaceCodePoints in Hc.
  repeat (destruct Hc as [<-|Hc];
    [match goal with
     | |- whiteSpaceRun (utf8 ?p ++ _)%string =>
         let x := eval vm_compute in (utf8 p) in change (utf8 p) with x
     end;
     cbn [append];
     first [ apply run_1; [reflexivity | assumption]
           | apply run_2; [reflexivity | assumption]
           | apply run_3; [reflexivity | assumption] ] |]).
  destruct Hc.
Qed.

(** White space only, as the specification has it, is what [trim] reads as
    a run of white space. *)
Lemma whiteSpaceOnly_run (s : string) : whiteSpaceOnly s <-> whiteSpaceRun s.
Proof.
  split.
  - intros [cps [Hcps ->]]. induction cps as [|c cps IH]; simpl; [constructor|].
    apply whiteSpaceRun_utf8; [apply Hcps; now left|].
    apply IH. intros c' Hc'. apply Hcps. now right.
  - intros H. induction H as [|a s Ha _ [cps [Hcps ->]]|a b s Hab _ [cps [Hcps ->]]
                              |a b c s Habc _ [cps [Hcps ->]]].
    + exists []. split; [intros c []|reflexivity].
    + destruct (isWhiteSpace_code_point a Ha) as [p [Hp E]].
      exists (p :: cps). split; [intros c [<-|Hc]; auto|]. simpl. now rewrite E.
    + destruct (isWhiteSpace2_code_point a b Hab) as [p [Hp E]].
      exists (p :: cps). split; [intros c [<-|Hc]; auto|]. simpl. now rewrite E.
    + destruct (isWhiteSpace3_code_point a b c Habc) as [p [Hp E]].
      exists (p :: cps). split; [intros c' [<-|Hc]; auto|]. simpl. now rewrite E.
Qed.

Lemma trimStart_run (s : string) : whiteSpaceRun s -> trimStart s = ""%string.
Proof.
  intros H. induction H as [|a s Ha _ IH|a b s Hab _ IH|a b c s Habc _ IH].
  - reflexivity.
  - simpl. now rewrite Ha.
  - simpl. now rewrite (isWhiteSpace2_first a b Hab), Hab.
  - destruct (isWhiteSpace3_first a b c Habc) as [H1 H2].
    simpl. now rewrite H1, H2, Habc.
Qed.

(** What [trimStart] leaves is white space only when the text was. *)
Lemma trimStart_run_inv (n : nat) :
  forall s, (String.length s <= n)%nat -> whiteSpaceRun (trimStart s) -> whiteSpaceRun s.
Proof.
  induction n as [|n IH]; intros s Hn H.
  - destruct s; [constructor | simpl in Hn; lia].
  - destruct s as [|a s1]; [constructor|]. simpl in Hn. simpl in H.
    destruct (isWhiteSpace a) eqn:Ha.
    { apply run_1; [exact Ha|]. apply IH; [lia | exact H]. }
    destruct s1 as [|b s2]; [exact H|]. simpl in Hn.
    destruct (isWhiteSpace2 a b) eqn:Hab.
    { apply run_2; [exact Hab|]. apply IH; [lia | exact H]. }
    destruct s2 as [|c s3]; [exact H|]. simpl in Hn.
    destruct (isWhiteSpace3 a b c) eqn:Habc; [|exact H].
    apply run_3; [exact Habc|]. apply IH; [lia | exact H].
Qed.

Lemma string_app_assoc (a b c : string) :
  ((a ++ b) ++ c)%string = (a ++ (b ++ c))%string.
Proof. induction a as [|x a IH]; simpl; [reflexivity | now rewrite IH]. Qed.

Lemma reverse_cons (a : ascii) (s : string) :
  reverse (String a s) = (reverse s ++ String a "")%string.
Proof.
  unfold reverse. simpl.
  generalize (rev (list_ascii_of_string s)). intros l.
  induction l as [|x l IH]; simpl; [reflexivity | now rewrite IH].
Qed.

Lemma reverse_app (s t : string) : reverse (s ++ t) = (reverse t ++ reverse s)%string.
Proof.
  induction s as [|a s IH]; simpl.
  - induction (reverse t) as [|x r IHr]; simpl; [reflexivity | now rewrite <- IHr].
  - rewrite !reverse_cons, IH.
    generalize (reverse t) (reverse s). intros x y.
    induction x as [|c x IHx]; simpl; [reflexivity | now rewrite IHx].
Qed.

Lemma reverse_involutive (s : string) : reverse (reverse s) = s.
Proof.
  induction s as [|a s IH]; [reflexivity|].
  rewrite reverse_cons, reverse_app, IH. reflexivity.
Qed.

Lemma reverse_empty (s : string) : reverse s = ""%string -> s = ""%string.
Proof.
  intros H. rewrite <- (reverse_involutive s), H. reflexivity.
Qed.

(** What [trimReversed] strips from the reversed text is white space. *)
Lemma trimReversed_run (n : nat) :
  forall r, (String.length r <= n)%nat ->
            trimReversed r = ""%string -> whiteSpaceRun (reverse r).
Proof.
  induction n as [|n IH]; intros r Hn H.
  - destruct r; [constructor | simpl in Hn; lia].
  - destruct r as [|c r1]; [constructor|]. simpl in Hn. simpl in H.
    destruct (isWhiteSpace c) eqn:Hc.
    { rewrite reverse_cons. apply whiteSpaceRun_app; [apply IH; [lia|exact H]|].
      apply run_1; [exact Hc | constructor]. }
    destruct r1 as [|b r2]; [discriminate H|]. simpl in Hn.
    destruct (isWhiteSpace2 b c) eqn:Hbc.
    { rewrite !reverse_cons, string_app_assoc.
      apply whiteSpaceRun_app; [apply IH; [lia|exact H]|].
      apply run_2; [exact Hbc | constructor]. }
    destruct r2 as [|a r3]; [discriminate H|]. simpl in Hn.
    destruct (isWhiteSpace3 a b c) eqn:Habc; [|discriminate H].
    rewrite !reverse_cons, !string_app_assoc.
    apply whiteSpaceRun_app; [apply IH; [lia|exact H]|].
    apply run_3; [exact Habc | constructor].
Qed.

(** [trim] leaves nothing exactly when the text is empty or white space
    only. *)
Lemma trim_empty_iff (s : string) : trim s = ""%string <-> whiteSpaceOnly s.
Proof.
  rewrite whiteSpaceOnly_run. unfold trim, trimEnd. split.
  - intros H. apply reverse_empty in H.
    apply (trimReversed_run _ _ (Nat.le_refl _)) in H.
    rewrite reverse_involutive in H.
    now apply (trimStart_run_inv _ _ (Nat.le_refl _)).
  - intros H. now rewrite (trimStart_run s H).
Qed.

(** *** Case *)

Lemma nat_of_lower_ascii (c : ascii) :
  nat_of_ascii (lower_ascii c) =
  if (Nat.leb 65 (nat_of_ascii c) && Nat.leb (nat_of_ascii c) 90)%bool
  then (nat_of_ascii c + 32)%nat else nat_of_ascii c.
Proof.
  unfold lower_ascii. cbv zeta.
  destruct (Nat.leb 65 (nat_of_ascii c) && Nat.leb (nat_of_ascii c) 90)%bool eqn:E;
    [|reflexivity].
  apply andb_true_iff in E as [_ E]. apply Nat.leb_le in E.
  apply nat_ascii_embedding. lia.
Qed.

Lemma nat_of_ascii_inj (a b : ascii) : nat_of_ascii a = nat_of_ascii b -> a = b.
Proof.
  intros H. rewrite <- (ascii_nat_embedding a), <- (ascii_nat_embedding b).
  now rewrite H.
Qed.

(** Two bytes have the same lower case exactly when they are the same
    letter up to case. *)
Lemma lower_ascii_sameLetter (a b : ascii) :
  lower_ascii a = lower_ascii b <-> sameLetter a b.
Proof.
  unfold sameLetter. cbv zeta. split.
  - intros H. apply (f_equal nat_of_ascii) in H.
    rewrite !nat_of_lower_ascii in H.
    destruct (Nat.leb_spec 65 (nat_of_ascii a)); destruct (Nat.leb_spec (nat_of_ascii a) 90);
      destruct (Nat.leb_spec 65 (nat_of_ascii b)); destruct (Nat.leb_spec (nat_of_ascii b) 90);
      simpl in H; lia.
  - intros H. apply nat_of_ascii_inj. rewrite !nat_of_lower_ascii.
    destruct (Nat.leb_spec 65 (nat_of_ascii a)); destruct (Nat.leb_spec (nat_of_ascii a) 90);
      destruct (Nat.leb_spec 65 (nat_of_ascii b)); destruct (Nat.leb_spec (nat_of_ascii b) 90);
      simpl; lia.
Qed.

Lemma asciiLowerCase_equal (s t : string) :
  asciiLowerCase s = asciiLowerCase t <-> equalIgnoringCase s t.
Proof.
  revert t. induction s as [|a s IH]; intros [|b t]; simpl;
    try (split; [discriminate | contradiction]).
  - split; auto.
  - rewrite <- IH, <- lower_ascii_sameLetter. split.
    + intros H. injection H as H1 H2. now split.
    + intros [-> ->]. reflexivity.
Qed.

Lemma asciiLowerCase_app (a b : string) :
  asciiLowerCase (a ++ b) = (asciiLowerCase a ++ asciiLowerCase b)%string.
Proof. induction a as [|x a IH]; simpl; [reflexivity | now rewrite IH]. Qed.




Lemma isAscii_app (a b : string) : isAscii a -> isAscii b -> isAscii (a ++ b).
Proof.
  intros Ha Hb. induction a as [|x a IH]; simpl; [exact Hb|].
  intros c [<-|Hc].
  - apply Ha. now left.
  - apply IH; [|exact Hc]. intros c' Hc'. apply Ha. now right.
Qed.

(* ------------------------------------------------------------------ *)
(** ** Presence (lines 80-85) *)

Lemma Qltb_hoursAgo (d n : Z) :
  Qltb (hoursAgo d) (inject_Z n) = (d <? n * hour).
Proof.
  unfold Qltb, Qle_bool, hoursAgo, hour, Qdiv, Qmult, Qinv, inject_Z. simpl.
  destruct (Z.leb_spec (n * 3600000) (d * 1 * 1)); destruct (Z.ltb_spec d (n * 3600000));
    simpl; try reflexivity; lia.
Qed.

Lemma presence_cases (t now : Z) :
  presence (Some t) now =
  if now - t <? 2 * hour then online
  else if now - t <? 24 * hour then away else offline.
Proof. unfold presence. cbv zeta. now rewrite !Qltb_hoursAgo. Qed.

(** C5: for [now >= t] the status is online for an elapsed time in
    [0, 2h), away in [2h, 24h) and offline from 24h on; exactly 2h is away
    and exactly 24h is offline. *)
Theorem presence_buckets (t now : Z) (Hnow : t <= now) :
  (presence (Some t) now = online <-> 0 <= now - t < 2 * hour) /\
  (presence (Some t) now = away <-> 2 * hour <= now - t < 24 * hour) /\
  (presence (Some t) now = offline <-> 24 * hour <= now - t) /\
  presence (Some t) (t + 2 * hour) = away /\
  presence (Some t) (t + 24 * hour) = offline.
Proof.
  rewrite !presence_cases.
  replace (t + 2 * hour - t) with (2 * hour) by lia.
  replace (t + 24 * hour - t) with (24 * hour) by lia.
  unfold hour in *.
  destruct (Z.ltb_spec (now - t) (2 * (1000 * 60 * 60)));
    destruct (Z.ltb_spec (now - t) (24 * (1000 * 60 * 60)));
    repeat split; try discriminate; try reflexivity; intros; lia.
Qed.

Lemma presence_buckets_witness :
  (presence (Some 1000) 7201000 = online <-> 0 <= 7201000 - 1000 < 2 * hour) /\
  (presence (Some 1000) 7201000 = away <-> 2 * hour <= 7201000 - 1000 < 24 * hour) /\
  (presence (Some 1000) 7201000 = offline <-> 24 * hour <= 7201000 - 1000) /\
  presence (Some 1000) (1000 + 2 * hour) = away /\
  presence (Some 1000) (1000 + 24 * hour) = offline.
Proof. apply (presence_buckets 1000 7201000). lia. Defined.

(* ------------------------------------------------------------------ *)
(** ** Search (lines 186-189) *)




(* ------------------------------------------------------------------ *)
(** ** The latest booking of a patient (lines 61-64) *)

(** The time line 62 compares by is the reference time of the booking. *)
Lemma referenceTime_spec (b : Booking.t) (t : Z) :
  referenceTime b = Some t <-> ReferenceTime b t.
Proof.
  unfold referenceTime. split.
  - destruct (Booking.createdAt b) as [| |c] eqn:Hc; simpl; intros H.
    + destruct (Booking.date b) as [| |d] eqn:Hd; simpl in H; try discriminate.
      injection H as <-. now apply appointed.
    + discriminate.
    + injection H as <-. now apply created.
  - intros [t' Hc | t' Hc Hd]; rewrite Hc; [reflexivity|]. simpl. now rewrite Hd.
Qed.

Lemma ReferenceTime_functional (b : Booking.t) (t t' : Z) :
  ReferenceTime b t -> ReferenceTime b t' -> t = t'.
Proof.
  intros H H'. apply referenceTime_spec in H, H'. congruence.
Qed.

Lemma sort_insert_perm {A} (cmp : A -> A -> option Z) (x : A) (l : list A) :
  Permutation (x :: l) (sort_insert cmp x l).
Proof.
  induction l as [|y l IH]; simpl; [reflexivity|].
  destruct (comesAfter cmp x y); [|reflexivity].
  rewrite perm_swap. now constructor.
Qed.

Lemma Array_sort_perm {A} (cmp : A -> A -> option Z) (l : list A) :
  Permutation l (Array_sort cmp l).
Proof.
  induction l as [|x l IH]; simpl; [constructor|].
  rewrite <- sort_insert_perm. now constructor.
Qed.

(** The element [0] after sorting: the head stays in front unless the
    former winner has to come before it. *)
Lemma hd_Array_sort_cons {A} (cmp : A -> A -> option Z) (d x : A) (l : list A) :
  hd d (Array_sort cmp (x :: l)) =
  match l with
  | [] => x
  | _ => if comesAfter cmp x (hd d (Array_sort cmp l))
         then hd d (Array_sort cmp l) else x
  end.
Proof.
  simpl. destruct l as [|y l]; [reflexivity|].
  destruct (Array_sort cmp (y :: l)) as [|z s] eqn:E.
  - pose proof (Array_sort_perm cmp (y :: l)) as P. rewrite E in P.
    apply Permutation_sym, Permutation_nil in P. discriminate.
  - simpl. now destruct (comesAfter cmp x z).
Qed.

Lemma comesAfter_compareFn (x y : Booking.t) (tx ty : Z) :
  ReferenceTime x tx -> ReferenceTime y ty ->
  comesAfter compareFn x y = (tx <? ty).
Proof.
  intros Hx Hy. apply referenceTime_spec in Hx, Hy.
  unfold comesAfter, compareFn. rewrite Hx, Hy.
  destruct (Z.ltb_spec 0 (ty - tx)); destruct (Z.ltb_spec tx ty); auto; lia.
Qed.

Lemma notLater_trans (a b c : Booking.t) : notLater a b -> notLater b c -> notLater a c.
Proof.
  intros (ta & tb & Ha & Hb & Hab) (tb' & tc & Hb' & Hc & Hbc).
  exists ta, tc. repeat split; auto.
  rewrite (ReferenceTime_functional b tb tb' Hb Hb') in Hab. lia.
Qed.

Lemma earlier_notLater (a b : Booking.t) : earlier a b -> notLater a b.
Proof. intros (ta & tb & Ha & Hb & Hab). exists ta, tb. repeat split; auto. lia. Qed.

(** Where every booking has a reference time, the element [0] of the sorted
    group is its latest booking. *)
Lemma hd_Array_sort_latest (d : Booking.t) (l : list Booking.t) :
  l <> [] ->
  (forall x, In x l -> exists t, ReferenceTime x t) ->
  isLatestOf l (hd d (Array_sort compareFn l)).
Proof.
  induction l as [|x l IH]; [congruence|]. intros _ Hdef.
  rewrite hd_Array_sort_cons. destruct l as [|y l].
  - exists [], []. repeat split; constructor.
  - set (w := hd d (Array_sort compareFn (y :: l))) in *.
    destruct IH as (l1 & l2 & E & H1 & H2);
      [discriminate | intros z Hz; apply Hdef; now right |].
    destruct (Hdef x) as [tx Hx]; [now left|].
    destruct (Hdef w) as [tw Hw].
    { right. rewrite E. apply in_or_app. right. now left. }
    rewrite (comesAfter_compareFn x w tx tw Hx Hw).
    destruct (Z.ltb_spec tx tw).
    + exists (x :: l1), l2. rewrite E. repeat split; auto.
      constructor; auto. now exists tx, tw.
    + exists [], (y :: l). repeat split; [constructor|].
      assert (Hwx : notLater w x) by (exists tw, tx; repeat split; auto; lia).
      rewrite E. apply Forall_app. split; [|constructor].
      * eapply Forall_impl; [|exact H1]. intros a Ha.
        eapply notLater_trans; [apply earlier_notLater; exact Ha | exact Hwx].
      * exact Hwx.
      * eapply Forall_impl; [|exact H2]. intros a Ha.
        eapply notLater_trans; [exact Ha | exact Hwx].
Qed.

(** A group has one latest booking at most. *)
Lemma isLatestOf_unique (group : list Booking.t) (a b : Booking.t) :
  isLatestOf group a -> isLatestOf group b -> a = b.
Proof.
  intros (l1 & l2 & E & H1 & H2) (l1' & l2' & E' & H1' & H2').
  rewrite E in E'. apply app_eq_app in E' as [l [[El Er]|[El Er]]].
  - destruct l as [|x l].
    + simpl in Er. now injection Er.
    + simpl in Er. injection Er as <- Er. exfalso.
      (* [a] stands behind [b] *)
      assert (Hab : notLater a b).
      { rewrite Forall_forall in H2'. apply H2'. rewrite Er.
        apply in_or_app. right. now left. }
      assert (Hba : earlier b a).
      { rewrite Forall_forall in H1. apply H1. rewrite El.
        apply in_or_app. right. now left. }
      destruct Hab as (ta & tb & Ha & Hb & Hle).
      destruct Hba as (tb' & ta' & Hb' & Ha' & Hlt).
      rewrite (ReferenceTime_functional a ta ta' Ha Ha') in Hle.
      rewrite (ReferenceTime_functional b tb tb' Hb Hb') in Hle. lia.
  - destruct l as [|x l].
    + simpl in Er. now injection Er.
    + simpl in Er. injection Er as <- Er. exfalso.
      assert (Hba : notLater b a).
      { rewrite Forall_forall in H2. apply H2. rewrite Er.
        apply in_or_app. right. now left. }
      assert (Hab : earlier a b).
      { rewrite Forall_forall in H1'. apply H1'. rewrite El.
        apply in_or_app. right. now left. }
      destruct Hba as (tb & ta & Hb & Ha & Hle).
      destruct Hab as (ta' & tb' & Ha' & Hb' & Hlt).
      rewrite (ReferenceTime_functional a ta ta' Ha Ha') in Hle.
      rewrite (ReferenceTime_functional b tb tb' Hb Hb') in Hle. lia.
Qed.

(** A group with a latest booking is that booking alone, or all its
    bookings have reference times. *)
Lemma isLatestOf_dated (group : list Booking.t) (b : Booking.t) :
  isLatestOf group b ->
  group = [b] \/ forall x, In x group -> exists t, ReferenceTime x t.
Proof.
  intros (l1 & l2 & -> & H1 & H2).
  destruct l1 as [|x l1]; [destruct l2 as [|y l2]; [now left|]|]; right.
  - assert (Hb : exists t, ReferenceTime b t).
    { apply Forall_inv in H2 as (ty & tb & _ & Hb & _). now exists tb. }
    intros z [<-|Hz]; [exact Hb|].
    rewrite Forall_forall in H2. destruct (H2 z Hz) as (tz & _ & Hz' & _).
    now exists tz.
  - assert (Hb : exists t, ReferenceTime b t).
    { apply Forall_inv in H1 as (tx & tb & _ & Hb & _). now exists tb. }
    intros z Hz. apply in_app_or in Hz as [Hz|[<-|Hz]]; [|exact Hb|].
    + rewrite Forall_forall in H1. destruct (H1 z Hz) as (tz & _ & Hz' & _).
      now exists tz.
    + rewrite Forall_forall in H2. destruct (H2 z Hz) as (tz & _ & Hz' & _).
      now exists tz.
Qed.

(** The booking of line 64 is the latest booking of the group whenever the
    group has one. *)
Lemma hd_Array_sort_is_latest (d : Booking.t) (l : list Booking.t) (b : Booking.t) :
  isLatestOf l b -> hd d (Array_sort compareFn l) = b.
Proof.
  intros H. destruct (isLatestOf_dated l b H) as [-> | Hdef]; [reflexivity|].
  apply (isLatestOf_unique l); [|exact H].
  apply hd_Array_sort_latest; [|exact Hdef].
  destruct H as (l1 & l2 & -> & _). now destruct l1.
Qed.

(* ------------------------------------------------------------------ *)
(** ** The [forEach] over the therapist's bookings (lines 55-132) *)

Lemma Map_has_In {V} (m : JsMap V) (key : string) :
  Map_has m key = true <-> In key (map fst m).
Proof.
  unfold Map_has. rewrite existsb_exists. split.
  - intros [[k v] [Hin Hk]]. apply String.eqb_eq in Hk. simpl in Hk. subst.
    now apply (in_map fst) in Hin.
  - intros Hin. apply in_map_iff in Hin as [[k v] [<- Hin]].
    exists (k, v). split; [exact Hin | apply String.eqb_refl].
Qed.

Lemma Map_has_false {V} (m : JsMap V) (key : string) :
  Map_has m key = false <-> ~ In key (map fst m).
Proof.
  rewrite <- Map_has_In. destruct (Map_has m key); split; congruence.
Qed.

Lemma Map_set_fresh {V} (m : JsMap V) (key : string) (v : V) :
  Map_has m key = false -> Map_set m key v = m ++ [(key, v)].
Proof.
  induction m as [|[k' v'] m IH]; simpl; [reflexivity|].
  intros H. apply orb_false_iff in H as [Hk Hm]. rewrite Hk. now rewrite IH.
Qed.

Lemma firstOf_cons (x : Booking.t) (todo : list Booking.t) (p : string) (b : Booking.t) :
  Booking.patientId x <> p -> firstOf todo p b -> firstOf (x :: todo) p b.
Proof.
  intros Hx (l1 & l2 & -> & Hb & Hl1). exists (x :: l1), l2.
  repeat split; auto. intros y [<-|Hy]; auto.
Qed.

Section ForEach.

Variable now : Clock.
Variable user : option User.t.
Variable registeredUsers : list RegisteredUser.t.
Variable therapistBookings : list Booking.t.

(** The entries the loop adds: one per patient of [todo] not yet in the
    map, in the order of first appearance, each built from the first
    booking of that patient. *)
Lemma forEachBooking_spec (todo : list Booking.t) :
  forall (patientMap : JsMap Conversation.t) (k : nat),
  exists added,
    fst (forEachBooking now user registeredUsers therapistBookings todo patientMap k)
    = patientMap ++ added /\
    NoDup (map fst added) /\
    (forall p, In p (map fst added) <->
               ~ In p (map fst patientMap) /\
               exists b, In b todo /\ Booking.patientId b = p) /\
    (forall p c, In (p, c) added ->
       exists b k0,
         firstOf todo p b /\ (k <= k0)%nat /\
         c = newConversation now k0 user registeredUsers therapistBookings b).
Proof.
  induction todo as [|booking rest IH]; intros patientMap k; simpl.
  - exists []. rewrite app_nil_r. split; [reflexivity|].
    split; [constructor|]. split.
    + intros p. split; [intros [] | intros [_ [b [[] _]]]].
    + intros p c [].
  - destruct (Map_has patientMap (Booking.patientId booking)) eqn:Hhas.
    + destruct (IH patientMap k) as (added & E & Hnd & Hkeys & Hconv).
      exists added. split; [exact E|]. split; [exact Hnd|]. split.
      * intros p. rewrite Hkeys. split.
        -- intros [Hp [b [Hb Hpb]]]. split; [exact Hp|]. exists b.
           split; [right; exact Hb | exact Hpb].
        -- intros [Hp [b [[<-|Hb] Hpb]]].
           ++ apply Map_has_In in Hhas. subst. contradiction.
           ++ split; auto. now exists b.
      * intros p c Hin. destruct (Hconv p c Hin) as (b & k0 & Hf & Hk & Hc).
        exists b, k0. split; [|split; auto]. apply firstOf_cons; auto.
        intros Heq. apply Map_has_In in Hhas.
        assert (Hp : In p (map fst added))
          by (apply in_map_iff; now exists (p, c)).
        apply Hkeys in Hp as [Hp _]. subst. contradiction.
    + rewrite Map_set_fresh by exact Hhas.
      set (conv := newConversation now k user registeredUsers therapistBookings booking).
      destruct (IH (patientMap ++ [(Booking.patientId booking, conv)]) (k + 5)%nat)
        as (added & E & Hnd & Hkeys & Hconv).
      exists ((Booking.patientId booking, conv) :: added).
      rewrite E, <- app_assoc. simpl.
      assert (Hfresh : ~ In (Booking.patientId booking) (map fst patientMap))
        by now apply Map_has_false.
      split; [reflexivity|]. split; [|split].
      * constructor; auto. intros Hin. apply Hkeys in Hin as [Hin _].
        apply Hin. rewrite map_app. apply in_or_app. right. now left.
      * intros p. split.
        -- intros [<-|Hp].
           ++ split; auto. exists booking. auto.
           ++ apply Hkeys in Hp as [Hp [b [Hb Hpb]]]. split.
              ** intros Hin. apply Hp. rewrite map_app. apply in_or_app. now left.
              ** exists b. auto.
        -- intros [Hp [b [Hb Hpb]]].
           destruct (string_dec (Booking.patientId booking) p) as [Heq|Hne]; [now left|].
           right. apply Hkeys. split.
           ++ rewrite map_app. intros Hin.
              apply in_app_or in Hin as [Hin|[Hin|[]]]; auto.
           ++ destruct Hb as [<-|Hb]; [contradiction|]. now exists b.
      * intros p c [Heq|Hin].
        -- injection Heq as <- <-. exists booking, k. split; [|split; auto].
           exists [], rest. split; [reflexivity|]. split; [reflexivity|]. intros x [].
        -- destruct (Hconv p c Hin) as (b & k0 & Hf & Hk & Hc).
           exists b, k0. split; [|split; [lia|exact Hc]].
           apply firstOf_cons; auto. intros Heq.
           assert (Hp : In p (map fst added))
             by (apply in_map_iff; now exists (p, c)).
           apply Hkeys in Hp as [Hp _]. apply Hp.
           rewrite map_app. apply in_or_app. right. left. exact Heq.
Qed.

End ForEach.

(* ------------------------------------------------------------------ *)
(** ** The derived conversations *)

Lemma strict_eq_true (a b : option string) : strict_eq a b = true <-> a = b.
Proof.
  destruct a as [x|], b as [y|]; simpl; try (split; congruence).
  rewrite String.eqb_eq. split; congruence.
Qed.

Lemma isTherapistBooking_spec (user : option User.t) (b : Booking.t) :
  isTherapistBooking user b = true <->
  Booking.therapistName b = option_map User.name user \/
  Booking.therapistId b = option_map User.id user.
Proof. unfold isTherapistBooking. now rewrite orb_true_iff, !strict_eq_true. Qed.

Lemma firstOf_group (todo : list Booking.t) (p : string) (b : Booking.t) :
  firstOf todo p b ->
  exists others,
    filter (fun x => String.eqb (Booking.patientId x) p) todo = b :: others.
Proof.
  intros (l1 & l2 & -> & Hb & Hl1). rewrite filter_app. simpl.
  rewrite Hb, String.eqb_refl.
  exists (filter (fun x => String.eqb (Booking.patientId x) p) l2).
  replace (filter (fun x => String.eqb (Booking.patientId x) p) l1) with (@nil Booking.t);
    [reflexivity|].
  symmetry. induction l1 as [|x l1 IH]; [reflexivity|]. simpl.
  destruct (String.eqb_spec (Booking.patientId x) p) as [E|_].
  - exfalso. apply (Hl1 x); simpl; auto.
  - apply IH. intros y Hy. apply Hl1. now right.
Qed.

Lemma firstOf_In (todo : list Booking.t) (p : string) (b : Booking.t) :
  firstOf todo p b -> In b todo.
Proof. intros (l1 & l2 & -> & _). apply in_or_app. right. now left. Qed.

Section Derivation.

Variable now : Clock.
Variable k : nat.
Variable user : option User.t.
Variable allBookings : list Booking.t.
Variable registeredUsers : list RegisteredUser.t.

Let therapistBookings := filter (isTherapistBooking user) allBookings.
Let derived := fst (deriveConversations now k user allBookings registeredUsers).

Lemma derived_entries :
  exists added : JsMap Conversation.t,
    derived = map snd added /\
    NoDup (map fst added) /\
    (forall p, In p (map fst added) <->
               exists b, In b therapistBookings /\ Booking.patientId b = p) /\
    (forall p c, In (p, c) added ->
       exists b k0,
         firstOf therapistBookings p b /\ (k <= k0)%nat /\
         c = newConversation now k0 user registeredUsers therapistBookings b).
Proof.
  destruct (forEachBooking_spec now user registeredUsers therapistBookings
              therapistBookings [] k) as (added & E & Hnd & Hkeys & Hconv).
  exists added. split; [|split; [exact Hnd|split; [|exact Hconv]]].
  - subst derived. unfold deriveConversations. fold therapistBookings.
    destruct (forEachBooking now user registeredUsers therapistBookings
                therapistBookings [] k) as [m k'].
    simpl in *. now subst m.
  - intros p. rewrite Hkeys. simpl. split; [intros [_ H]; exact H | auto].
Qed.

(** Every derived conversation was built from the first booking of its
    patient among the therapist's bookings. *)
Lemma derived_from_first (conv : Conversation.t) :
  In conv derived ->
  exists first k0,
    firstOf therapistBookings (Conversation.id conv) first /\ (k <= k0)%nat /\
    conv = newConversation now k0 user registeredUsers therapistBookings first.
Proof.
  destruct derived_entries as (added & E & _ & _ & Hconv). rewrite E.
  intros Hin. apply in_map_iff in Hin as [[p c] [<- Hin]]. simpl.
  destruct (Hconv p c Hin) as (b & k0 & Hf & Hk & Hc).
  exists b, k0. split; [|split; auto].
  assert (Hid : Conversation.id c = p).
  { rewrite Hc. simpl. now destruct Hf as (_ & _ & _ & Hp & _). }
  now rewrite Hid.
Qed.

Lemma derived_ids :
  NoDup (map Conversation.id derived) /\
  (forall p, In p (map Conversation.id derived) <->
             exists b, In b therapistBookings /\ Booking.patientId b = p).
Proof.
  destruct derived_entries as (added & E & Hnd & Hkeys & Hconv).
  assert (Hids : map Conversation.id derived = map fst added).
  { rewrite E, map_map. apply map_ext_in. intros [p c] Hin. simpl.
    destruct (Hconv p c Hin) as (b & k0 & Hf & _ & ->). simpl.
    now destruct Hf as (_ & _ & _ & Hp & _). }
  rewrite Hids. split; [exact Hnd | exact Hkeys].
Qed.

(** The latest booking of the patient of a derived conversation, when the
    group has one, is the booking line 64 takes. *)
Lemma derived_from_latest (conv : Conversation.t) :
  In conv derived ->
  exists first k0,
    firstOf therapistBookings (Conversation.id conv) first /\ (k <= k0)%nat /\
    conv = newConversation now k0 user registeredUsers therapistBookings first /\
    forall latest,
      isLatestOf (patientGroup user allBookings (Conversation.id conv)) latest ->
      latestBookingOf therapistBookings first = latest.
Proof.
  intros Hin.
  destruct (derived_from_first conv Hin) as (first & k0 & Hf & Hk & Hc).
  assert (Hid : Booking.patientId first = Conversation.id conv)
    by now destruct Hf as (_ & _ & _ & Hp & _).
  exists first, k0. split; [exact Hf|]. split; [exact Hk|]. split; [exact Hc|].
  intros latest Hlatest. unfold latestBookingOf. rewrite Hid.
  now apply hd_Array_sort_is_latest.
Qed.

(** The group of a derived conversation is not empty. *)
Lemma derived_group (conv : Conversation.t) :
  In conv derived ->
  exists first others,
    patientGroup user allBookings (Conversation.id conv) = first :: others.
Proof.
  intros Hin.
  destruct (derived_from_first conv Hin) as (first & k0 & Hf & _).
  destruct (firstOf_group _ _ _ Hf) as [others E]. now exists first, others.
Qed.

End Derivation.

(* ------------------------------------------------------------------ *)
(** ** One conversation per patient *)

(** C3: the derivation yields exactly one conversation per distinct patient
    identifier among the bookings whose therapist name or therapist
    identifier equals that of the identity; the conversation carries that
    identifier, and a patient without such a booking gets none. *)
Theorem one_conversation_per_patient
    (now : Clock) (k : nat) (user : option User.t)
    (allBookings : list Booking.t) (registeredUsers : list RegisteredUser.t) :
  let convs := fst (deriveConversations now k user allBookings registeredUsers) in
  NoDup (map Conversation.id convs) /\
  (forall p, In p (map Conversation.id convs) <->
     exists b, In b allBookings /\
               (Booking.therapistName b = option_map User.name user \/
                Booking.therapistId b = option_map User.id user) /\
               Booking.patientId b = p) /\
  (forall c, In c convs -> Conversation.patientId c = Conversation.id c) /\
  List.length convs =
  List.length (nodup string_dec
            (map Booking.patientId (filter (isTherapistBooking user) allBookings))).
Proof.
  intros convs.
  destruct (derived_ids now k user allBookings registeredUsers) as [Hnd Hmem].
  fold convs in Hnd, Hmem.
  split; [exact Hnd|]. split; [|split].
  - intros p. rewrite Hmem. split.
    + intros [b [Hb Hp]]. apply filter_In in Hb as [Hb Hm].
      exists b. split; [exact Hb|]. split; [|exact Hp].
      now apply isTherapistBooking_spec.
    + intros [b [Hb [Hm Hp]]]. exists b. split; [|exact Hp].
      apply filter_In. split; [exact Hb|]. now apply isTherapistBooking_spec.
  - intros c Hc.
    destruct (derived_from_first now k user allBookings registeredUsers c Hc)
      as (first & k0 & _ & _ & ->). reflexivity.
  - rewrite <- (length_map Conversation.id convs).
    apply Permutation_length. apply NoDup_Permutation; [exact Hnd | apply NoDup_nodup |].
    intros p. rewrite Hmem, nodup_In, in_map_iff.
    split; intros [b [H1 H2]]; exists b; split; assumption.
Qed.

(* ------------------------------------------------------------------ *)
(** ** Last message and unread count *)

Lemma lastMessageFor_canned (status : string) :
  Canned status (lastMessageFor status) (unreadCountFor status).
Proof.
  unfold lastMessageFor, unreadCountFor.
  destruct (String.eqb_spec status "completed") as [->|H1]; [constructor|].
  destruct (String.eqb_spec status "pending_confirmation") as [->|H2]; [constructor|].
  destruct (String.eqb_spec status "confirmed") as [->|H3]; [constructor|].
  now constructor.
Qed.

(** C4: where every booking of the patient's group has a reference time (the
    creation time when the booking has one, else the appointment date), the
    group has a latest booking, the first of the collection among those of
    equal reference time; whichever booking is the latest of the group, its
    status decides the last message and the unread count: completed,
    pending_confirmation, confirmed and any other status give the four
    canned texts, and only pending_confirmation counts one unread. *)
Theorem latest_booking_decides_last_message
    (now : Clock) (k : nat) (user : option User.t)
    (allBookings : list Booking.t) (registeredUsers : list RegisteredUser.t)
    (conv : Conversation.t)
    (Hin : In conv (fst (deriveConversations now k user allBookings registeredUsers)))
    (Hdates : forall b, In b (patientGroup user allBookings (Conversation.id conv)) ->
                        exists t, ReferenceTime b t) :
  (exists latest,
      isLatestOf (patientGroup user allBookings (Conversation.id conv)) latest) /\
  (forall latest,
      isLatestOf (patientGroup user allBookings (Conversation.id conv)) latest ->
      (Booking.status latest = "completed"%string ->
         Conversation.lastMessage conv
           = "Thank you for the session today. I feel much better."%string /\
         Conversation.unreadCount conv = 0) /\
      (Booking.status latest = "pending_confirmation"%string ->
         Conversation.lastMessage conv
           = "I just booked an appointment. Can you confirm the time?"%string /\
         Conversation.unreadCount conv = 1) /\
      (Booking.status latest = "confirmed"%string ->
         Conversation.lastMessage conv = "See you at our scheduled appointment."%string /\
         Conversation.unreadCount conv = 0) /\
      (Booking.status latest <> "completed"%string ->
       Booking.status latest <> "pending_confirmation"%string ->
       Booking.status latest <> "confirmed"%string ->
         Conversation.lastMessage conv = "Looking forward to our session."%string /\
         Conversation.unreadCount conv = 0)).
Proof.
  destruct (derived_from_latest now k user allBookings registeredUsers conv Hin)
    as (first & k0 & Hf & _ & Hc & Hlatest).
  split.
  - destruct (derived_group now k user allBookings registeredUsers conv Hin)
      as (f & others & Hgroup).
    exists (hd f (Array_sort compareFn
                    (patientGroup user allBookings (Conversation.id conv)))).
    apply hd_Array_sort_latest; [|exact Hdates]. rewrite Hgroup. discriminate.
  - intros latest Hl. apply Hlatest in Hl.
    assert (Hmsg : Conversation.lastMessage conv = lastMessageFor (Booking.status latest))
      by (rewrite Hc, <- Hl; reflexivity).
    assert (Hunread : Conversation.unreadCount conv
                      = unreadCountFor (Booking.status latest))
      by (rewrite Hc, <- Hl; reflexivity).
    rewrite Hmsg, Hunread. unfold lastMessageFor, unreadCountFor.
    split; [|split; [|split]].
    + intros ->. split; reflexivity.
    + intros ->. split; reflexivity.
    + intros ->. split; reflexivity.
    + intros H1 H2 H3.
      destruct (String.eqb_spec (Booking.status latest) "completed"); [contradiction|].
      destruct (String.eqb_spec (Booking.status latest) "pending_confirmation");
        [contradiction|].
      destruct (String.eqb_spec (Booking.status latest) "confirmed"); [contradiction|].
      split; reflexivity.
Qed.

(* ------------------------------------------------------------------ *)
(** ** Which booking feeds which field *)

(** C9: name, email and the patient's sender name in the seed messages come
    from the first booking of the patient in collection order (the email
    through the fallback chain of line 122, which never looks at another
    booking), whatever the dates of the bookings; the last message, the
    unread count and the status come from the latest booking by reference
    time (creation time, else appointment date), which exists whenever all
    bookings of the group have a reference time. *)
Theorem identity_from_first_booking
    (now : Clock) (k : nat) (user : option User.t)
    (allBookings : list Booking.t) (registeredUsers : list RegisteredUser.t)
    (conv : Conversation.t)
    (Hin : In conv (fst (deriveConversations now k user allBookings registeredUsers))) :
  exists first others k0,
    patientGroup user allBookings (Conversation.id conv) = first :: others /\
    Conversation.patientName conv = Booking.patientName first /\
    Conversation.patientEmail conv =
      or_else (Booking.patientEmail first)
        (or_else
           (match find (fun u => String.eqb (RegisteredUser.id u) (Conversation.id conv))
                       registeredUsers with
            | Some u => RegisteredUser.email u
            | None => None
            end) "patient@example.com") /\
    (forall e, Booking.patientEmail first = Some e -> e <> ""%string ->
               Conversation.patientEmail conv = e) /\
    (exists m1 m2 m3,
        Conversation.messages conv = [m1; m2; m3] /\
        Message.senderId m1 = Conversation.id conv /\
        Message.senderName m1 = Booking.patientName first /\
        Message.content m2 =
          ("Hello " ++ Booking.patientName first
                    ++ "! I'm glad you reached out. How are you feeling today?")%string /\
        Message.senderId m3 = Conversation.id conv /\
        Message.senderName m3 = Booking.patientName first) /\
    ((forall b, In b (first :: others) -> exists t, ReferenceTime b t) ->
     exists latest, isLatestOf (first :: others) latest) /\
    (forall latest, isLatestOf (first :: others) latest ->
       Canned (Booking.status latest)
              (Conversation.lastMessage conv) (Conversation.unreadCount conv) /\
       (forall t, ReferenceTime latest t ->
          (now k0 - t < 2 * hour -> Conversation.status conv = online) /\
          (2 * hour <= now k0 - t < 24 * hour -> Conversation.status conv = away) /\
          (24 * hour <= now k0 - t -> Conversation.status conv = offline))).
Proof.
  destruct (derived_from_latest now k user allBookings registeredUsers conv Hin)
    as (first & k0 & Hf & Hk & Hc & Hlatest).
  assert (Hid : Booking.patientId first = Conversation.id conv)
    by now destruct Hf as (_ & _ & _ & Hp & _).
  destruct (firstOf_group _ _ _ Hf) as [others Hgroup].
  fold (patientGroup user allBookings (Conversation.id conv)) in Hgroup.
  exists first, others, k0.
  split; [exact Hgroup|].
  assert (Hemail : Conversation.patientEmail conv =
      or_else (Booking.patientEmail first)
        (or_else
           (match find (fun u => String.eqb (RegisteredUser.id u) (Conversation.id conv))
                       registeredUsers with
            | Some u => RegisteredUser.email u
            | None => None
            end) "patient@example.com")).
  { rewrite <- Hid. rewrite Hc. reflexivity. }
  split; [now rewrite Hc|]. split; [exact Hemail|]. split.
  { intros e He Hne. rewrite Hemail, He. simpl.
    destruct (String.eqb_spec e ""); [contradiction | reflexivity]. }
  split.
  { rewrite Hc. simpl. do 3 eexists. repeat split. }
  rewrite <- Hgroup. split.
  { intros Hdates.
    exists (hd first (Array_sort compareFn
                        (patientGroup user allBookings (Conversation.id conv)))).
    apply hd_Array_sort_latest; [|exact Hdates]. rewrite Hgroup. discriminate. }
  intros latest Hl. apply Hlatest in Hl. split.
  { rewrite Hc. unfold newConversation, conversationFor. cbv zeta. simpl.
    rewrite Hl. apply lastMessageFor_canned. }
  intros t Ht. apply referenceTime_spec in Ht.
  assert (Hstatus : Conversation.status conv = presence (Some t) (now k0)).
  { rewrite Hc. unfold newConversation, conversationFor. cbv zeta. simpl.
    now rewrite Hl, Ht. }
  rewrite Hstatus, presence_cases. unfold hour.
  destruct (Z.ltb_spec (now k0 - t) (2 * (1000 * 60 * 60)));
    destruct (Z.ltb_spec (now k0 - t) (24 * (1000 * 60 * 60)));
    repeat split; intros; try reflexivity; lia.
Qed.

(* ------------------------------------------------------------------ *)
(** ** The composer (lines 179-184) *)

Lemma handleSendMessage_conversations (s : PageState) :
  conversations (fst (handleSendMessage s)) = conversations s.
Proof.
  unfold handleSendMessage.
  now destruct (negb (truthy (trim (messageText s)))
                || negb match selectedConversation s with
                        | Some id => truthy id
                        | None => false
                        end)%bool.
Qed.

Lemma handleSendMessage_returns (s : PageState) :
  snd (handleSendMessage s) = Returned tt.
Proof.
  unfold handleSendMessage.
  now destruct (negb (truthy (trim (messageText s)))
                || negb match selectedConversation s with
                        | Some id => truthy id
                        | None => false
                        end)%bool.
Qed.

(** C1 as amended: a send with a draft that is not white space only and a
    selected conversation clears the draft and changes nothing else; no
    message is created and the conversations, with their last-message
    fields, stay as they were. *)
Theorem send_only_clears_draft (s : PageState) (conv : Conversation.t)
    (Hsel : selectedConv s = Some conv)
    (Hid : Conversation.id conv <> ""%string)
    (Htext : ~ whiteSpaceOnly (messageText s)) :
  handleSendMessage s =
    (mkPage (selectedConversation s) "" (searchTerm s) (conversations s), Returned tt) /\
  conversations (fst (handleSendMessage s)) = conversations s /\
  selectedConv (fst (handleSendMessage s)) = Some conv.
Proof.
  assert (E : handleSendMessage s =
    (mkPage (selectedConversation s) "" (searchTerm s) (conversations s), Returned tt)).
  { unfold handleSendMessage.
    unfold selectedConv in Hsel. apply find_some in Hsel as [_ Hsel].
    destruct (selectedConversation s) as [cid|]; [|discriminate].
    simpl in Hsel. apply String.eqb_eq in Hsel. subst cid.
    unfold truthy.
    destruct (String.eqb_spec (trim (messageText s)) "") as [Ht|_];
      [apply trim_empty_iff in Ht; contradiction|].
    destruct (String.eqb_spec (Conversation.id conv) ""); [contradiction|].
    reflexivity. }
  rewrite E. simpl. split; [reflexivity|]. split; [reflexivity|].
  exact Hsel.
Qed.

(** C2 as amended: a send with a draft that is empty or made of white
    space only (any white space or line terminator of Unicode that [trim]
    strips, the no-break space included) returns normally, without any
    error, and leaves the whole state as it was. *)
Theorem blank_send_is_ignored (s : PageState)
    (Hblank : whiteSpaceOnly (messageText s)) :
  handleSendMessage s = (s, Returned tt).
Proof.
  apply trim_empty_iff in Hblank.
  unfold handleSendMessage. rewrite Hblank. reflexivity.
Qed.

(* ------------------------------------------------------------------ *)
(** ** The last-message fields and the message sequence *)

(** C8: a derived conversation holds three messages of which, under a clock
    that never runs backwards, the third is the chronologically last, and
    [lastMessage] is its content; [lastMessageTime] however is not taken
    from that message: line 124 reads the clock again after line 112 has
    stamped the message.  The two agree when the clock did not advance
    between the two reads, and when it did [lastMessageTime] is the time
    stamp of no message of the conversation.  A send changes no
    conversation. *)
Theorem last_message_time_read_twice
    (now : Clock) (k : nat) (user : option User.t)
    (allBookings : list Booking.t) (registeredUsers : list RegisteredUser.t)
    (conv : Conversation.t)
    (Hclock : monotone now)
    (Hin : In conv (fst (deriveConversations now k user allBookings registeredUsers))) :
  (exists m1 m2 m3 k0,
      Conversation.messages conv = [m1; m2; m3] /\
      chronologicallyLast (Conversation.messages conv) m3 /\
      Conversation.lastMessage conv = Message.content m3 /\
      Message.timestamp m3 = now (k0 + 3)%nat - 2 * hour /\
      Conversation.lastMessageTime conv = now (k0 + 4)%nat - 2 * hour /\
      (now (k0 + 4)%nat = now (k0 + 3)%nat -> mirrorsLastMessage conv) /\
      (now (k0 + 3)%nat < now (k0 + 4)%nat -> ~ mirrorsLastMessage conv)) /\
  (forall s, conversations (fst (handleSendMessage s)) = conversations s).
Proof.
  split; [|exact handleSendMessage_conversations].
  destruct (derived_from_first now k user allBookings registeredUsers conv Hin)
    as (first & k0 & _ & _ & Hc).
  pose proof (Hclock (k0 + 1)%nat (k0 + 3)%nat ltac:(lia)) as H13.
  pose proof (Hclock (k0 + 2)%nat (k0 + 3)%nat ltac:(lia)) as H23.
  pose proof (Hclock (k0 + 1)%nat (k0 + 4)%nat ltac:(lia)) as H14.
  pose proof (Hclock (k0 + 2)%nat (k0 + 4)%nat ltac:(lia)) as H24.
  assert (Hlast : chronologicallyLast (Conversation.messages conv)
                    (Message.mk ("m_" ++ Booking.patientId first ++ "_3")
                       (Booking.patientId first) (Booking.patientName first)
                       (Conversation.lastMessage conv)
                       (now (k0 + 3)%nat - 2 * 60 * 60 * 1000) text
                       (Conversation.unreadCount conv =? 0))).
  { rewrite Hc. simpl. split; [right; right; left; reflexivity|].
    intros m' [<-|[<-|[<-|[]]]]; simpl; lia. }
  rewrite Hc in *. simpl in *. do 3 eexists. exists k0.
  split; [reflexivity|]. split; [exact Hlast|]. simpl. unfold hour.
  split; [reflexivity|]. split; [lia|]. split; [lia|]. split.
  - intros Heq. eexists. split; [exact Hlast|]. simpl. split; [reflexivity|]. lia.
  - intros Hlt (m & [Hm _] & _ & Htime). simpl in Htime.
    destruct Hm as [<-|[<-|[<-|[]]]]; simpl in Htime; lia.
Qed.

(* ------------------------------------------------------------------ *)
(** ** A refresh that cannot read the store *)

Lemma sameButReads_refl (w : World) : sameButReads w w.
Proof. repeat split. Qed.

Lemma sameButReads_trans (w1 w2 w3 : World) :
  sameButReads w1 w2 -> sameButReads w2 w3 -> sameButReads w1 w3.
Proof.
  unfold sameButReads.
  intros (A1 & A2 & A3 & A4 & A5 & A6 & A7) (B1 & B2 & B3 & B4 & B5 & B6 & B7).
  repeat split; congruence.
Qed.

Lemma findElement_error (p : string) (elements : list (option RegisteredUser.t))
    (e : JsError) :
  findElement p elements = Thrown e -> e = TypeError.
Proof.
  induction elements as [|[u|] rest IH]; simpl; intros H.
  - discriminate.
  - destruct (String.eqb (RegisteredUser.id u) p); [discriminate | auto].
  - congruence.
Qed.

(** The loop writes nothing but the count of clock reads. *)
Lemma forEachStored_frame (now : Clock) (user : option User.t)
    (registeredUsers : Parsed RegisteredUser.t) (therapistBookings : list Booking.t)
    (todo : list Booking.t) :
  forall patientMap w,
    sameButReads w
      (snd (forEachStored now user registeredUsers therapistBookings todo patientMap w)).
Proof.
  induction todo as [|b rest IH]; intros m w; simpl.
  - apply sameButReads_refl.
  - unfold bind. destruct registeredUsers as [|elements]; simpl.
    + apply sameButReads_refl.
    + destruct (findElement (Booking.patientId b) elements) as [pu|e];
        [|apply sameButReads_refl].
      destruct (Map_has m (Booking.patientId b)); [apply IH|].
      eapply sameButReads_trans; [|apply IH]. repeat split.
Qed.

(** The loop throws [TypeError] as soon as the look-up of one of its
    bookings does. *)
Lemma forEachStored_throws (now : Clock) (user : option User.t)
    (registeredUsers : Parsed RegisteredUser.t) (therapistBookings : list Booking.t)
    (todo : list Booking.t) (b : Booking.t) :
  In b todo -> findThrows registeredUsers (Booking.patientId b) ->
  forall patientMap w,
    fst (forEachStored now user registeredUsers therapistBookings todo patientMap w)
    = Thrown TypeError.
Proof.
  intros Hin Hthrows. induction todo as [|x rest IH]; [destruct Hin|].
  intros m w. simpl. unfold bind.
  destruct registeredUsers as [|elements]; simpl; [reflexivity|].
  destruct (findElement (Booking.patientId x) elements) as [pu|e] eqn:Hfind.
  - assert (Hrest : In b rest).
    { destruct Hin as [->|Hin]; [|exact Hin].
      simpl in Hthrows. congruence. }
    destruct (Map_has m (Booking.patientId x)); now apply IH.
  - simpl. now rewrite (findElement_error _ _ _ Hfind).
Qed.

Lemma filterElements_records (user : option User.t) (records : list Booking.t) :
  filterElements user (map Some records)
  = Returned (filter (isTherapistBooking user) records).
Proof.
  induction records as [|b l IH]; simpl; [reflexivity|]. rewrite IH.
  now destruct (isTherapistBooking user b).
Qed.

Lemma filterElements_null (user : option User.t) (elements : list (option Booking.t)) :
  In None elements -> filterElements user elements = Thrown TypeError.
Proof.
  induction elements as [|[b|] l IH]; simpl; intros H.
  - destruct H.
  - destruct H as [H|H]; [discriminate|]. now rewrite IH.
  - reflexivity.
Qed.

Lemma findElement_null (p : string) (front : list RegisteredUser.t)
    (rest : list (option RegisteredUser.t)) :
  (forall u, In u front -> RegisteredUser.id u <> p) ->
  findElement p (map Some front ++ None :: rest) = Thrown TypeError.
Proof.
  induction front as [|u l IH]; simpl; intros H; [reflexivity|].
  destruct (String.eqb_spec (RegisteredUser.id u) p) as [E|_].
  - exfalso. apply (H u); auto.
  - apply IH. intros v Hv. apply H. now right.
Qed.

Lemma JSON_parse_returns {A} (item : StoreItem A) (w : World) :
  item <> Unparsable -> exists parsed, JSON_parse item w = (Returned parsed, w).
Proof. destruct item; simpl; try contradiction; eexists; reflexivity. Qed.

(** Line 44, then line 45, then the rest. *)
Lemma loadConversations_bookings_unparsable (now : Clock) (user : option User.t)
    (w : World) :
  mindcare_bookings w = Unparsable ->
  loadConversations now user w = (Thrown SyntaxError, w).
Proof. intros H. unfold loadConversations, bind. now rewrite H. Qed.

Lemma loadConversations_users_unparsable (now : Clock) (user : option User.t)
    (w : World) :
  mindcare_bookings w <> Unparsable -> mindcare_registered_users w = Unparsable ->
  loadConversations now user w = (Thrown SyntaxError, w).
Proof.
  intros Hb Hu. destruct (JSON_parse_returns _ w Hb) as [parsed Hp].
  unfold loadConversations, bind. rewrite Hp, Hu. reflexivity.
Qed.

Lemma loadConversations_parsed (now : Clock) (user : option User.t) (w : World)
    (allBookings : Parsed Booking.t) (registeredUsers : Parsed RegisteredUser.t) :
  JSON_parse (mindcare_bookings w) w = (Returned allBookings, w) ->
  JSON_parse (mindcare_registered_users w) w = (Returned registeredUsers, w) ->
  loadConversations now user w =
  match Array_filter user allBookings w with
  | (Returned therapistBookings, w1) =>
      match forEachStored now user registeredUsers
              therapistBookings therapistBookings [] w1 with
      | (Returned patientMap, w2) => setConversations (Map_values patientMap) w2
      | (Thrown e, w2) => (Thrown e, w2)
      end
  | (Thrown e, w1) => (Thrown e, w1)
  end.
Proof. intros Hb Hu. unfold loadConversations, bind. now rewrite Hb, Hu. Qed.

(** A read that fails makes [loadConversations] throw, and what it leaves
    behind differs from the world it met in the count of clock reads at
    most. *)
Lemma loadConversations_throws (now : Clock) (user : option User.t)
    (w : World) (e : JsError) :
  ReadFails user w e ->
  fst (loadConversations now user w) = Thrown e /\
  sameButReads w (snd (loadConversations now user w)).
Proof.
  intros [Hb|Hb Hu|Hu Hb|records b Hb Hin Hm Hu].
  - rewrite loadConversations_bookings_unparsable by exact Hb.
    split; [reflexivity | apply sameButReads_refl].
  - rewrite loadConversations_users_unparsable by assumption.
    split; [reflexivity | apply sameButReads_refl].
  - destruct (JSON_parse_returns _ w Hu) as [parsed Hparse].
    assert (Hfilter : exists allBookings,
               JSON_parse (mindcare_bookings w) w = (Returned allBookings, w) /\
               Array_filter user allBookings w = (Thrown TypeError, w)).
    { destruct Hb as [Hb|[elements [Hb Hnull]]]; rewrite Hb.
      - exists NoArray. now split.
      - exists (ArrayOf elements). split; [reflexivity|]. simpl.
        now rewrite (filterElements_null user elements Hnull). }
    destruct Hfilter as (allBookings & Hparsed & Hfilter).
    rewrite (loadConversations_parsed now user w _ _ Hparsed Hparse), Hfilter.
    split; [reflexivity | apply sameButReads_refl].
  - assert (Hparsed : JSON_parse (mindcare_bookings w) w
                      = (Returned (ArrayOf (map Some records)), w)).
    { destruct Hb as [[Hb ->]|[Hb|Hb]]; now rewrite Hb. }
    assert (Husers : exists parsed,
               JSON_parse (mindcare_registered_users w) w = (Returned parsed, w) /\
               findThrows parsed (Booking.patientId b)).
    { destruct Hu as [Hu|(front & rest & Hu & Hfront)]; rewrite Hu.
      - exists NoArray. now split.
      - exists (ArrayOf (map Some front ++ None :: rest)). split; [reflexivity|].
        now apply findElement_null. }
    destruct Husers as (parsed & Hparse & Hthrows).
    rewrite (loadConversations_parsed now user w _ _ Hparsed Hparse).
    simpl. rewrite filterElements_records.
    assert (Hb' : In b (filter (isTherapistBooking user) records))
      by (apply filter_In; now split).
    pose proof (forEachStored_throws now user parsed
                  (filter (isTherapistBooking user) records) _ b Hb' Hthrows [] w) as Ht.
    pose proof (forEachStored_frame now user parsed
                  (filter (isTherapistBooking user) records)
                  (filter (isTherapistBooking user) records) [] w) as Hf.
    destruct (forEachStored now user parsed (filter (isTherapistBooking user) records)
                (filter (isTherapistBooking user) records) [] w) as [[pm|e'] w'].
    + discriminate Ht.
    + simpl in *. injection Ht as ->. split; [reflexivity | exact Hf].
Qed.

(** C7 as amended: on a refresh started by the timer or by a notification,
    when the read of the store fails (an item that is not JSON, a bookings
    value that is no array or holds [null], a users value in which the
    look-up of a matching booking's patient throws), [loadConversations]
    throws before it sets the conversations: the conversations, the
    interval, the listeners and the teardown stay as they were, and nothing
    catches the exception, which leaves the callback and reaches the host
    as an uncaught [SyntaxError] or [TypeError]; the body of the effect
    stops at its first statement. *)
Theorem failed_tick_keeps_collection
    (now : Clock) (user : option User.t)
    (toLowerCase : string -> string) (globals : list string)
    (t : Trigger) (w : World) (e : JsError)
    (Ht : t <> IdentityChanged)
    (Hfail : ReadFails user w e) :
  fst (loadConversations now user w) = Thrown e /\
  fst (effect now user w) = Thrown e /\
  interval (snd (effect now user w)) = interval w /\
  collectionRetained w (refresh now user toLowerCase globals t w) /\
  timerContinues w (refresh now user toLowerCase globals t w) /\
  page (refresh now user toLowerCase globals t w) = page w /\
  interval (refresh now user toLowerCase globals t w) = interval w /\
  listeners (refresh now user toLowerCase globals t w) = listeners w /\
  hasCleanup (refresh now user toLowerCase globals t w) = hasCleanup w /\
  (t = TimerElapsed -> interval w = true ->
   uncaught (refresh now user toLowerCase globals t w) = e :: uncaught w) /\
  (forall type, t = Notified type -> In type (listeners w) ->
   uncaught (refresh now user toLowerCase globals t w) = e :: uncaught w) /\
  (refresh now user toLowerCase globals t w = w \/
   uncaught (refresh now user toLowerCase globals t w) = e :: uncaught w).
Proof.
  destruct (loadConversations_throws now user w e Hfail)
    as [Hthrown (Hp & _ & _ & Hi & Hl & Hc & Hu)].
  split; [exact Hthrown|].
  assert (Heffect : effect now user w
                    = (Thrown e, snd (loadConversations now user w))).
  { unfold effect, bind.
    destruct (loadConversations now user w) as [[u|e'] w']; simpl in *; congruence. }
  split; [now rewrite Heffect|]. split; [now rewrite Heffect|].
  assert (Hcb : runCallback (loadConversations now user) w
                = with_uncaught (e :: uncaught (snd (loadConversations now user w)))
                    (snd (loadConversations now user w))).
  { unfold runCallback.
    destruct (loadConversations now user w) as [[u|e'] w']; simpl in *; congruence. }
  unfold collectionRetained, timerContinues.
  destruct t as [|type|]; [| |congruence]; simpl.
  - destruct (interval w) eqn:Hiw.
    + rewrite Hcb. simpl. rewrite Hp, Hi, Hl, Hc, Hu.
      repeat split; auto; try discriminate.
    + repeat split; auto; try discriminate.
  - destruct (existsb (String.eqb type) (listeners w)) eqn:Hex.
    + rewrite Hcb. simpl. rewrite Hp, Hi, Hl, Hc, Hu.
      repeat split; auto; try discriminate.
    + repeat split; auto; try discriminate.
      intros type' E Hin. injection E as <-.
      assert (existsb (String.eqb type) (listeners w) = true).
      { apply existsb_exists. exists type. split; [exact Hin | apply String.eqb_refl]. }
      congruence.
Qed.

(* ------------------------------------------------------------------ *)
(** ** Rendering *)

(** C10: no binding named [useEffect] is in scope ([useState] alone is
    imported from React), so the render throws [ReferenceError] at line 41
    whatever the state; mounting stops there: no clock read or derivation,
    no interval, no listener, no teardown held, and the conversations are the
    initial empty list; unmounting then has nothing to tear down. *)
Theorem render_throws_reference_error
    (now : Clock) (user : option User.t) (globals : list string)
    (bookings : StoreItem Booking.t) (registered : StoreItem RegisteredUser.t)
    (Hglobal : ~ In "useEffect"%string globals) :
  In "useState"%string moduleScope /\
  ~ In "useEffect"%string (functionScope ++ moduleScope) /\
  (forall w, fst (render globals w) = Thrown (ReferenceError "useEffect")) /\
  mount now user globals (unmounted bookings registered)
    = (Thrown (ReferenceError "useEffect"), unmounted bookings registered) /\
  conversations (page (snd (mount now user globals (unmounted bookings registered)))) = [] /\
  unmount (snd (mount now user globals (unmounted bookings registered)))
    = unmounted bookings registered.
Proof.
  assert (Hres : forall x, In x (functionScope ++ moduleScope) ->
                           resolve globals x = ret tt).
  { intros x Hx. unfold resolve.
    replace (existsb (String.eqb x) (functionScope ++ moduleScope ++ globals)) with true;
      [reflexivity|].
    symmetry. apply existsb_exists. exists x. split; [|apply String.eqb_refl].
    rewrite app_assoc. apply in_or_app. now left. }
  assert (Hnot : ~ In "useEffect"%string (functionScope ++ moduleScope)).
  { simpl. intros H.
    repeat (destruct H as [H|H]; [discriminate|]). exact H. }
  assert (Heff : resolve globals "useEffect" = throw (ReferenceError "useEffect")).
  { unfold resolve.
    replace (existsb (String.eqb "useEffect")
               (functionScope ++ moduleScope ++ globals)) with false; [reflexivity|].
    symmetry. apply not_true_is_false. intros H.
    apply existsb_exists in H as [x [Hx Hxe]]. apply String.eqb_eq in Hxe. subst x.
    rewrite app_assoc in Hx. apply in_app_or in Hx as [Hx|Hx]; contradiction. }
  assert (Hrender : forall w,
            render globals w =
            (Thrown (ReferenceError "useEffect"), with_page initialPage w)).
  { intros w. unfold render, useState.
    rewrite !Hres by (simpl; tauto). rewrite Heff. reflexivity. }
  assert (Hmount : mount now user globals (unmounted bookings registered)
            = (Thrown (ReferenceError "useEffect"), unmounted bookings registered)).
  { unfold mount, bind. rewrite Hrender. reflexivity. }
  split; [simpl; tauto|]. split; [exact Hnot|]. split.
  { intros w. now rewrite Hrender. }
  split; [exact Hmount|]. rewrite Hmount. split; reflexivity.
Qed.


(* ------------------------------------------------------------------ *)
(** ** The properties on the sample data *)

Lemma ann_thread_derived : In Sample.ann_thread Sample.derived.
Proof. left. reflexivity. Qed.

(** The later booking of [p1] is under the name "Ann B." and pending;
    the thread shows the name and email of the first booking and the
    message and unread count of the later one. *)
Example ann_thread_fields :
  Conversation.patientName Sample.ann_thread = "Ann"%string /\
  Conversation.patientEmail Sample.ann_thread = "ann@example.org"%string /\
  Conversation.lastMessage Sample.ann_thread
    = "I just booked an appointment. Can you confirm the time?"%string /\
  Conversation.unreadCount Sample.ann_thread = 1 /\
  map Conversation.id Sample.derived = ["p1"; "p3"]%string.
Proof. repeat split. Qed.

(** One confirmed booking made an hour ago: one conversation, online,
    nothing unread, the reminder text. *)
Example scenario_confirmed_hour_ago :
  map (fun c => (Conversation.id c, Conversation.status c,
                 Conversation.unreadCount c, Conversation.lastMessage c))
      (fst (deriveConversations Sample.frozen 0 Sample.therapist
              [Sample.confirmed_hour_ago] []))
  = [("P1"%string, online, 0, "See you at our scheduled appointment."%string)].
Proof. reflexivity. Qed.

(** One pending booking made thirty hours ago: offline, one unread. *)
Example scenario_pending_long_ago :
  map (fun c => (Conversation.id c, Conversation.status c, Conversation.unreadCount c))
      (fst (deriveConversations Sample.frozen 0 Sample.therapist
              [Sample.pending_long_ago] []))
  = [("P2"%string, offline, 1)].
Proof. reflexivity. Qed.

(** Two bookings with the same reference time: the first of the collection
    is the latest. *)
Example scenario_tie_keeps_first :
  latestBookingOf [Sample.tie_first; Sample.tie_second] Sample.tie_second
    = Sample.tie_first /\
  latestBookingOf [Sample.tie_second; Sample.tie_first] Sample.tie_first
    = Sample.tie_second.
Proof. split; reflexivity. Qed.

(** Under a clock that stands still the thread of [p1] does mirror its
    last message. *)
Example frozen_clock_mirrors :
  forall conv,
    In conv (fst (deriveConversations Sample.frozen 0 Sample.therapist
                    Sample.bookings Sample.users)) ->
    mirrorsLastMessage conv.
Proof.
  intros conv [<-|[<-|[]]];
    (eexists; split; [split; [right; right; left; reflexivity|] | split; reflexivity]);
    intros m' [<-|[<-|[<-|[]]]]; simpl; lia.
Qed.

Lemma latest_booking_decides_last_message_witness :
  (exists latest,
      isLatestOf (patientGroup Sample.therapist Sample.bookings
                    (Conversation.id Sample.ann_thread)) latest) /\
  (forall latest,
      isLatestOf (patientGroup Sample.therapist Sample.bookings
                    (Conversation.id Sample.ann_thread)) latest ->
      (Booking.status latest = "completed"%string ->
         Conversation.lastMessage Sample.ann_thread
           = "Thank you for the session today. I feel much better."%string /\
         Conversation.unreadCount Sample.ann_thread = 0) /\
      (Booking.status latest = "pending_confirmation"%string ->
         Conversation.lastMessage Sample.ann_thread
           = "I just booked an appointment. Can you confirm the time?"%string /\
         Conversation.unreadCount Sample.ann_thread = 1) /\
      (Booking.status latest = "confirmed"%string ->
         Conversation.lastMessage Sample.ann_thread
           = "See you at our scheduled appointment."%string /\
         Conversation.unreadCount Sample.ann_thread = 0) /\
      (Booking.status latest <> "completed"%string ->
       Booking.status latest <> "pending_confirmation"%string ->
       Booking.status latest <> "confirmed"%string ->
         Conversation.lastMessage Sample.ann_thread
           = "Looking forward to our session."%string /\
         Conversation.unreadCount Sample.ann_thread = 0)).
Proof.
  apply (latest_booking_decides_last_message Sample.ticking 0 Sample.therapist
           Sample.bookings Sample.users Sample.ann_thread).
  - left. reflexivity.
  - intros b [<-|[<-|[]]].
    + exists 1000. apply created. reflexivity.
    + exists 5000. apply appointed; reflexivity.
Defined.

(** In the sample the latest booking of [p1] is the later one, which is
    not the first of the collection. *)
Example ann_later_is_latest :
  isLatestOf (patientGroup Sample.therapist Sample.bookings "p1") Sample.ann_later.
Proof.
  exists [Sample.ann_first], []. split; [reflexivity|]. split; [|constructor].
  constructor; [|constructor]. exists 1000, 5000.
  split; [apply created; reflexivity|].
  split; [apply appointed; reflexivity | lia].
Qed.

Lemma identity_from_first_booking_witness :
  exists first others k0,
    patientGroup Sample.therapist Sample.bookings
      (Conversation.id Sample.ann_thread) = first :: others /\
    Conversation.patientName Sample.ann_thread = Booking.patientName first /\
    Conversation.patientEmail Sample.ann_thread =
      or_else (Booking.patientEmail first)
        (or_else
           (match find (fun u => String.eqb (RegisteredUser.id u)
                                   (Conversation.id Sample.ann_thread))
                       Sample.users with
            | Some u => RegisteredUser.email u
            | None => None
            end) "patient@example.com") /\
    (forall e, Booking.patientEmail first = Some e -> e <> ""%string ->
               Conversation.patientEmail Sample.ann_thread = e) /\
    (exists m1 m2 m3,
        Conversation.messages Sample.ann_thread = [m1; m2; m3] /\
        Message.senderId m1 = Conversation.id Sample.ann_thread /\
        Message.senderName m1 = Booking.patientName first /\
        Message.content m2 =
          ("Hello " ++ Booking.patientName first
                    ++ "! I'm glad you reached out. How are you feeling today?")%string /\
        Message.senderId m3 = Conversation.id Sample.ann_thread /\
        Message.senderName m3 = Booking.patientName first) /\
    ((forall b, In b (first :: others) -> exists t, ReferenceTime b t) ->
     exists latest, isLatestOf (first :: others) latest) /\
    (forall latest, isLatestOf (first :: others) latest ->
       Canned (Booking.status latest)
              (Conversation.lastMessage Sample.ann_thread)
              (Conversation.unreadCount Sample.ann_thread) /\
       (forall t, ReferenceTime latest t ->
          (Sample.ticking k0 - t < 2 * hour ->
           Conversation.status Sample.ann_thread = online) /\
          (2 * hour <= Sample.ticking k0 - t < 24 * hour ->
           Conversation.status Sample.ann_thread = away) /\
          (24 * hour <= Sample.ticking k0 - t ->
           Conversation.status Sample.ann_thread = offline))).
Proof.
  apply (identity_from_first_booking Sample.ticking 0 Sample.therapist
           Sample.bookings Sample.users Sample.ann_thread).
  left. reflexivity.
Defined.

(** C1, as stated, fails: a send with a draft and the thread of [p1] open
    adds no message to that thread. *)
Lemma send_appends_no_message :
  ~ sendAppendsMessage Sample.therapist 100000000 Sample.draft_page.
Proof.
  intros H.
  destruct (H Sample.ann_thread) as (conv' & m & Hsel & Hmsgs & _).
  - reflexivity.
  - intros Hblank. apply trim_empty_iff in Hblank. vm_compute in Hblank.
    discriminate Hblank.
  - vm_compute in Hsel. injection Hsel as <-.
    apply (f_equal (@List.length Message.t)) in Hmsgs.
    rewrite length_app in Hmsgs. simpl in Hmsgs. lia.
Qed.

Lemma send_only_clears_draft_witness :
  handleSendMessage Sample.draft_page =
    (mkPage (selectedConversation Sample.draft_page) ""
            (searchTerm Sample.draft_page) (conversations Sample.draft_page),
     Returned tt) /\
  conversations (fst (handleSendMessage Sample.draft_page))
    = conversations Sample.draft_page /\
  selectedConv (fst (handleSendMessage Sample.draft_page))
    = Some Sample.ann_thread.
Proof.
  apply (send_only_clears_draft Sample.draft_page Sample.ann_thread).
  - reflexivity.
  - discriminate.
  - intros Hblank. apply trim_empty_iff in Hblank. vm_compute in Hblank.
    discriminate Hblank.
Defined.

(** C2, as stated, fails: a send of spaces only returns normally; no error
    reaches the caller. *)
Lemma blank_send_raises_nothing : ~ sendRejectsBlank Sample.blank_page.
Proof.
  intros H. destruct H as [[e He] _].
  - exists [32; 32; 32]%N. split; [|reflexivity].
    intros c [<-|[<-|[<-|[]]]]; vm_compute; pick_code_point.
  - rewrite handleSendMessage_returns in He. discriminate.
Qed.

Lemma blank_send_is_ignored_witness :
  handleSendMessage Sample.wide_blank_page = (Sample.wide_blank_page, Returned tt).
Proof.
  apply (blank_send_is_ignored Sample.wide_blank_page).
  exists [32; 160; 12288]%N. split; [|reflexivity].
  intros c [<-|[<-|[<-|[]]]]; vm_compute; pick_code_point.
Defined.

(** The no-break space alone is a blank draft: the send button is disabled
    (line 397) and the send is ignored. *)
Example no_break_space_is_blank :
  trim (utf8String [160]%N) = ""%string /\
  handleSendMessage (setMessageText (utf8String [160]%N) Sample.draft_page)
  = (setMessageText (utf8String [160]%N) Sample.draft_page, Returned tt).
Proof. split; reflexivity. Qed.

(** On the sample data, where the clock advances by a millisecond at every
    read, the derived thread of [p1] has a [lastMessageTime] (92800004)
    that is the time stamp of none of its messages (the last is stamped
    92800003). *)
Lemma derived_thread_time_differs :
  Conversation.lastMessageTime Sample.ann_thread = 92800004 /\
  map Message.timestamp (Conversation.messages Sample.ann_thread)
    = [85600001; 89200002; 92800003] /\
  ~ (forall conv, In conv Sample.derived -> mirrorsLastMessage conv).
Proof.
  split; [reflexivity|]. split; [reflexivity|].
  intros H.
  destruct (H Sample.ann_thread ann_thread_derived)
    as (m & [Hm _] & _ & Htime).
  destruct Hm as [<-|[<-|[<-|[]]]]; discriminate.
Qed.

Lemma last_message_time_read_twice_witness :
  (exists m1 m2 m3 k0,
      Conversation.messages Sample.ann_thread = [m1; m2; m3] /\
      chronologicallyLast (Conversation.messages Sample.ann_thread) m3 /\
      Conversation.lastMessage Sample.ann_thread = Message.content m3 /\
      Message.timestamp m3 = Sample.ticking (k0 + 3)%nat - 2 * hour /\
      Conversation.lastMessageTime Sample.ann_thread
        = Sample.ticking (k0 + 4)%nat - 2 * hour /\
      (Sample.ticking (k0 + 4)%nat = Sample.ticking (k0 + 3)%nat ->
       mirrorsLastMessage Sample.ann_thread) /\
      (Sample.ticking (k0 + 3)%nat < Sample.ticking (k0 + 4)%nat ->
       ~ mirrorsLastMessage Sample.ann_thread)) /\
  (forall s, conversations (fst (handleSendMessage s)) = conversations s).
Proof.
  apply (last_message_time_read_twice Sample.ticking 0 Sample.therapist
           Sample.bookings Sample.users Sample.ann_thread).
  - intros i j Hij. unfold Sample.ticking. lia.
  - left. reflexivity.
Defined.

(** C7, as stated, fails on three counts.  When the identity changes while
    the bookings item is not JSON, the teardown of the previous run clears
    the interval and the new run throws before [setInterval]: no timer is
    left.  On a timer tick with the same store the exception leaves the
    callback: the host sees an uncaught error, not a warning.  And on a
    timer tick with a users item that holds an object and no bookings, the
    malformed data goes unnoticed: the refresh is not abandoned and the
    conversations are replaced by the empty list. *)
Lemma refresh_failure_not_contained :
  ~ failureContained Sample.ticking Sample.therapist Sample.lowerCase
      Sample.globals_with_hook IdentityChanged Sample.running_unparsable /\
  ~ failureContained Sample.ticking Sample.therapist Sample.lowerCase
      Sample.globals_with_hook TimerElapsed Sample.running_unparsable /\
  ~ failureContained Sample.ticking Sample.therapist Sample.lowerCase
      Sample.globals_with_hook TimerElapsed Sample.running_malformed.
Proof.
  split; [|split]; intros H.
  - destruct H as (_ & Htimer & _); [left; reflexivity|].
    specialize (Htimer eq_refl). vm_compute in Htimer. discriminate Htimer.
  - destruct H as (_ & _ & Hwarning); [left; reflexivity|].
    vm_compute in Hwarning. discriminate Hwarning.
  - destruct H as (Hkept & _); [right; right; right; left; reflexivity|].
    vm_compute in Hkept. discriminate Hkept.
Qed.

Lemma failed_tick_keeps_collection_witness :
  fst (loadConversations Sample.ticking Sample.therapist Sample.running_unparsable)
    = Thrown SyntaxError /\
  fst (effect Sample.ticking Sample.therapist Sample.running_unparsable)
    = Thrown SyntaxError /\
  interval (snd (effect Sample.ticking Sample.therapist Sample.running_unparsable))
    = interval Sample.running_unparsable /\
  collectionRetained Sample.running_unparsable
    (refresh Sample.ticking Sample.therapist Sample.lowerCase Sample.globals_with_hook
       TimerElapsed Sample.running_unparsable) /\
  timerContinues Sample.running_unparsable
    (refresh Sample.ticking Sample.therapist Sample.lowerCase Sample.globals_with_hook
       TimerElapsed Sample.running_unparsable) /\
  page (refresh Sample.ticking Sample.therapist Sample.lowerCase
          Sample.globals_with_hook TimerElapsed Sample.running_unparsable)
    = page Sample.running_unparsable /\
  interval (refresh Sample.ticking Sample.therapist Sample.lowerCase
              Sample.globals_with_hook TimerElapsed Sample.running_unparsable)
    = interval Sample.running_unparsable /\
  listeners (refresh Sample.ticking Sample.therapist Sample.lowerCase
               Sample.globals_with_hook TimerElapsed Sample.running_unparsable)
    = listeners Sample.running_unparsable /\
  hasCleanup (refresh Sample.ticking Sample.therapist Sample.lowerCase
                Sample.globals_with_hook TimerElapsed Sample.running_unparsable)
    = hasCleanup Sample.running_unparsable /\
  (TimerElapsed = TimerElapsed -> interval Sample.running_unparsable = true ->
   uncaught (refresh Sample.ticking Sample.therapist Sample.lowerCase
               Sample.globals_with_hook TimerElapsed Sample.running_unparsable)
     = SyntaxError :: uncaught Sample.running_unparsable) /\
  (forall type, TimerElapsed = Notified type ->
   In type (listeners Sample.running_unparsable) ->
   uncaught (refresh Sample.ticking Sample.therapist Sample.lowerCase
               Sample.globals_with_hook TimerElapsed Sample.running_unparsable)
     = SyntaxError :: uncaught Sample.running_unparsable) /\
  (refresh Sample.ticking Sample.therapist Sample.lowerCase Sample.globals_with_hook
     TimerElapsed Sample.running_unparsable = Sample.running_unparsable \/
   uncaught (refresh Sample.ticking Sample.therapist Sample.lowerCase
               Sample.globals_with_hook TimerElapsed Sample.running_unparsable)
     = SyntaxError :: uncaught Sample.running_unparsable).
Proof.
  apply (failed_tick_keeps_collection Sample.ticking Sample.therapist Sample.lowerCase
           Sample.globals_with_hook TimerElapsed Sample.running_unparsable SyntaxError).
  - discriminate.
  - apply bookings_unparsable. reflexivity.
Defined.

(** A users item that holds an object makes the refresh throw [TypeError]
    as soon as a booking matches. *)
Example users_object_throws :
  loadConversations Sample.ticking Sample.therapist
    (mkWorld initialPage (Stored Sample.bookings) NotArray 0 true [] true [])
  = (Thrown TypeError,
     mkWorld initialPage (Stored Sample.bookings) NotArray 0 true [] true []).
Proof. reflexivity. Qed.

(** The sample [toLowerCase] lower-cases ASCII text as the search
    properties assume. *)
Lemma lowerCase_lowersAscii : lowersAscii Sample.lowerCase.
Proof.
  intros s Hs. unfold Sample.lowerCase.
  destruct (Sample.greekCapitals s) eqn:E; [|reflexivity].
  destruct s as [|a [|b rest]]; [reflexivity | discriminate E |].
  exfalso. simpl in E.
  repeat (apply andb_true_iff in E as [E _]).
  apply Nat.eqb_eq in E.
  assert (H : (nat_of_ascii a < 128)%nat) by (apply Hs; now left). lia.
Qed.



(** On ASCII text the search does ignore case. *)
Example search_ascii_ignores_case :
  map Conversation.id
      (filteredConversations Sample.lowerCase (mkPage None "" "aNN" Sample.derived))
  = ["p1"%string] /\
  map Conversation.id
      (filteredConversations Sample.lowerCase (mkPage None "" "THANK" Sample.derived))
  = ["p3"%string].
Proof. split; reflexivity. Qed.

Lemma render_throws_reference_error_witness :
  In "useState"%string moduleScope /\
  ~ In "useEffect"%string (functionScope ++ moduleScope) /\
  (forall w, fst (render Sample.browser_globals w)
             = Thrown (ReferenceError "useEffect")) /\
  mount Sample.ticking Sample.therapist Sample.browser_globals
        (unmounted (Stored Sample.bookings) (Stored Sample.users))
    = (Thrown (ReferenceError "useEffect"),
       unmounted (Stored Sample.bookings) (Stored Sample.users)) /\
  conversations
    (page (snd (mount Sample.ticking Sample.therapist Sample.browser_globals
                  (unmounted (Stored Sample.bookings) (Stored Sample.users))))) = [] /\
  unmount (snd (mount Sample.ticking Sample.therapist Sample.browser_globals
                  (unmounted (Stored Sample.bookings) (Stored Sample.users))))
    = unmounted (Stored Sample.bookings) (Stored Sample.users).
Proof.
  apply (render_throws_reference_error Sample.ticking Sample.therapist
           Sample.browser_globals (Stored Sample.bookings) (Stored Sample.users)).
  simpl. intros H. repeat (destruct H as [H|H]; [discriminate|]). exact H.
Defined.


(* ================================================================== *)
(** * Further properties of the page *)

(* ------------------------------------------------------------------ *)
(** ** Relative times (lines 166-175) *)

(** X1: for two time values of the range of [Date] that are no more than
    2^53 ms apart (beyond that the subtraction of line 168 is rounded),
    [formatTime] says "Just now" for anything less than an hour old, dates
    in the future included, counts whole hours from one hour up to a day,
    and whole days from then on. *)
Theorem formatTime_buckets (now date : Z)
    (Hnow : Z.abs now <= 8640000000000000)
    (Hdate : Z.abs date <= 8640000000000000)
    (Hexact : Z.abs (now - date) <= 2 ^ 53) :
  (now - date < hour -> formatTime now date = "Just now"%string) /\
  (hour <= now - date < 24 * hour ->
     formatTime now date = (Number_toString ((now - date) / hour) ++ "h ago")%string) /\
  (24 * hour <= now - date ->
     formatTime now date
       = (Number_toString ((now - date) / (24 * hour)) ++ "d ago")%string).
Proof.
  clear Hnow Hdate Hexact.
  unfold formatTime, hour. cbv zeta.
  change (1000 * 60 * 60) with 3600000.
  assert (Hdd : (now - date) / 3600000 / 24 = (now - date) / (24 * 3600000)).
  { rewrite Z.div_div by lia. f_equal. }
  pose proof (Z.div_mod (now - date) 3600000 ltac:(lia)) as Hh.
  pose proof (Z.mod_pos_bound (now - date) 3600000 ltac:(lia)) as Hhb.
  pose proof (Z.div_mod ((now - date) / 3600000) 24 ltac:(lia)) as Hd.
  pose proof (Z.mod_pos_bound ((now - date) / 3600000) 24 ltac:(lia)) as Hdb.
  split; [|split]; intros H.
  - destruct (Z.ltb_spec 0 ((now - date) / 3600000 / 24)); [lia|].
    destruct (Z.ltb_spec 0 ((now - date) / 3600000)); [lia|]. reflexivity.
  - destruct (Z.ltb_spec 0 ((now - date) / 3600000 / 24)); [lia|].
    destruct (Z.ltb_spec 0 ((now - date) / 3600000)); [reflexivity|lia].
  - destruct (Z.ltb_spec 0 ((now - date) / 3600000 / 24)); [|lia].
    now rewrite Hdd.
Qed.

Lemma formatTime_buckets_witness :
  (100000000 - 92800004 < hour ->
   formatTime 100000000 92800004 = "Just now"%string) /\
  (hour <= 100000000 - 92800004 < 24 * hour ->
     formatTime 100000000 92800004
     = (Number_toString ((100000000 - 92800004) / hour) ++ "h ago")%string) /\
  (24 * hour <= 100000000 - 92800004 ->
     formatTime 100000000 92800004
       = (Number_toString ((100000000 - 92800004) / (24 * hour)) ++ "d ago")%string).
Proof.
  apply (formatTime_buckets 100000000 92800004); simpl; lia.
Defined.

(* ------------------------------------------------------------------ *)
(** ** Status colours (lines 157-164) *)

(** X3: the three statuses get three different colours, and any other
    string is coloured like offline. *)
Theorem getStatusColor_distinct :
  (forall p q,
      getStatusColor (Presence_toString p) = getStatusColor (Presence_toString q) ->
      p = q) /\
  (forall s, s <> "online"%string -> s <> "away"%string ->
             getStatusColor s = getStatusColor "offline").
Proof.
  split.
  - intros [] []; simpl; intros H; try reflexivity; discriminate.
  - intros s H1 H2. unfold getStatusColor.
    destruct (String.eqb_spec s "online"); [contradiction|].
    destruct (String.eqb_spec s "away"); [contradiction|].
    now destruct (String.eqb s "offline").
Qed.

(* ------------------------------------------------------------------ *)
(** ** Presence outside the range of elapsed times (lines 80-85) *)

(** X4: a reference time that lies in the future, as an appointment date
    usually does, gives online; a reference time that is no date gives
    offline whatever the clock says. *)
Theorem presence_future_and_undated (t now : Z) :
  (now < t -> presence (Some t) now = online) /\
  presence None now = offline /\
  (forall b, Booking.createdAt b = NoDate -> Booking.date b = DateAt t -> now < t ->
             presence (referenceTime b) now = online).
Proof.
  assert (H : now < t -> presence (Some t) now = online).
  { intros Hlt. rewrite presence_cases. unfold hour.
    destruct (Z.ltb_spec (now - t) (2 * (1000 * 60 * 60))); [reflexivity|lia]. }
  split; [exact H|]. split; [reflexivity|].
  intros b Hc Hd Hlt. unfold referenceTime. rewrite Hc, Hd. simpl. now apply H.
Qed.

(* ------------------------------------------------------------------ *)
(** ** The composer without a resolvable selection (lines 179-184) *)

(** X5: the guard looks at the selected identifier only, not at the
    conversations: with a draft that is not white space only and an
    identifier selected that no conversation has, the send still returns
    normally and clears the draft. *)
Theorem send_with_dangling_selection (s : PageState) (id : string)
    (Hsel : selectedConversation s = Some id)
    (Hid : id <> ""%string)
    (Hnone : selectedConv s = None)
    (Htext : ~ whiteSpaceOnly (messageText s)) :
  handleSendMessage s = (setMessageText "" s, Returned tt).
Proof.
  unfold handleSendMessage, truthy. rewrite Hsel.
  destruct (String.eqb_spec (trim (messageText s)) "") as [Ht|_];
    [apply trim_empty_iff in Ht; contradiction|].
  destruct (String.eqb_spec id ""); [contradiction|].
  simpl. unfold setMessageText. now rewrite Hsel.
Qed.

(** X6: with nothing selected, or with the empty identifier selected, the
    send is ignored and the draft is kept, whatever the text. *)
Theorem send_without_selection (s : PageState)
    (Hsel : selectedConversation s = None \/ selectedConversation s = Some ""%string) :
  handleSendMessage s = (s, Returned tt).
Proof.
  unfold handleSendMessage.
  destruct Hsel as [-> | ->]; cbn [truthy String.eqb negb]; now rewrite orb_true_r.
Qed.

(* ------------------------------------------------------------------ *)
(** ** More on the search (lines 186-189, 214) *)

Lemma includes_weaken (x pre t post : string) :
  includes x (pre ++ t ++ post) = true -> includes x t = true.
Proof.
  rewrite !includes_spec. intros (a & b & ->).
  exists (a ++ pre)%string, (post ++ b)%string.
  now rewrite !string_app_assoc.
Qed.

Lemma matchesSearch_ascii (toLowerCase : string -> string)
    (term : string) (conv : Conversation.t) :
  lowersAscii toLowerCase -> isAscii term ->
  isAscii (Conversation.patientName conv) -> isAscii (Conversation.lastMessage conv) ->
  matchesSearch toLowerCase term conv = matchesSearch asciiLowerCase term conv.
Proof.
  intros Hlower Ht Hn Hm. unfold matchesSearch.
  now rewrite (Hlower term Ht), (Hlower _ Hn), (Hlower _ Hm).
Qed.

Lemma matchesSearch_weaken (pre term post : string) (conv : Conversation.t) :
  matchesSearch asciiLowerCase (pre ++ term ++ post) conv = true ->
  matchesSearch asciiLowerCase term conv = true.
Proof.
  unfold matchesSearch. rewrite !asciiLowerCase_app, !orb_true_iff.
  intros [H|H]; [left|right]; eapply includes_weaken; exact H.
Qed.

(** On conversations that all pass [p] wherever they pass [q], filtering by
    [q] what [p] has kept is filtering by [q]. *)
Lemma filter_narrow (p q : Conversation.t -> bool) (l : list Conversation.t) :
  (forall x, In x l -> q x = true -> p x = true) ->
  filter q (filter p l) = filter q l.
Proof.
  induction l as [|x l IH]; intros Hqp; [reflexivity|]. cbn [filter].
  assert (Hl : forall y, In y l -> q y = true -> p y = true)
    by (intros y Hy; apply Hqp; now right).
  destruct (p x) eqn:Hp.
  - cbn [filter]. now rewrite (IH Hl).
  - destruct (q x) eqn:Hq; [|exact (IH Hl)].
    rewrite (Hqp x (or_introl eq_refl) Hq) in Hp. discriminate Hp.
Qed.

(** X7: on ASCII text (the term, what is typed and the names and last
    messages of the conversations), typing more characters in front of or
    behind the search term only narrows the list: the new list is the old
    list filtered by the new term, so no conversation comes back and the
    order is kept. *)
Theorem search_narrows
    (toLowerCase : string -> string) (s : PageState) (pre post : string)
    (Hlower : lowersAscii toLowerCase)
    (Hterm : isAscii pre /\ isAscii (searchTerm s) /\ isAscii post)
    (Hconvs : forall conv, In conv (conversations s) ->
                isAscii (Conversation.patientName conv) /\
                isAscii (Conversation.lastMessage conv)) :
  filteredConversations toLowerCase (setSearchTerm (pre ++ searchTerm s ++ post) s)
  = filter (matchesSearch toLowerCase (pre ++ searchTerm s ++ post))
           (filteredConversations toLowerCase s) /\
  (forall conv,
      In conv (filteredConversations toLowerCase
                 (setSearchTerm (pre ++ searchTerm s ++ post) s)) ->
      In conv (filteredConversations toLowerCase s)).
Proof.
  destruct Hterm as (Hpre & Ht & Hpost).
  assert (Hlong : isAscii (pre ++ searchTerm s ++ post))
    by (apply isAscii_app; [exact Hpre | apply isAscii_app; assumption]).
  assert (E : filteredConversations toLowerCase
                (setSearchTerm (pre ++ searchTerm s ++ post) s)
              = filter (matchesSearch toLowerCase (pre ++ searchTerm s ++ post))
                       (filteredConversations toLowerCase s)).
  { unfold filteredConversations. simpl. symmetry. apply filter_narrow.
    intros conv Hin. destruct (Hconvs conv Hin) as [Hn Hm].
    rewrite !(matchesSearch_ascii toLowerCase) by assumption.
    apply matchesSearch_weaken. }
  split; [exact E|]. intros conv. rewrite E. intros H.
  now apply filter_In in H as [H _].
Qed.

Lemma search_narrows_witness :
  filteredConversations Sample.lowerCase
    (setSearchTerm ("a" ++ searchTerm (mkPage None "" "N" Sample.derived) ++ "n")
       (mkPage None "" "N" Sample.derived))
  = filter (matchesSearch Sample.lowerCase
              ("a" ++ searchTerm (mkPage None "" "N" Sample.derived) ++ "n"))
           (filteredConversations Sample.lowerCase (mkPage None "" "N" Sample.derived)) /\
  (forall conv,
      In conv (filteredConversations Sample.lowerCase
                 (setSearchTerm
                    ("a" ++ searchTerm (mkPage None "" "N" Sample.derived) ++ "n")
                    (mkPage None "" "N" Sample.derived))) ->
      In conv (filteredConversations Sample.lowerCase
                 (mkPage None "" "N" Sample.derived))).
Proof.
  apply (search_narrows Sample.lowerCase (mkPage None "" "N" Sample.derived) "a" "n").
  - exact lowerCase_lowersAscii.
  - repeat split; intros c Hc; simpl in Hc;
      repeat (destruct Hc as [<-|Hc]; [vm_compute; lia|]); destruct Hc.
  - intros conv [<-|[<-|[]]]; split; intros c Hc; vm_compute in Hc;
      repeat (destruct Hc as [<-|Hc]; [vm_compute; lia|]); destruct Hc.
Defined.

(** X8: on ASCII terms the case of the letters does not matter: two terms
    that are equal up to the case of their letters list the same
    conversations. *)
Theorem search_ignores_case_of_term
    (toLowerCase : string -> string) (s : PageState) (term : string)
    (Hlower : lowersAscii toLowerCase)
    (Hascii : isAscii term /\ isAscii (searchTerm s))
    (Hsame : equalIgnoringCase term (searchTerm s)) :
  filteredConversations toLowerCase (setSearchTerm term s)
  = filteredConversations toLowerCase s.
Proof.
  destruct Hascii as [Ht Hs]. apply asciiLowerCase_equal in Hsame.
  unfold filteredConversations. simpl.
  apply filter_ext. intros conv. unfold matchesSearch.
  now rewrite (Hlower term Ht), (Hlower _ Hs), Hsame.
Qed.

Lemma search_ignores_case_of_term_witness :
  filteredConversations Sample.lowerCase
    (setSearchTerm "aNn" (mkPage None "" "Ann" Sample.derived))
  = filteredConversations Sample.lowerCase (mkPage None "" "Ann" Sample.derived).
Proof.
  apply (search_ignores_case_of_term Sample.lowerCase
           (mkPage None "" "Ann" Sample.derived) "aNn").
  - exact lowerCase_lowersAscii.
  - split; intros c Hc; simpl in Hc;
      repeat (destruct Hc as [<-|Hc]; [vm_compute; lia|]); destruct Hc.
  - cbn [equalIgnoringCase]. unfold sameLetter. repeat split; vm_compute; lia.
Defined.

(* ------------------------------------------------------------------ *)
(** ** Opening a conversation from the list (lines 177, 226-230) *)

Lemma strict_eq_Some (x y : string) : strict_eq (Some x) (Some y) = String.eqb x y.
Proof. reflexivity. Qed.

Lemma find_by_unique_id (l : list Conversation.t) (conv : Conversation.t) :
  NoDup (map Conversation.id l) -> In conv l ->
  find (fun c => strict_eq (Some (Conversation.id c)) (Some (Conversation.id conv))) l
  = Some conv.
Proof.
  induction l as [|c l IH]; intros Hnd Hin; [contradiction|].
  simpl in *. inversion Hnd as [|? ? Hnotin Hnd']; subst.
  destruct (String.eqb_spec (Conversation.id c) (Conversation.id conv)) as [E|NE].
  - destruct Hin as [->|Hin]; [reflexivity|].
    exfalso. apply Hnotin. rewrite E. now apply in_map.
  - destruct Hin as [->|Hin]; [congruence|]. now apply IH.
Qed.

(** Filtering the conversations by a search term keeps their identifiers
    distinct. *)
Lemma listed_ids_distinct (toLowerCase : string -> string) (term : string)
    (convs : list Conversation.t) :
  NoDup (map Conversation.id convs) ->
  NoDup (map Conversation.id (filter (matchesSearch toLowerCase term) convs)).
Proof.
  induction convs as [|c convs IH]; intros Hids; [exact Hids|].
  apply NoDup_cons_iff in Hids as [Hfresh Hrest]. cbn [filter].
  destruct (matchesSearch toLowerCase term c); [|exact (IH Hrest)].
  cbn [map]. apply NoDup_cons; [|exact (IH Hrest)].
  intros Hdup. apply Hfresh.
  apply in_map_iff in Hdup as (c' & Hid & Hc').
  apply filter_In in Hc' as [Hc' _].
  rewrite <- Hid. now apply in_map.
Qed.

(** X9: when the conversations are those of a derivation, a click on any
    entry of the listed (filtered) conversations opens that very
    conversation, and the list itself is left as it was. *)
Theorem click_opens_clicked
    (now : Clock) (k : nat) (user : option User.t)
    (allBookings : list Booking.t) (registeredUsers : list RegisteredUser.t)
    (toLowerCase : string -> string)
    (s : PageState) (conv : Conversation.t)
    (Hderived : conversations s
                = fst (deriveConversations now k user allBookings registeredUsers))
    (Hlisted : In conv (filteredConversations toLowerCase s)) :
  selectedConv (onConversationClick conv s) = Some conv /\
  filteredConversations toLowerCase (onConversationClick conv s)
  = filteredConversations toLowerCase s.
Proof.
  split; [|reflexivity].
  unfold selectedConv, onConversationClick, setSelectedConversation. simpl.
  apply find_by_unique_id.
  - rewrite Hderived.
    apply (derived_ids now k user allBookings registeredUsers).
  - unfold filteredConversations in Hlisted. now apply filter_In in Hlisted as [H _].
Qed.

Lemma click_opens_clicked_witness :
  selectedConv (onConversationClick Scenes.cy_thread Scenes.list_page)
    = Some Scenes.cy_thread /\
  filteredConversations Sample.lowerCase
    (onConversationClick Scenes.cy_thread Scenes.list_page)
    = filteredConversations Sample.lowerCase Scenes.list_page.
Proof.
  apply (click_opens_clicked Sample.ticking 0 Sample.therapist Sample.bookings
           Sample.users Sample.lowerCase Scenes.list_page Scenes.cy_thread).
  - reflexivity.
  - right. left. reflexivity.
Defined.

(** X10: the listed conversations of a derivation have pairwise different
    identifiers, whatever the search term: the keys of the rendered list
    never collide. *)
Theorem listed_keys_unique
    (now : Clock) (k : nat) (user : option User.t)
    (allBookings : list Booking.t) (registeredUsers : list RegisteredUser.t)
    (toLowerCase : string -> string)
    (s : PageState)
    (Hderived : conversations s
                = fst (deriveConversations now k user allBookings registeredUsers)) :
  NoDup (map Conversation.id (filteredConversations toLowerCase s)).
Proof.
  unfold filteredConversations. apply listed_ids_distinct. rewrite Hderived.
  apply (derived_ids now k user allBookings registeredUsers).
Qed.

Lemma listed_keys_unique_witness :
  NoDup (map Conversation.id (filteredConversations Sample.lowerCase Scenes.list_page)).
Proof.
  apply (listed_keys_unique Sample.ticking 0 Sample.therapist Sample.bookings
           Sample.users Sample.lowerCase Scenes.list_page).
  reflexivity.
Defined.


(* ------------------------------------------------------------------ *)
(** ** More on the derivation (lines 47-134) *)

Lemma forEachBooking_reads (now : Clock) (user : option User.t)
    (registeredUsers : list RegisteredUser.t) (therapistBookings todo : list Booking.t) :
  forall (patientMap : JsMap Conversation.t) (k : nat),
    (snd (forEachBooking now user registeredUsers therapistBookings todo patientMap k)
     + 5 * List.length patientMap
     = k + 5 * List.length
             (fst (forEachBooking now user registeredUsers therapistBookings
                     todo patientMap k)))%nat.
Proof.
  induction todo as [|booking rest IH]; intros patientMap k; simpl; [lia|].
  destruct (Map_has patientMap (Booking.patientId booking)) eqn:Hhas; [apply IH|].
  rewrite Map_set_fresh by exact Hhas.
  specialize (IH (patientMap ++
                    [(Booking.patientId booking,
                      newConversation now k user registeredUsers therapistBookings booking)])
                 (k + 5)%nat).
  rewrite length_app in IH. simpl in IH. lia.
Qed.

Lemma deriveConversations_reads
    (now : Clock) (k : nat) (user : option User.t)
    (allBookings : list Booking.t) (registeredUsers : list RegisteredUser.t) :
  snd (deriveConversations now k user allBookings registeredUsers)
  = (k + 5 * List.length
           (fst (deriveConversations now k user allBookings registeredUsers)))%nat.
Proof.
  unfold deriveConversations.
  pose proof (forEachBooking_reads now user registeredUsers
                (filter (isTherapistBooking user) allBookings)
                (filter (isTherapistBooking user) allBookings) [] k) as H.
  destruct (forEachBooking now user registeredUsers
              (filter (isTherapistBooking user) allBookings)
              (filter (isTherapistBooking user) allBookings) [] k) as [m k'].
  simpl in *. unfold Map_values. rewrite length_map. lia.
Qed.

(** X11: a derivation reads the clock five times for each conversation it
    produces, that is for each distinct patient among the matching
    bookings, and never otherwise; when no booking matches it yields no
    conversation and reads nothing. *)
Theorem derivation_clock_reads
    (now : Clock) (k : nat) (user : option User.t)
    (allBookings : list Booking.t) (registeredUsers : list RegisteredUser.t) :
  snd (deriveConversations now k user allBookings registeredUsers)
  = (k + 5 * List.length
           (nodup string_dec
              (map Booking.patientId (filter (isTherapistBooking user) allBookings))))%nat /\
  ((forall b, In b allBookings -> isTherapistBooking user b = false) ->
   deriveConversations now k user allBookings registeredUsers = ([], k)).
Proof.
  split.
  - rewrite deriveConversations_reads. f_equal. f_equal.
    destruct (derived_ids now k user allBookings registeredUsers) as [Hnd Hmem].
    rewrite <- (length_map Conversation.id).
    apply Permutation_length. apply NoDup_Permutation; [exact Hnd | apply NoDup_nodup |].
    intros p. rewrite Hmem, nodup_In, in_map_iff.
    split; intros [b [H1 H2]]; exists b; split; assumption.
  - intros Hnone. unfold deriveConversations.
    replace (filter (isTherapistBooking user) allBookings) with (@nil Booking.t);
      [reflexivity|].
    symmetry. induction allBookings as [|b l IH]; [reflexivity|]. simpl.
    rewrite (Hnone b) by now left. apply IH. intros x Hx. apply Hnone. now right.
Qed.

Lemma firstIndex_other (b : Booking.t) (rest : list Booking.t) (p : string) :
  Booking.patientId b <> p -> firstIndex p (b :: rest) = S (firstIndex p rest).
Proof.
  intros H. simpl. destruct (String.eqb_spec (Booking.patientId b) p); [contradiction|].
  reflexivity.
Qed.

Lemma StronglySorted_shift {A} (f g : A -> nat) (l : list A) :
  (forall x, In x l -> g x = S (f x)) ->
  StronglySorted lt (map f l) -> StronglySorted lt (map g l).
Proof.
  induction l as [|a l IH]; simpl; intros Hg Hs; [constructor|].
  apply StronglySorted_inv in Hs as [Hs Hall]. constructor.
  - apply IH; [|exact Hs]. intros x Hx. apply Hg. now right.
  - rewrite Forall_forall in *. intros y Hy.
    apply in_map_iff in Hy as (x & <- & Hx).
    rewrite (Hg a) by now left. rewrite (Hg x) by now right.
    apply -> Nat.succ_lt_mono. apply Hall. now apply in_map.
Qed.

Lemma StronglySorted_pair {A} (R : A -> A -> Prop) (l1 l2 l3 : list A) (a b : A) :
  StronglySorted R (l1 ++ a :: l2 ++ b :: l3) -> R a b.
Proof.
  induction l1 as [|x l1 IH]; simpl; intros Hs.
  - apply StronglySorted_inv in Hs as [_ Hall]. rewrite Forall_forall in Hall.
    apply Hall. apply in_or_app. right. now left.
  - apply StronglySorted_inv in Hs as [Hs _]. now apply IH.
Qed.

Lemma forEachBooking_order (now : Clock) (user : option User.t)
    (registeredUsers : list RegisteredUser.t) (therapistBookings todo : list Booking.t) :
  forall (patientMap : JsMap Conversation.t) (k : nat),
  exists added,
    fst (forEachBooking now user registeredUsers therapistBookings todo patientMap k)
    = patientMap ++ added /\
    (forall kv, In kv added -> ~ In (fst kv) (map fst patientMap)) /\
    StronglySorted lt (map (fun kv => firstIndex (fst kv) todo) added).
Proof.
  induction todo as [|booking rest IH]; intros patientMap k; simpl.
  - exists []. rewrite app_nil_r. split; [reflexivity|]. split; [intros kv []|constructor].
  - destruct (Map_has patientMap (Booking.patientId booking)) eqn:Hhas.
    + destruct (IH patientMap k) as (added & E & Hnew & Hs).
      exists added. split; [exact E|]. split; [exact Hnew|].
      apply (StronglySorted_shift (fun kv => firstIndex (fst kv) rest)); [|exact Hs].
      intros kv Hkv.
      destruct (String.eqb_spec (Booking.patientId booking) (fst kv)) as [E'|NE];
        [|reflexivity].
      exfalso. apply (Hnew kv Hkv). rewrite <- E'. now apply Map_has_In.
    + rewrite Map_set_fresh by exact Hhas.
      set (conv := newConversation now k user registeredUsers therapistBookings booking).
      destruct (IH (patientMap ++ [(Booking.patientId booking, conv)]) (k + 5)%nat)
        as (added & E & Hnew & Hs).
      exists ((Booking.patientId booking, conv) :: added).
      rewrite E, <- app_assoc. split; [reflexivity|].
      assert (Hne : forall kv, In kv added -> Booking.patientId booking <> fst kv).
      { intros kv Hkv Heq. apply (Hnew kv Hkv). rewrite map_app.
        apply in_or_app. right. left. exact Heq. }
      split.
      * intros kv [<-|Hkv]; [now apply Map_has_false|].
        intros Hin. apply (Hnew kv Hkv). rewrite map_app. apply in_or_app. now left.
      * cbn [map fst]. rewrite String.eqb_refl. constructor.
        -- apply (StronglySorted_shift (fun kv => firstIndex (fst kv) rest)); [|exact Hs].
           intros kv Hkv.
           destruct (String.eqb_spec (Booking.patientId booking) (fst kv)) as [E'|NE];
             [|reflexivity].
           exfalso. now apply (Hne kv Hkv).
        -- rewrite Forall_forall. intros n Hn.
           apply in_map_iff in Hn as (kv & <- & Hkv).
           destruct (String.eqb_spec (Booking.patientId booking) (fst kv)) as [E'|NE];
             [|lia].
           exfalso. now apply (Hne kv Hkv).
Qed.

(** X12: the conversations come in the order in which their patients first
    appear among the therapist's bookings: of two conversations, the one
    listed first belongs to the patient whose first booking comes first. *)
Theorem derived_in_order_of_first_booking
    (now : Clock) (k : nat) (user : option User.t)
    (allBookings : list Booking.t) (registeredUsers : list RegisteredUser.t)
    (l1 l2 l3 : list Conversation.t) (c1 c2 : Conversation.t)
    (Hsplit : fst (deriveConversations now k user allBookings registeredUsers)
              = l1 ++ c1 :: l2 ++ c2 :: l3) :
  (firstIndex (Conversation.id c1) (filter (isTherapistBooking user) allBookings)
   < firstIndex (Conversation.id c2) (filter (isTherapistBooking user) allBookings))%nat.
Proof.
  set (tb := filter (isTherapistBooking user) allBookings) in *.
  destruct (forEachBooking_spec now user registeredUsers tb tb [] k)
    as (added & E & _ & _ & Hconv).
  destruct (forEachBooking_order now user registeredUsers tb tb [] k)
    as (added' & E' & _ & Hs).
  simpl in E, E'. rewrite E in E'. subst added'.
  assert (Hd : fst (deriveConversations now k user allBookings registeredUsers)
               = map snd added).
  { unfold deriveConversations. fold tb.
    destruct (forEachBooking now user registeredUsers tb tb [] k) as [m k'].
    simpl in *. now subst m. }
  assert (Hmap : map (fun kv => firstIndex (fst kv) tb) added
                 = map (fun c => firstIndex (Conversation.id c) tb) (map snd added)).
  { rewrite map_map. apply map_ext_in. intros [p c] Hin. simpl.
    destruct (Hconv p c Hin) as (b & k0 & Hf & _ & ->). simpl.
    destruct Hf as (_ & _ & _ & Hp & _). now rewrite Hp. }
  rewrite Hmap, <- Hd, Hsplit in Hs.
  rewrite map_app in Hs. simpl in Hs. rewrite map_app in Hs. simpl in Hs.
  exact (StronglySorted_pair lt _ _ _ _ _ Hs).
Qed.

Lemma derived_in_order_of_first_booking_witness :
  (firstIndex (Conversation.id Sample.ann_thread)
     (filter (isTherapistBooking Sample.therapist) Sample.bookings)
   < firstIndex (Conversation.id Scenes.cy_thread)
       (filter (isTherapistBooking Sample.therapist) Sample.bookings))%nat.
Proof.
  apply (derived_in_order_of_first_booking Sample.ticking 0 Sample.therapist
           Sample.bookings Sample.users [] [] [] Sample.ann_thread Scenes.cy_thread).
  reflexivity.
Defined.

Lemma Map_has_keys {V} (m m' : JsMap V) (key : string) :
  map fst m = map fst m' -> Map_has m key = Map_has m' key.
Proof.
  intros E. destruct (Map_has m' key) eqn:H.
  - apply Map_has_In. rewrite E. now apply Map_has_In.
  - apply Map_has_false. rewrite E. now apply Map_has_false.
Qed.

Lemma forEachBooking_withoutClock (now now' : Clock) (user : option User.t)
    (registeredUsers : list RegisteredUser.t) (therapistBookings todo : list Booking.t) :
  forall (m m' : JsMap Conversation.t) (k k' : nat),
    map (fun kv => (fst kv, withoutClock (snd kv))) m
    = map (fun kv => (fst kv, withoutClock (snd kv))) m' ->
    map (fun kv => (fst kv, withoutClock (snd kv)))
        (fst (forEachBooking now user registeredUsers therapistBookings todo m k))
    = map (fun kv => (fst kv, withoutClock (snd kv)))
          (fst (forEachBooking now' user registeredUsers therapistBookings todo m' k')).
Proof.
  induction todo as [|booking rest IH]; intros m m' k k' E; simpl; [exact E|].
  assert (Hkeys : map fst m = map fst m').
  { apply (f_equal (map fst)) in E. rewrite !map_map in E. exact E. }
  rewrite (Map_has_keys m m' _ Hkeys).
  destruct (Map_has m' (Booking.patientId booking)) eqn:Hhas; [now apply IH|].
  assert (Hhas' : Map_has m (Booking.patientId booking) = false)
    by now rewrite (Map_has_keys m m' _ Hkeys).
  rewrite !Map_set_fresh by assumption.
  apply IH. rewrite !map_app, E. reflexivity.
Qed.

(** X13: two derivations over the same records and identity, at whatever
    clock values, yield the same conversations in the same order up to the
    time stamps and the presence status; identifier, names, email, last
    message, unread count and the messages' texts and read flags agree. *)
Theorem derivation_differs_only_by_clock
    (now now' : Clock) (k k' : nat) (user : option User.t)
    (allBookings : list Booking.t) (registeredUsers : list RegisteredUser.t) :
  map withoutClock (fst (deriveConversations now k user allBookings registeredUsers))
  = map withoutClock (fst (deriveConversations now' k' user allBookings registeredUsers)).
Proof.
  pose proof (forEachBooking_withoutClock now now' user registeredUsers
                (filter (isTherapistBooking user) allBookings)
                (filter (isTherapistBooking user) allBookings) [] [] k k' eq_refl) as H.
  unfold deriveConversations.
  destruct (forEachBooking now user registeredUsers
              (filter (isTherapistBooking user) allBookings)
              (filter (isTherapistBooking user) allBookings) [] k) as [m j].
  destruct (forEachBooking now' user registeredUsers
              (filter (isTherapistBooking user) allBookings)
              (filter (isTherapistBooking user) allBookings) [] k') as [m' j'].
  simpl in *. unfold Map_values. rewrite !map_map.
  apply (f_equal (map snd)) in H. rewrite !map_map in H. exact H.
Qed.

(* ------------------------------------------------------------------ *)
(** ** Fields of a derived conversation (lines 87-128) *)

Lemma or_else_nonempty (a : option string) (b : string) :
  b <> ""%string -> or_else a b <> ""%string.
Proof.
  intros Hb. destruct a as [s|]; simpl; [|exact Hb].
  destruct (String.eqb_spec s ""); assumption.
Qed.

Lemma or_else_missing (a : option string) (b : string) :
  a = None \/ a = Some ""%string -> or_else a b = b.
Proof. intros [-> | ->]; reflexivity. Qed.

(** X14: the email of a derived conversation is never empty, and it is the
    placeholder when the first booking of the patient has no email and no
    registered user with the patient's identifier has one. *)
Theorem derived_email_never_empty
    (now : Clock) (k : nat) (user : option User.t)
    (allBookings : list Booking.t) (registeredUsers : list RegisteredUser.t)
    (conv : Conversation.t)
    (Hin : In conv (fst (deriveConversations now k user allBookings registeredUsers))) :
  Conversation.patientEmail conv <> ""%string /\
  (forall first others,
      patientGroup user allBookings (Conversation.id conv) = first :: others ->
      Booking.patientEmail first = None \/ Booking.patientEmail first = Some ""%string ->
      (forall u, In u registeredUsers ->
                 RegisteredUser.id u = Conversation.id conv ->
                 RegisteredUser.email u = None \/ RegisteredUser.email u = Some ""%string) ->
      Conversation.patientEmail conv = "patient@example.com"%string).
Proof.
  destruct (derived_from_first now k user allBookings registeredUsers conv Hin)
    as (first0 & k0 & Hf & _ & Hc).
  assert (Hid : Booking.patientId first0 = Conversation.id conv)
    by now destruct Hf as (_ & _ & _ & Hp & _).
  split.
  - rewrite Hc. simpl. apply or_else_nonempty, or_else_nonempty. discriminate.
  - intros first others Hgroup Hbooking Husers.
    destruct (firstOf_group _ _ _ Hf) as [others0 Hg0].
    unfold patientGroup in Hgroup. rewrite Hg0 in Hgroup.
    injection Hgroup as <- _.
    rewrite Hc. simpl. rewrite (or_else_missing _ _ Hbooking).
    destruct (find (fun u => String.eqb (RegisteredUser.id u) (Booking.patientId first0))
                   registeredUsers) as [u|] eqn:Hfind; [|reflexivity].
    apply find_some in Hfind as [Hu Heq]. apply String.eqb_eq in Heq.
    apply or_else_missing. apply Husers; [exact Hu | congruence].
Qed.

Lemma string_app_inv_head (a b c : string) :
  (a ++ b)%string = (a ++ c)%string -> b = c.
Proof.
  induction a as [|x a IH]; simpl; intros H; [exact H|].
  injection H as H. now apply IH.
Qed.

(** X15: the three seed messages of a derived conversation have pairwise
    different identifiers and are all of type text. *)
Theorem seed_message_keys_unique
    (now : Clock) (k : nat) (user : option User.t)
    (allBookings : list Booking.t) (registeredUsers : list RegisteredUser.t)
    (conv : Conversation.t)
    (Hin : In conv (fst (deriveConversations now k user allBookings registeredUsers))) :
  List.length (Conversation.messages conv) = 3%nat /\
  NoDup (map Message.id (Conversation.messages conv)) /\
  Forall (fun m => Message.type m = text) (Conversation.messages conv).
Proof.
  destruct (derived_from_first now k user allBookings registeredUsers conv Hin)
    as (first & k0 & _ & _ & ->).
  simpl. split; [reflexivity|]. split.
  - assert (Hne : forall x y : string, x <> y ->
              ("m_" ++ Booking.patientId first ++ x)%string
              <> ("m_" ++ Booking.patientId first ++ y)%string).
    { intros x y Hxy H. apply Hxy.
      apply (string_app_inv_head (Booking.patientId first)).
      now apply (string_app_inv_head "m_"). }
    repeat constructor; simpl.
    + intros [H|[H|[]]]; revert H; apply Hne; discriminate.
    + intros [H|[]]; revert H; apply Hne; discriminate.
    + intros [].
  - repeat constructor.
Qed.

(** X16: a derived conversation has zero or one unread message; it has one
    exactly when its last message is the request to confirm a booking; the
    first two seed messages are read and the third is unread exactly when
    the count is one, which is when the badge is shown. *)
Theorem unread_count_and_read_flags
    (now : Clock) (k : nat) (user : option User.t)
    (allBookings : list Booking.t) (registeredUsers : list RegisteredUser.t)
    (conv : Conversation.t)
    (Hin : In conv (fst (deriveConversations now k user allBookings registeredUsers))) :
  (Conversation.unreadCount conv = 0 \/ Conversation.unreadCount conv = 1) /\
  (Conversation.unreadCount conv = 1 <->
   Conversation.lastMessage conv
     = "I just booked an appointment. Can you confirm the time?"%string) /\
  exists m1 m2 m3,
    Conversation.messages conv = [m1; m2; m3] /\
    Message.read m1 = true /\ Message.read m2 = true /\
    (Message.read m3 = false <-> Conversation.unreadCount conv = 1) /\
    showsUnreadBadge conv = negb (Message.read m3).
Proof.
  destruct (derived_from_first now k user allBookings registeredUsers conv Hin)
    as (first & k0 & _ & _ & ->).
  unfold showsUnreadBadge. simpl.
  set (st := Booking.status
               (latestBookingOf (filter (isTherapistBooking user) allBookings) first)).
  unfold unreadCountFor, lastMessageFor.
  destruct (String.eqb st "completed"); [|destruct (String.eqb st "pending_confirmation");
                                           [|destruct (String.eqb st "confirmed")]];
    (split; [auto|]); (split; [split; intros H; try reflexivity; discriminate|]);
    do 3 eexists; (split; [reflexivity|]); simpl;
    repeat split; intros; try reflexivity; discriminate.
Qed.

(** X17: which seed messages are laid out as the user's own: the two
    messages of the patient exactly when the patient's identifier is the
    identifier of the signed-in user, and the reply written in the user's
    name exactly when a user is signed in with an identifier that is not
    empty; a reply that is not the user's own has the sender "therapist". *)
Theorem own_message_layout
    (now : Clock) (k : nat) (user : option User.t)
    (allBookings : list Booking.t) (registeredUsers : list RegisteredUser.t)
    (conv : Conversation.t)
    (Hin : In conv (fst (deriveConversations now k user allBookings registeredUsers))) :
  exists m1 m2 m3,
    Conversation.messages conv = [m1; m2; m3] /\
    (isOwnMessage user m1 = true <->
     option_map User.id user = Some (Conversation.id conv)) /\
    (isOwnMessage user m3 = true <->
     option_map User.id user = Some (Conversation.id conv)) /\
    (isOwnMessage user m2 = true <->
     exists u, user = Some u /\ User.id u <> ""%string) /\
    (isOwnMessage user m2 = false -> Message.senderId m2 = "therapist"%string).
Proof.
  destruct (derived_from_first now k user allBookings registeredUsers conv Hin)
    as (first & k0 & _ & _ & ->).
  simpl. do 3 eexists. split; [reflexivity|]. unfold isOwnMessage. simpl.
  assert (Hpatient : strict_eq (Some (Booking.patientId first)) (option_map User.id user)
                     = true <->
                     option_map User.id user = Some (Booking.patientId first)).
  { rewrite strict_eq_true. split; congruence. }
  split; [exact Hpatient|]. split; [exact Hpatient|].
  destruct user as [u|]; simpl.
  - destruct (String.eqb_spec (User.id u) "") as [E|NE].
    + rewrite E. simpl. split; [split|reflexivity].
      * discriminate.
      * intros (u' & Hu & Hne). injection Hu as <-. contradiction.
    + rewrite String.eqb_refl. split; [split|discriminate].
      * intros _. now exists u.
      * reflexivity.
  - split; [split|reflexivity].
    + discriminate.
    + intros (u' & Hu & _). discriminate.
Qed.

Lemma hd_Array_sort_In {A} (cmp : A -> A -> option Z) (d : A) (l : list A) :
  l <> [] -> In (hd d (Array_sort cmp l)) l.
Proof.
  intros Hne. pose proof (Array_sort_perm cmp l) as P.
  destruct (Array_sort cmp l) as [|x s] eqn:E.
  - apply Permutation_sym, Permutation_nil in P. contradiction.
  - simpl. apply (Permutation_in x (Permutation_sym P)). now left.
Qed.

(** X18: when none of the patient's bookings with the therapist carries a
    usable date, the conversation is offline. *)
Theorem undated_group_is_offline
    (now : Clock) (k : nat) (user : option User.t)
    (allBookings : list Booking.t) (registeredUsers : list RegisteredUser.t)
    (conv : Conversation.t)
    (Hin : In conv (fst (deriveConversations now k user allBookings registeredUsers)))
    (Hundated : forall b, In b (patientGroup user allBookings (Conversation.id conv)) ->
                          referenceTime b = None) :
  Conversation.status conv = offline.
Proof.
  destruct (derived_from_first now k user allBookings registeredUsers conv Hin)
    as (first & k0 & Hf & _ & Hc).
  assert (Hid : Booking.patientId first = Conversation.id conv)
    by now destruct Hf as (_ & _ & _ & Hp & _).
  destruct (firstOf_group _ _ _ Hf) as [others Hg].
  rewrite Hc. simpl. rewrite Hundated; [reflexivity|].
  unfold latestBookingOf, patientGroup. rewrite Hid.
  apply hd_Array_sort_In. rewrite Hg. discriminate.
Qed.

Lemma undated_group_is_offline_witness :
  Conversation.status
    (newConversation Sample.frozen 0 Sample.therapist [] [Scenes.undated] Scenes.undated)
  = offline.
Proof.
  apply (undated_group_is_offline Sample.frozen 0 Sample.therapist [Scenes.undated] []).
  - left. reflexivity.
  - intros b [<-|[]]. reflexivity.
Defined.

(** X19: with no user signed in, the conversations are those of the
    patients of the bookings that lack a therapist name or a therapist
    identifier: a missing field equals the missing identity. *)
Theorem signed_out_matches_unassigned
    (now : Clock) (k : nat)
    (allBookings : list Booking.t) (registeredUsers : list RegisteredUser.t) (p : string) :
  In p (map Conversation.id
          (fst (deriveConversations now k None allBookings registeredUsers))) <->
  exists b, In b allBookings /\
            (Booking.therapistName b = None \/ Booking.therapistId b = None) /\
            Booking.patientId b = p.
Proof.
  destruct (derived_ids now k None allBookings registeredUsers) as [_ Hmem].
  rewrite Hmem. split.
  - intros (b & Hb & Hp). apply filter_In in Hb as [Hb Hm].
    apply isTherapistBooking_spec in Hm. exists b. auto.
  - intros (b & Hb & Hm & Hp). exists b. split; [|exact Hp].
    apply filter_In. split; [exact Hb|]. now apply isTherapistBooking_spec.
Qed.

(** X2: the list shows every derived conversation as "2h ago" from the
    moment it is derived until an hour later, since its last-message time
    is set two hours before the clock read that makes it. *)
Theorem derived_shown_two_hours_ago
    (now : Clock) (k : nat) (user : option User.t)
    (allBookings : list Booking.t) (registeredUsers : list RegisteredUser.t)
    (conv : Conversation.t)
    (Hin : In conv (fst (deriveConversations now k user allBookings registeredUsers))) :
  exists k0,
    (k <= k0)%nat /\
    forall t, now (k0 + 4)%nat <= t < now (k0 + 4)%nat + hour ->
              formatTime t (Conversation.lastMessageTime conv) = "2h ago"%string.
Proof.
  destruct (derived_from_first now k user allBookings registeredUsers conv Hin)
    as (first & k0 & _ & Hk & ->).
  exists k0. split; [exact Hk|]. intros t Ht.
  change (Conversation.lastMessageTime
            (newConversation now k0 user registeredUsers
               (filter (isTherapistBooking user) allBookings) first))
    with (now (k0 + 4)%nat - 2 * 60 * 60 * 1000).
  unfold formatTime, hour in *. cbv zeta.
  replace ((t - (now (k0 + 4)%nat - 2 * 60 * 60 * 1000)) / (1000 * 60 * 60)) with 2;
    [reflexivity|].
  apply Z.div_unique with (r := t - now (k0 + 4)%nat); lia.
Qed.

Lemma derived_shown_two_hours_ago_witness :
  exists k0,
    (0 <= k0)%nat /\
    forall t, Sample.ticking (k0 + 4)%nat <= t < Sample.ticking (k0 + 4)%nat + hour ->
              formatTime t (Conversation.lastMessageTime Sample.ann_thread)
              = "2h ago"%string.
Proof.
  apply (derived_shown_two_hours_ago Sample.ticking 0 Sample.therapist
           Sample.bookings Sample.users Sample.ann_thread).
  left. reflexivity.
Defined.

Lemma derived_email_never_empty_witness :
  Conversation.patientEmail Sample.ann_thread <> ""%string /\
  (forall first others,
      patientGroup Sample.therapist Sample.bookings (Conversation.id Sample.ann_thread)
        = first :: others ->
      Booking.patientEmail first = None \/ Booking.patientEmail first = Some ""%string ->
      (forall u, In u Sample.users ->
                 RegisteredUser.id u = Conversation.id Sample.ann_thread ->
                 RegisteredUser.email u = None \/ RegisteredUser.email u = Some ""%string) ->
      Conversation.patientEmail Sample.ann_thread = "patient@example.com"%string).
Proof.
  apply (derived_email_never_empty Sample.ticking 0 Sample.therapist Sample.bookings
           Sample.users Sample.ann_thread).
  left. reflexivity.
Defined.

Lemma seed_message_keys_unique_witness :
  List.length (Conversation.messages Sample.ann_thread) = 3%nat /\
  NoDup (map Message.id (Conversation.messages Sample.ann_thread)) /\
  Forall (fun m => Message.type m = text) (Conversation.messages Sample.ann_thread).
Proof.
  apply (seed_message_keys_unique Sample.ticking 0 Sample.therapist Sample.bookings
           Sample.users Sample.ann_thread).
  left. reflexivity.
Defined.

Lemma unread_count_and_read_flags_witness :
  (Conversation.unreadCount Sample.ann_thread = 0 \/
   Conversation.unreadCount Sample.ann_thread = 1) /\
  (Conversation.unreadCount Sample.ann_thread = 1 <->
   Conversation.lastMessage Sample.ann_thread
     = "I just booked an appointment. Can you confirm the time?"%string) /\
  exists m1 m2 m3,
    Conversation.messages Sample.ann_thread = [m1; m2; m3] /\
    Message.read m1 = true /\ Message.read m2 = true /\
    (Message.read m3 = false <-> Conversation.unreadCount Sample.ann_thread = 1) /\
    showsUnreadBadge Sample.ann_thread = negb (Message.read m3).
Proof.
  apply (unread_count_and_read_flags Sample.ticking 0 Sample.therapist Sample.bookings
           Sample.users Sample.ann_thread).
  left. reflexivity.
Defined.

Lemma own_message_layout_witness :
  exists m1 m2 m3,
    Conversation.messages Sample.ann_thread = [m1; m2; m3] /\
    (isOwnMessage Sample.therapist m1 = true <->
     option_map User.id Sample.therapist = Some (Conversation.id Sample.ann_thread)) /\
    (isOwnMessage Sample.therapist m3 = true <->
     option_map User.id Sample.therapist = Some (Conversation.id Sample.ann_thread)) /\
    (isOwnMessage Sample.therapist m2 = true <->
     exists u, Sample.therapist = Some u /\ User.id u <> ""%string) /\
    (isOwnMessage Sample.therapist m2 = false ->
     Message.senderId m2 = "therapist"%string).
Proof.
  apply (own_message_layout Sample.ticking 0 Sample.therapist Sample.bookings
           Sample.users Sample.ann_thread).
  left. reflexivity.
Defined.

(** A user signed in with the empty identifier sees the messages of a
    patient whose identifier is empty as their own, and not the reply
    written in the user's name. *)
Example empty_identifier_owns_patient_messages :
  map (isOwnMessage (Some (User.mk "" "Dr. A")))
      (flat_map Conversation.messages
         (fst (deriveConversations Sample.frozen 0 (Some (User.mk "" "Dr. A"))
                 [Booking.mk "" "Eve" None (Some "Dr. A"%string) None
                    "confirmed" (DateAt 1000) NoDate] [])))
  = [true; false; true].
Proof. reflexivity. Qed.


(* ------------------------------------------------------------------ *)
(** ** A refresh that reads the store (lines 43-45, 134) *)

Lemma findElement_records (p : string) (records : list RegisteredUser.t) :
  findElement p (map Some records)
  = Returned (find (fun u => String.eqb (RegisteredUser.id u) p) records).
Proof.
  induction records as [|u l IH]; simpl; [reflexivity|].
  now destruct (String.eqb (RegisteredUser.id u) p).
Qed.

Lemma with_reads_same (w : World) : with_reads (reads w) w = w.
Proof. now destruct w. Qed.

(** Over an array of user records the loop in the world is the loop over
    the records. *)
Lemma forEachStored_records (now : Clock) (user : option User.t)
    (registeredUsers : list RegisteredUser.t) (therapistBookings : list Booking.t)
    (todo : list Booking.t) :
  forall patientMap w,
    forEachStored now user (ArrayOf (map Some registeredUsers)) therapistBookings
      todo patientMap w
    = (Returned (fst (forEachBooking now user registeredUsers therapistBookings
                        todo patientMap (reads w))),
       with_reads (snd (forEachBooking now user registeredUsers therapistBookings
                          todo patientMap (reads w))) w).
Proof.
  induction todo as [|b rest IH]; intros m w; simpl.
  - now rewrite with_reads_same.
  - unfold bind. simpl. rewrite findElement_records.
    destruct (Map_has m (Booking.patientId b)); [apply IH|].
    rewrite IH. reflexivity.
Qed.

Lemma loadConversations_ok (now : Clock) (user : option User.t) (w : World) :
  storeReadable w ->
  loadConversations now user w
  = (Returned tt,
     with_page
       (mkPage (selectedConversation (page w)) (messageText (page w))
               (searchTerm (page w))
               (fst (deriveConversations now (reads w) user
                       (recordsOf (mindcare_bookings w))
                       (recordsOf (mindcare_registered_users w)))))
       (with_reads
          (snd (deriveConversations now (reads w) user
                  (recordsOf (mindcare_bookings w))
                  (recordsOf (mindcare_registered_users w))))
          w)).
Proof.
  intros [Hb Hu].
  assert (Hpb : JSON_parse (mindcare_bookings w) w
                = (Returned (ArrayOf (map Some (recordsOf (mindcare_bookings w)))), w))
    by (destruct Hb as [Hb|[bs Hb]]; now rewrite Hb).
  assert (Hpu : JSON_parse (mindcare_registered_users w) w
                = (Returned (ArrayOf (map Some (recordsOf (mindcare_registered_users w)))),
                   w))
    by (destruct Hu as [Hu|[us Hu]]; now rewrite Hu).
  rewrite (loadConversations_parsed now user w _ _ Hpb Hpu).
  simpl. rewrite filterElements_records, forEachStored_records.
  unfold deriveConversations, setConversations.
  destruct (forEachBooking now user (recordsOf (mindcare_registered_users w))
              (filter (isTherapistBooking user) (recordsOf (mindcare_bookings w)))
              (filter (isTherapistBooking user) (recordsOf (mindcare_bookings w)))
              [] (reads w)) as [patientMap k'].
  reflexivity.
Qed.

(** X20: a refresh over a store whose items are missing or arrays of
    records replaces the conversations by the derivation from the stored
    records (a missing item counting as the empty array) and keeps the
    selection, the draft and the search term; it advances the clock by five
    reads per conversation and touches neither the timer nor the
    listeners. *)
Theorem refresh_keeps_draft_and_selection
    (now : Clock) (user : option User.t) (w : World)
    (Hstore : storeReadable w) :
  fst (loadConversations now user w) = Returned tt /\
  conversations (page (snd (loadConversations now user w)))
    = fst (deriveConversations now (reads w) user
             (recordsOf (mindcare_bookings w))
             (recordsOf (mindcare_registered_users w))) /\
  selectedConversation (page (snd (loadConversations now user w)))
    = selectedConversation (page w) /\
  messageText (page (snd (loadConversations now user w))) = messageText (page w) /\
  searchTerm (page (snd (loadConversations now user w))) = searchTerm (page w) /\
  reads (snd (loadConversations now user w))
    = (reads w
       + 5 * List.length (conversations (page (snd (loadConversations now user w)))))%nat /\
  interval (snd (loadConversations now user w)) = interval w /\
  listeners (snd (loadConversations now user w)) = listeners w /\
  uncaught (snd (loadConversations now user w)) = uncaught w.
Proof.
  rewrite (loadConversations_ok now user w Hstore). simpl.
  repeat split. apply deriveConversations_reads.
Qed.

Lemma refresh_keeps_draft_and_selection_witness :
  fst (loadConversations Sample.ticking Sample.therapist Scenes.running) = Returned tt /\
  conversations (page (snd (loadConversations Sample.ticking Sample.therapist
                              Scenes.running)))
    = fst (deriveConversations Sample.ticking (reads Scenes.running) Sample.therapist
             (recordsOf (mindcare_bookings Scenes.running))
             (recordsOf (mindcare_registered_users Scenes.running))) /\
  selectedConversation
    (page (snd (loadConversations Sample.ticking Sample.therapist Scenes.running)))
    = selectedConversation (page Scenes.running) /\
  messageText (page (snd (loadConversations Sample.ticking Sample.therapist
                            Scenes.running)))
    = messageText (page Scenes.running) /\
  searchTerm (page (snd (loadConversations Sample.ticking Sample.therapist
                           Scenes.running)))
    = searchTerm (page Scenes.running) /\
  reads (snd (loadConversations Sample.ticking Sample.therapist Scenes.running))
    = (reads Scenes.running
       + 5 * List.length
               (conversations
                  (page (snd (loadConversations Sample.ticking Sample.therapist
                                Scenes.running)))))%nat /\
  interval (snd (loadConversations Sample.ticking Sample.therapist Scenes.running))
    = interval Scenes.running /\
  listeners (snd (loadConversations Sample.ticking Sample.therapist Scenes.running))
    = listeners Scenes.running /\
  uncaught (snd (loadConversations Sample.ticking Sample.therapist Scenes.running))
    = uncaught Scenes.running.
Proof.
  apply (refresh_keeps_draft_and_selection Sample.ticking Sample.therapist Scenes.running).
  split; right; eexists; reflexivity.
Defined.

(** X21: when the bookings item is missing or holds the empty array, a
    refresh empties the list without reading the clock, whatever the users
    item holds; a conversation that was open no longer resolves while its
    identifier stays selected. *)
Theorem missing_bookings_empty_list
    (now : Clock) (user : option User.t) (w : World)
    (Hbookings : mindcare_bookings w = Missing \/ mindcare_bookings w = Stored [])
    (Husers : mindcare_registered_users w <> Unparsable) :
  fst (loadConversations now user w) = Returned tt /\
  conversations (page (snd (loadConversations now user w))) = [] /\
  reads (snd (loadConversations now user w)) = reads w /\
  selectedConv (page (snd (loadConversations now user w))) = None /\
  selectedConversation (page (snd (loadConversations now user w)))
    = selectedConversation (page w).
Proof.
  destruct (JSON_parse_returns _ w Husers) as [parsed Hparse].
  assert (Hb : JSON_parse (mindcare_bookings w) w = (Returned (ArrayOf []), w))
    by (destruct Hbookings as [H|H]; now rewrite H).
  rewrite (loadConversations_parsed now user w _ _ Hb Hparse).
  simpl. repeat split.
Qed.

Lemma missing_bookings_empty_list_witness :
  fst (loadConversations Sample.ticking Sample.therapist
         (unmounted Missing (Stored Sample.users))) = Returned tt /\
  conversations (page (snd (loadConversations Sample.ticking Sample.therapist
                              (unmounted Missing (Stored Sample.users))))) = [] /\
  reads (snd (loadConversations Sample.ticking Sample.therapist
                (unmounted Missing (Stored Sample.users))))
    = reads (unmounted Missing (Stored Sample.users)) /\
  selectedConv (page (snd (loadConversations Sample.ticking Sample.therapist
                             (unmounted Missing (Stored Sample.users))))) = None /\
  selectedConversation
    (page (snd (loadConversations Sample.ticking Sample.therapist
                  (unmounted Missing (Stored Sample.users)))))
    = selectedConversation (page (unmounted Missing (Stored Sample.users))).
Proof.
  apply (missing_bookings_empty_list Sample.ticking Sample.therapist
           (unmounted Missing (Stored Sample.users))).
  - left. reflexivity.
  - discriminate.
Defined.

(* ------------------------------------------------------------------ *)
(** ** Set-up and teardown of the effect (lines 137-155) *)

Lemma effect_ok (now : Clock) (user : option User.t) (w : World) :
  storeReadable w ->
  effect now user w
  = (Returned tt,
     with_hasCleanup true
       (with_listeners
          ("mindcare-data-updated"%string :: "storage"%string
             :: listeners (snd (loadConversations now user w)))
          (with_interval true (snd (loadConversations now user w))))).
Proof.
  intros Hs. unfold effect, bind.
  rewrite (loadConversations_ok now user w Hs). reflexivity.
Qed.

(** X22: over a store whose items are missing or arrays of records the
    effect, run where nothing is set up, registers the interval and one
    listener for each of the two events; the teardown it returns removes
    all of them again. *)
Theorem setup_then_teardown
    (now : Clock) (user : option User.t) (w : World)
    (Hstore : storeReadable w)
    (Hreleased : released w) :
  fst (runEffect now user w) = Returned tt /\
  registered (snd (runEffect now user w)) /\
  released (unmount (snd (runEffect now user w))) /\
  page (unmount (snd (runEffect now user w))) = page (snd (runEffect now user w)).
Proof.
  destruct Hreleased as (Hi & Hc & Hl).
  unfold runEffect. rewrite Hc, (effect_ok now user w Hstore).
  rewrite (loadConversations_ok now user w Hstore). simpl. rewrite Hl.
  repeat split.
Qed.

Lemma setup_then_teardown_witness :
  fst (runEffect Sample.ticking Sample.therapist
         (unmounted (Stored Sample.bookings) Missing)) = Returned tt /\
  registered (snd (runEffect Sample.ticking Sample.therapist
                     (unmounted (Stored Sample.bookings) Missing))) /\
  released (unmount (snd (runEffect Sample.ticking Sample.therapist
                            (unmounted (Stored Sample.bookings) Missing)))) /\
  page (unmount (snd (runEffect Sample.ticking Sample.therapist
                        (unmounted (Stored Sample.bookings) Missing))))
    = page (snd (runEffect Sample.ticking Sample.therapist
                   (unmounted (Stored Sample.bookings) Missing))).
Proof.
  apply (setup_then_teardown Sample.ticking Sample.therapist
           (unmounted (Stored Sample.bookings) Missing)).
  - split; [right; eexists; reflexivity | left; reflexivity].
  - repeat split.
Defined.

Lemma resolve_bound (globals : list string) (x : string) :
  In x (functionScope ++ moduleScope ++ globals) -> resolve globals x = ret tt.
Proof.
  intros Hx. unfold resolve.
  replace (existsb (String.eqb x) (functionScope ++ moduleScope ++ globals)) with true;
    [reflexivity|].
  symmetry. apply existsb_exists. exists x. split; [exact Hx | apply String.eqb_refl].
Qed.

(** Laying out the list reads the clock once per entry and writes nothing
    else. *)
Lemma renderEntries_reads (now : Clock) (listed : list Conversation.t) :
  forall w, exists labels,
    renderEntries now listed w
    = (Returned labels, with_reads (reads w + List.length listed) w).
Proof.
  induction listed as [|c l IH]; intros w; simpl.
  - exists []. unfold ret. now rewrite Nat.add_0_r, with_reads_same.
  - unfold bind. destruct (IH (with_reads (S (reads w)) w)) as [labels E].
    rewrite E. eexists. unfold ret, with_reads. simpl.
    now rewrite Nat.add_succ_r.
Qed.

(** Where [useEffect] resolves, a later render returns and has read the
    clock once per listed conversation. *)
Lemma rerender_reads (now : Clock) (toLowerCase : string -> string)
    (globals : list string) (w : World) :
  hookResolves globals ->
  exists labels,
    rerender now toLowerCase globals w
    = (Returned labels,
       with_reads (reads w + List.length (filteredConversations toLowerCase (page w))) w).
Proof.
  intros Hhook. unfold rerender.
  rewrite (resolve_bound globals "useAuth") by (simpl; tauto).
  rewrite (resolve_bound globals "useTheme") by (simpl; tauto).
  rewrite !(resolve_bound globals "useState") by (simpl; tauto).
  rewrite (resolve_bound globals "useEffect")
    by (rewrite app_assoc; apply in_or_app; right; exact Hhook).
  unfold bind, ret.
  apply renderEntries_reads.
Qed.

Lemma refresh_timer_elapsed (now : Clock) (user : option User.t)
    (toLowerCase : string -> string) (globals : list string) (w : World) :
  storeReadable w -> interval w = true ->
  refresh now user toLowerCase globals TimerElapsed w
  = snd (loadConversations now user w).
Proof.
  intros Hs Hi. simpl. rewrite Hi. unfold runCallback.
  now rewrite (loadConversations_ok now user w Hs).
Qed.

Lemma refresh_notified (now : Clock) (user : option User.t)
    (toLowerCase : string -> string) (globals : list string)
    (w : World) (type : string) :
  storeReadable w -> In type (listeners w) ->
  refresh now user toLowerCase globals (Notified type) w
  = snd (loadConversations now user w).
Proof.
  intros Hs Hin. simpl.
  replace (existsb (String.eqb type) (listeners w)) with true.
  - unfold runCallback. now rewrite (loadConversations_ok now user w Hs).
  - symmetry. apply existsb_exists. exists type. split; [exact Hin|apply String.eqb_refl].
Qed.

Lemma refresh_unheard (now : Clock) (user : option User.t)
    (toLowerCase : string -> string) (globals : list string)
    (w : World) (type : string) :
  ~ In type (listeners w) ->
  refresh now user toLowerCase globals (Notified type) w = w.
Proof.
  intros Hnot. simpl.
  replace (existsb (String.eqb type) (listeners w)) with false; [reflexivity|].
  symmetry. apply not_true_is_false. intros H.
  apply existsb_exists in H as (x & Hx & E). apply String.eqb_eq in E. now subst x.
Qed.

(** A change of identity: the render reads the clock for the listed
    conversations, the teardown and the set-up cancel out, and what is left
    is the refresh. *)
Lemma refresh_identity_changed (now : Clock) (user : option User.t)
    (toLowerCase : string -> string) (globals : list string) (w : World) :
  hookResolves globals -> storeReadable w -> registered w ->
  refresh now user toLowerCase globals IdentityChanged w
  = snd (loadConversations now user
           (with_reads
              (reads w + List.length (filteredConversations toLowerCase (page w))) w)).
Proof.
  intros Hhook Hs (Hi & Hc & Hl).
  destruct (rerender_reads now toLowerCase globals w Hhook) as [labels Hrender].
  unfold refresh, runCallback. unfold bind at 1. rewrite Hrender.
  set (r := (reads w + List.length (filteredConversations toLowerCase (page w)))%nat).
  destruct w as [pg bs us r0 i ls hc un]. simpl in Hi, Hc, Hl. subst i hc ls.
  assert (Hs1 : storeReadable (mkWorld pg bs us r false [] false un)) by exact Hs.
  assert (Hs2 : storeReadable
                  (mkWorld pg bs us r true
                     ["mindcare-data-updated"; "storage"]%string true un)) by exact Hs.
  unfold runEffect, with_reads. cbn [hasCleanup page mindcare_bookings
    mindcare_registered_users interval listeners uncaught].
  unfold bind at 1.
  change (cleanup (mkWorld pg bs us r true
                     ["mindcare-data-updated"; "storage"]%string true un))
    with (@Returned unit tt, mkWorld pg bs us r false [] false un).
  cbv beta iota.
  rewrite (effect_ok now user _ Hs1).
  rewrite (loadConversations_ok now user _ Hs1), (loadConversations_ok now user _ Hs2).
  reflexivity.
Qed.

(** X23: once the effect is set up over a store whose items are missing or
    arrays of records, the timer and each of the two events lead to one and
    the same state, the one the derivation from the store gives; a change
    of identity leads to the state the same refresh gives after the render
    that brings the new identity, which reads the clock once for every
    listed conversation; an event of any other type changes nothing. *)
Theorem triggers_run_same_refresh
    (now : Clock) (user : option User.t)
    (toLowerCase : string -> string) (globals : list string) (w : World)
    (Hhook : hookResolves globals)
    (Hstore : storeReadable w)
    (Hregistered : registered w) :
  refresh now user toLowerCase globals TimerElapsed w
    = snd (loadConversations now user w) /\
  refresh now user toLowerCase globals (Notified "storage") w
    = snd (loadConversations now user w) /\
  refresh now user toLowerCase globals (Notified "mindcare-data-updated") w
    = snd (loadConversations now user w) /\
  refresh now user toLowerCase globals IdentityChanged w
    = snd (loadConversations now user
             (with_reads
                (reads w + List.length (filteredConversations toLowerCase (page w)))
                w)) /\
  (forall type, type <> "storage"%string -> type <> "mindcare-data-updated"%string ->
                refresh now user toLowerCase globals (Notified type) w = w).
Proof.
  pose proof (refresh_identity_changed now user toLowerCase globals w
                Hhook Hstore Hregistered) as Hid.
  destruct Hregistered as (Hi & Hc & Hl).
  split; [|split; [|split; [|split]]].
  - now apply refresh_timer_elapsed.
  - apply refresh_notified; [exact Hstore|]. rewrite Hl. right. now left.
  - apply refresh_notified; [exact Hstore|]. rewrite Hl. now left.
  - exact Hid.
  - intros type H1 H2. apply refresh_unheard. rewrite Hl.
    intros [E|[E|[]]]; congruence.
Qed.

Lemma triggers_run_same_refresh_witness :
  refresh Sample.ticking Sample.therapist Sample.lowerCase Sample.globals_with_hook
    TimerElapsed Scenes.running
    = snd (loadConversations Sample.ticking Sample.therapist Scenes.running) /\
  refresh Sample.ticking Sample.therapist Sample.lowerCase Sample.globals_with_hook
    (Notified "storage") Scenes.running
    = snd (loadConversations Sample.ticking Sample.therapist Scenes.running) /\
  refresh Sample.ticking Sample.therapist Sample.lowerCase Sample.globals_with_hook
    (Notified "mindcare-data-updated") Scenes.running
    = snd (loadConversations Sample.ticking Sample.therapist Scenes.running) /\
  refresh Sample.ticking Sample.therapist Sample.lowerCase Sample.globals_with_hook
    IdentityChanged Scenes.running
    = snd (loadConversations Sample.ticking Sample.therapist
             (with_reads
                (reads Scenes.running
                 + List.length (filteredConversations Sample.lowerCase
                                  (page Scenes.running)))
                Scenes.running)) /\
  (forall type, type <> "storage"%string -> type <> "mindcare-data-updated"%string ->
                refresh Sample.ticking Sample.therapist Sample.lowerCase
                  Sample.globals_with_hook (Notified type) Scenes.running
                = Scenes.running).
Proof.
  apply (triggers_run_same_refresh Sample.ticking Sample.therapist Sample.lowerCase
           Sample.globals_with_hook Scenes.running).
  - left. reflexivity.
  - split; right; eexists; reflexivity.
  - repeat split.
Defined.

(** With conversations listed, a change of identity leaves other time
    stamps behind than a timer tick: the render has read the clock first. *)
Example identity_change_reads_clock_first :
  reads (refresh Sample.ticking Sample.therapist Sample.lowerCase
           Sample.globals_with_hook TimerElapsed
           (with_page Scenes.list_page Scenes.running)) = 10%nat /\
  reads (refresh Sample.ticking Sample.therapist Sample.lowerCase
           Sample.globals_with_hook IdentityChanged
           (with_page Scenes.list_page Scenes.running)) = 12%nat.
Proof. split; reflexivity. Qed.

Lemma perform_step_invariant (now : Clock) (user : option User.t)
    (toLowerCase : string -> string) (globals : list string)
    (a : Activity) (w : World) :
  hookResolves globals -> storeReadable w -> registered w ->
  storeReadable (perform now user toLowerCase globals a w) /\
  registered (perform now user toLowerCase globals a w) /\
  uncaught (perform now user toLowerCase globals a w) = uncaught w /\
  selectedConversation (page (perform now user toLowerCase globals a w))
    = selectedConversation (page w) /\
  messageText (page (perform now user toLowerCase globals a w)) = messageText (page w) /\
  searchTerm (page (perform now user toLowerCase globals a w)) = searchTerm (page w).
Proof.
  intros Hhook Hs Hr.
  assert (Hload : forall w', storeReadable w' -> registered w' ->
                  storeReadable (snd (loadConversations now user w')) /\
                  registered (snd (loadConversations now user w')) /\
                  uncaught (snd (loadConversations now user w')) = uncaught w' /\
                  selectedConversation (page (snd (loadConversations now user w')))
                    = selectedConversation (page w') /\
                  messageText (page (snd (loadConversations now user w')))
                    = messageText (page w') /\
                  searchTerm (page (snd (loadConversations now user w')))
                    = searchTerm (page w')).
  { intros w' Hs' Hr'. rewrite (loadConversations_ok now user w' Hs'). simpl.
    repeat split; apply Hs' || apply Hr'. }
  destruct a as [[|type|]|]; cbn [perform].
  - rewrite refresh_timer_elapsed; [now apply Hload | exact Hs | apply Hr].
  - destruct (in_dec string_dec type (listeners w)) as [Hin|Hnot].
    + rewrite refresh_notified; [now apply Hload | exact Hs | exact Hin].
    + rewrite (refresh_unheard now user toLowerCase globals w type Hnot).
      repeat split; apply Hs || apply Hr.
  - rewrite refresh_identity_changed by assumption.
    apply (Hload (with_reads _ w)); [exact Hs | exact Hr].
  - destruct (rerender_reads now toLowerCase globals w Hhook) as [labels E].
    unfold runCallback, bind. rewrite E. unfold ret.
    repeat split; apply Hs || apply Hr.
Qed.

(** X24: where [useEffect] resolves and the store items are missing or
    arrays of records, whatever the sequence of timer ticks, events,
    identity changes and renders, the effect stays set up with exactly one
    listener per event, nothing is reported as uncaught, and the selection,
    the draft and the search term are never touched. *)
Theorem registrations_never_pile_up
    (now : Clock) (user : option User.t)
    (toLowerCase : string -> string) (globals : list string)
    (activities : list Activity) (w : World)
    (Hhook : hookResolves globals)
    (Hstore : storeReadable w)
    (Hregistered : registered w) :
  registered (performAll now user toLowerCase globals activities w) /\
  uncaught (performAll now user toLowerCase globals activities w) = uncaught w /\
  selectedConversation (page (performAll now user toLowerCase globals activities w))
    = selectedConversation (page w) /\
  messageText (page (performAll now user toLowerCase globals activities w))
    = messageText (page w) /\
  searchTerm (page (performAll now user toLowerCase globals activities w))
    = searchTerm (page w).
Proof.
  revert w Hstore Hregistered. unfold performAll.
  induction activities as [|a rest IH]; intros w Hs Hr; simpl.
  - repeat split; apply Hr.
  - destruct (perform_step_invariant now user toLowerCase globals a w Hhook Hs Hr)
      as (Hs' & Hr' & Hu & Hsel & Hmsg & Hterm).
    destruct (IH (perform now user toLowerCase globals a w) Hs' Hr')
      as (H1 & H2 & H3 & H4 & H5).
    split; [exact H1|]. split; [congruence|]. split; [congruence|].
    split; congruence.
Qed.

Lemma registrations_never_pile_up_witness :
  registered (performAll Sample.ticking Sample.therapist Sample.lowerCase
                Sample.globals_with_hook
                [Triggered IdentityChanged; Rendered; Triggered TimerElapsed;
                 Triggered (Notified "storage"); Triggered IdentityChanged]
                Scenes.running) /\
  uncaught (performAll Sample.ticking Sample.therapist Sample.lowerCase
              Sample.globals_with_hook
              [Triggered IdentityChanged; Rendered; Triggered TimerElapsed;
               Triggered (Notified "storage"); Triggered IdentityChanged]
              Scenes.running) = uncaught Scenes.running /\
  selectedConversation
    (page (performAll Sample.ticking Sample.therapist Sample.lowerCase
             Sample.globals_with_hook
             [Triggered IdentityChanged; Rendered; Triggered TimerElapsed;
              Triggered (Notified "storage"); Triggered IdentityChanged]
             Scenes.running))
    = selectedConversation (page Scenes.running) /\
  messageText
    (page (performAll Sample.ticking Sample.therapist Sample.lowerCase
             Sample.globals_with_hook
             [Triggered IdentityChanged; Rendered; Triggered TimerElapsed;
              Triggered (Notified "storage"); Triggered IdentityChanged]
             Scenes.running))
    = messageText (page Scenes.running) /\
  searchTerm
    (page (performAll Sample.ticking Sample.therapist Sample.lowerCase
             Sample.globals_with_hook
             [Triggered IdentityChanged; Rendered; Triggered TimerElapsed;
              Triggered (Notified "storage"); Triggered IdentityChanged]
             Scenes.running))
    = searchTerm (page Scenes.running).
Proof.
  apply (registrations_never_pile_up Sample.ticking Sample.therapist Sample.lowerCase
           Sample.globals_with_hook
           [Triggered IdentityChanged; Rendered; Triggered TimerElapsed;
            Triggered (Notified "storage"); Triggered IdentityChanged]
           Scenes.running).
  - left. reflexivity.
  - split; right; eexists; reflexivity.
  - repeat split.
Defined.

Lemma send_with_dangling_selection_witness :
  handleSendMessage (mkPage (Some "p9"%string) "hello" "" Sample.derived)
  = (setMessageText "" (mkPage (Some "p9"%string) "hello" "" Sample.derived),
     Returned tt).
Proof.
  apply (send_with_dangling_selection
           (mkPage (Some "p9"%string) "hello" "" Sample.derived) "p9").
  - reflexivity.
  - discriminate.
  - reflexivity.
  - intros Hblank. apply trim_empty_iff in Hblank. vm_compute in Hblank.
    discriminate Hblank.
Defined.

Lemma send_without_selection_witness :
  handleSendMessage (mkPage None "hello" "" Sample.derived)
  = (mkPage None "hello" "" Sample.derived, Returned tt).
Proof.
  apply (send_without_selection (mkPage None "hello" "" Sample.derived)).
  left. reflexivity.
Defined.
